(** * Browser pool service (services/browser-pool-service-node)

    A shallow embedding of the Node.js browser pool: [BrowserSession] and
    [BrowserPool] (browser-pool.js), the method interception installed by
    [BrowserPoolService.setupEventBroadcasting] (index.js), and the two
    control planes, [BrowserPoolGrpcServer] (grpc-server.js) and
    [BrowserPoolWebSocketServer.handleBrowserAction] (websocket-server.js).

    Conventions of the embedding.
    - In a run ([run], [step]) an [async] method is one transition: it
      runs to its end before the next operation starts.  Such runs cover
      the calls that do not overlap.  Calls that overlap at an [await]
      are modelled apart, stretch by stretch, for [createSession]
      ([overlapped]) and for the closes started by [stop].
    - Playwright is an external collaborator.  What each of its calls
      answers is read from an [Engine] record handed to every operation, and
      every call made is appended to [engineCalls].
    - [new Date()] reads the [clock] field of the world (milliseconds); only
      [tick] moves it, and only forward.
    - [uuidv4()] reads the [uuid] field of the [Engine] record.
    - A JavaScript exception is the [Throw] completion; state changes made
      before the throw persist, as they do in JavaScript.
    - Calls to [logger] change nothing the pool can observe and are left
      out. *)

From Stdlib Require Import ZArith List String Bool Lia Permutation.
Import ListNotations.

Local Open Scope string_scope.
Local Open Scope list_scope.
Local Open Scope Z_scope.

(** ** JavaScript [Map] with string keys

    A [Map] iterates in insertion order; [set] on a key that is present
    keeps the position of the entry.  The representation invariant is
    [NoDup (keys m)]. *)

Module JsMap.

Section Operations.
Context {V : Type}.

Definition t := list (string * V).

Definition empty : t := [].

Fixpoint get (k : string) (m : t) : option V :=
  match m with
  | [] => None
  | (k', v) :: m' => if String.eqb k k' then Some v else get k m'
  end.

Definition has (k : string) (m : t) : bool :=
  match get k m with Some _ => true | None => false end.

Fixpoint set (k : string) (v : V) (m : t) : t :=
  match m with
  | [] => [(k, v)]
  | (k', v') :: m' =>
      if String.eqb k k' then (k, v) :: m' else (k', v') :: set k v m'
  end.

Fixpoint delete (k : string) (m : t) : t :=
  match m with
  | [] => []
  | (k', v') :: m' =>
      if String.eqb k k' then delete k m' else (k', v') :: delete k m'
  end.

Definition size (m : t) : Z := Z.of_nat (List.length m).

Definition keys (m : t) : list string := map fst m.

Definition values (m : t) : list V := map snd m.

Definition wf (m : t) : Prop := NoDup (keys m).
End Operations.

Arguments t : clear implicits.

End JsMap.

(** ** Handles, errors and the engine boundary *)

Definition SessionId := string.
Definition PageId := string.
Definition ClientId := string.

(** Playwright objects are opaque to the service; a handle stands for each. *)
Definition Browser := nat.
Definition Context := nat.
Definition Page := nat.

(** What a Playwright call can reject with. *)
Inductive PlaywrightError : Type :=
| TimeoutError (msg : string)          (* playwright.errors.TimeoutError *)
| OtherError (msg : string).           (* any other failure of the engine *)

(** The [Error] values that travel through the service.  The first four are
    built by the service itself ([new Error(...)]). *)
Inductive Error : Type :=
| PoolAtCapacity                       (* 'Browser pool at capacity' *)
| SessionNotFound (sid : SessionId)    (* `Session ${sessionId} not found` *)
| PageNotFound                         (* 'Page not found' *)
| UnknownBrowserAction (a : string)    (* `Unknown browser action: ${action}` *)
| Playwright (e : PlaywrightError)     (* an error raised by the engine *)
| TypeError (msg : string).            (* member access on undefined *)

Definition message (e : Error) : string :=
  match e with
  | PoolAtCapacity => "Browser pool at capacity"
  | SessionNotFound sid =>
      String.append "Session " (String.append sid " not found")
  | PageNotFound => "Page not found"
  | UnknownBrowserAction a => String.append "Unknown browser action: " a
  | Playwright (TimeoutError msg) => msg
  | Playwright (OtherError msg) => msg
  | TypeError msg => msg
  end.

(** What the engine answers to a call: a value, or a rejection. *)
Inductive Answer (A : Type) : Type :=
| Ok (a : A)
| Fails (e : PlaywrightError).

Arguments Ok {A} a.
Arguments Fails {A} e.

(** How an evaluation completes: normally with a value, or abruptly. *)
Inductive Completion (A : Type) : Type :=
| Return (a : A)
| Throw (e : Error).

Arguments Return {A} a.
Arguments Throw {A} e.

(** The calls the service makes on Playwright, with the options it passes
    ([timeout] in milliseconds, [None] when the option is not passed).  A
    string argument is [None] when the caller passes [undefined]. *)
Inductive EngineCall : Type :=
| Launch
| NewContext (b : Browser)
| NewPage (c : Context)
| Goto (p : Page) (url : option string) (timeout : option Z)
| PageTitle (p : Page)
| Click (p : Page) (selector : option string) (timeout : option Z)
| Fill (p : Page) (selector text : option string) (timeout : option Z)
| PageClose (p : Page)
| ContextClose (c : Context).

(** What Playwright answers, and what [uuidv4()] returns, during one
    operation. *)
Record Engine : Type := mkEngine {
  launch : Answer Browser;
  newContext : Browser -> Answer Context;
  newPage : Context -> Answer Page;
  goto : Page -> option string -> option Z -> Answer string;
                                                        (* response.url() *)
  title : Page -> Answer string;
  click : Page -> option string -> option Z -> Answer unit;
  fill : Page -> option string -> option string -> option Z -> Answer unit;
  pageClose : Page -> Answer unit;
  contextClose : Context -> Answer unit;
  uuid : string
}.

(** ** Configuration (config.js)

    The numeric options as the pool reads them.  They are integers here:
    a configuration in which [parseInt] gave NaN is outside this
    development. *)

Record Config : Type := mkConfig {
  MAX_BROWSERS : Z;
  BROWSER_TIMEOUT : Z;            (* seconds *)
  SESSION_CLEANUP_INTERVAL : Z;   (* seconds *)
  MAX_PAGE_LOAD_TIME : Z;         (* seconds *)
  VIEWPORT_WIDTH : Z;
  VIEWPORT_HEIGHT : Z
}.

(** ** Data model (browser-pool.js) *)

Record BrowserSession : Type := mkSession {
  sessionId : SessionId;
  context : Context;
  createdAt : Z;
  lastActivity : Z;
  pages : JsMap.t Page;        (* pageId -> Page *)
  metadata : JsMap.t string
}.

Record BrowserPool : Type := mkPool {
  maxBrowsers : Z;
  browserTimeout : Z;
  browsers : list Browser;
  activeSessions : JsMap.t BrowserSession   (* sessionId -> BrowserSession *)
}.

(** ** Event plane envelopes (websocket-server.js) *)

Inductive Payload : Type :=
| SessionCreated (sid : SessionId) (md : JsMap.t string)
| SessionClosed (sid : SessionId)
| PageCreated (sid : SessionId) (pid : PageId) (url : option string)
| PageClosed (sid : SessionId) (pid : PageId)
| BrowserAction (client : ClientId) (sid : option SessionId)
    (pid : option PageId) (action : string) (timestamp : Z).

(** The envelope built by [broadcast(topic, payload)]. *)
Record Broadcast : Type := mkBroadcast {
  topic : string;
  payload : Payload;
  timestamp : Z
}.

(** What an action answers on the event plane. *)
Inductive ActionValue : Type :=
| IdValue (id : string)     (* createSession / createPage return the id *)
| SuccessValue.             (* { success: true } *)

Inductive WsMessage : Type :=
| ActionResult (action : string) (sid : option SessionId)
    (pid : option PageId) (result : ActionValue)       (* success: true *)
| ActionFailure (action : string) (error : string).   (* success: false *)

(** ** The world an operation runs in *)

Record World : Type := mkWorld {
  config : Config;
  clock : Z;
  pool : BrowserPool;
  engineCalls : list EngineCall;           (* oldest first *)
  published : list Broadcast;              (* oldest first *)
  sent : list (ClientId * WsMessage)       (* oldest first *)
}.

Definition set_pool (p : BrowserPool) (w : World) : World :=
  mkWorld (config w) (clock w) p (engineCalls w) (published w) (sent w).

Definition set_browsers (bs : list Browser) (p : BrowserPool) : BrowserPool :=
  mkPool (maxBrowsers p) (browserTimeout p) bs (activeSessions p).

Definition set_activeSessions (m : JsMap.t BrowserSession) (p : BrowserPool)
  : BrowserPool :=
  mkPool (maxBrowsers p) (browserTimeout p) (browsers p) m.

Definition set_lastActivity (now : Z) (s : BrowserSession) : BrowserSession :=
  mkSession (sessionId s) (context s) (createdAt s) now (pages s) (metadata s).

Definition set_pages (ps : JsMap.t Page) (s : BrowserSession) : BrowserSession :=
  mkSession (sessionId s) (context s) (createdAt s) (lastActivity s) ps
    (metadata s).

Definition set_metadata (md : JsMap.t string) (s : BrowserSession)
  : BrowserSession :=
  mkSession (sessionId s) (context s) (createdAt s) (lastActivity s) (pages s)
    md.

(** ** The monad of service code: engine answers are read, the world is
    threaded, and a throw keeps the world it was raised in. *)

Definition M (A : Type) : Type := Engine -> World -> Completion A * World.

Definition ret {A} (a : A) : M A := fun _ w => (Return a, w).

Definition throw {A} (e : Error) : M A := fun _ w => (Throw e, w).

Definition bind {A B} (m : M A) (k : A -> M B) : M B :=
  fun E w =>
    match m E w with
    | (Return a, w') => k a E w'
    | (Throw e, w') => (Throw e, w')
    end.

(** [try { m } catch (error) { h error }] *)
Definition try_catch {A} (m : M A) (h : Error -> M A) : M A :=
  fun E w =>
    match m E w with
    | (Return a, w') => (Return a, w')
    | (Throw e, w') => h e E w'
    end.

Declare Scope js_scope.
Delimit Scope js_scope with js.
Notation "x <- c1 ;; c2" := (bind c1 (fun x => c2))
  (at level 61, c1 at next level, right associativity) : js_scope.
Notation "c1 ;; c2" := (bind c1 (fun _ => c2))
  (at level 61, right associativity) : js_scope.
Notation "'try' m 'catch' h" := (try_catch m h)
  (at level 60, m at level 200, h at level 9) : js_scope.
Local Open Scope js_scope.

(** [for (const x of xs) { await body(x) }] *)
Fixpoint for_of {A} (xs : list A) (body : A -> M unit) : M unit :=
  match xs with
  | [] => ret tt
  | x :: xs' => body x ;; for_of xs' body
  end.

Definition get_pool : M BrowserPool := fun _ w => (Return (pool w), w).

Definition modify_pool (f : BrowserPool -> BrowserPool) : M unit :=
  fun _ w => (Return tt, set_pool (f (pool w)) w).

Definition get_config : M Config := fun _ w => (Return (config w), w).

(** [new Date()] *)
Definition new_Date : M Z := fun _ w => (Return (clock w), w).

(** [uuidv4()] *)
Definition uuidv4 : M string := fun E w => (Return (uuid E), w).

(** A call on Playwright: recorded, then answered by the engine. *)
Definition engine {A} (c : EngineCall) (answer : Engine -> Answer A) : M A :=
  fun E w =>
    (match answer E with
     | Ok a => Return a
     | Fails e => Throw (Playwright e)
     end,
     mkWorld (config w) (clock w) (pool w) (engineCalls w ++ [c])
       (published w) (sent w)).

(** [this.broadcast(topic, payload)] of the WebSocket server: the envelope
    is stamped with the current time.  Delivery to the subscribed clients
    is not modelled. *)
Definition broadcast (tp : string) (pl : Payload) : M unit :=
  fun _ w =>
    (Return tt,
     mkWorld (config w) (clock w) (pool w) (engineCalls w)
       (published w ++ [mkBroadcast tp pl (clock w)]) (sent w)).

(** [this.sendMessage(clientId, message)] *)
Definition sendMessage (client : ClientId) (msg : WsMessage) : M unit :=
  fun _ w =>
    (Return tt,
     mkWorld (config w) (clock w) (pool w) (engineCalls w) (published w)
       (sent w ++ [(client, msg)])).

(** JavaScript truthiness of an optional string: [undefined], [null] and
    the empty string are falsy. *)
Definition truthy (s : option string) : bool :=
  match s with
  | Some s' => negb (String.eqb s' "")
  | None => false
  end.

(** ** BrowserSession (browser-pool.js)

    A session object lives in [activeSessions] and is reached through its
    key: a method of the session takes the key as its [this], reads the
    object with [deref] and writes its fields with [update_session], so a
    change made through any reference is seen through every other one. *)

(** [new BrowserSession(sessionId, context, createdAt)] *)
Definition new_BrowserSession (sid : SessionId) (ctx : Context) (created : Z)
  : BrowserSession :=
  mkSession sid ctx created created JsMap.empty JsMap.empty.

(** The session object behind a reference, if it is still in the table. *)
Definition deref (this : SessionId) : M (option BrowserSession) :=
  p <- get_pool ;;
  ret (JsMap.get this (activeSessions p)).

(** A write to fields of the session object behind a reference. *)
Definition update_session (this : SessionId)
  (f : BrowserSession -> BrowserSession) : M unit :=
  modify_pool (fun p =>
    match JsMap.get this (activeSessions p) with
    | Some s => set_activeSessions (JsMap.set this (f s) (activeSessions p)) p
    | None => p
    end).

(** [this.lastActivity = new Date()] *)
Definition touch (this : SessionId) : M unit :=
  fun E w =>
    update_session this (set_lastActivity (clock w)) E w.

(** [addPage(page)].  The ['error'] and ['pageerror'] listeners it puts on
    the page only log. *)
Definition addPage (this : SessionId) (page : Page) : M PageId :=
  pageId <- uuidv4 ;;
  update_session this (fun s =>
    set_pages (JsMap.set pageId page (pages s)) s) ;;
  touch this ;;
  ret pageId.

(** [getPage(pageId)] *)
Definition session_getPage (s : BrowserSession) (pageId : PageId)
  : option Page :=
  JsMap.get pageId (pages s).

(** [removePage(pageId)] *)
Definition removePage (this : SessionId) (pageId : PageId) : M bool :=
  s <- deref this ;;
  let removed :=
    match s with Some s' => JsMap.has pageId (pages s') | None => false end in
  update_session this (fun s' =>
    set_pages (JsMap.delete pageId (pages s')) s') ;;
  (if removed then touch this else ret tt) ;;
  ret removed.

(** [close()] *)
Definition session_close (this : SessionId) : M unit :=
  try (
    s <- deref this ;;
    match s with
    | None => ret tt
    | Some s' =>
        for_of (pages s') (fun entry =>
          try (engine (PageClose (snd entry)) (fun E => pageClose E (snd entry)))
          catch (fun _ => ret tt)) ;;
        update_session this (set_pages JsMap.empty) ;;
        engine (ContextClose (context s')) (fun E => contextClose E (context s'))
    end)
  catch (fun _ => ret tt).

(** [isExpired(timeoutSeconds)]: [(now - lastActivity) / 1000 > timeout],
    on integral milliseconds and seconds. *)
Definition isExpired (now timeoutSeconds : Z) (s : BrowserSession) : bool :=
  timeoutSeconds * 1000 <? now - lastActivity s.

(** ** BrowserPool (browser-pool.js) *)

(** [new BrowserPool()], with the configuration it reads. *)
Definition new_BrowserPool (c : Config) : BrowserPool :=
  mkPool (MAX_BROWSERS c) (BROWSER_TIMEOUT c) [] JsMap.empty.

(** [isReady()] *)
Definition isReady (p : BrowserPool) : bool :=
  (0 <? Z.of_nat (List.length (browsers p))) &&
  (JsMap.size (activeSessions p) <? maxBrowsers p).

(** [availableCount()] *)
Definition availableCount (p : BrowserPool) : Z :=
  Z.max 0 (maxBrowsers p - JsMap.size (activeSessions p)).

(** [_launchBrowser()] *)
Definition _launchBrowser : M Browser :=
  try (
    browser <- engine Launch launch ;;
    modify_pool (fun p => set_browsers (browsers p ++ [browser]) p) ;;
    ret browser)
  catch (fun error => throw error).

(** [browsers.indexOf(browser)] followed by [splice(index, 1)]: the first
    occurrence goes, the list is untouched when there is none. *)
Fixpoint remove_first (b : Browser) (bs : list Browser) : list Browser :=
  match bs with
  | [] => []
  | b' :: bs' => if Nat.eqb b b' then bs' else b' :: remove_first b bs'
  end.

(** The handler [_launchBrowser] registers with
    [browser.on('disconnected', ...)]. *)
Definition on_disconnected (browser : Browser) : M unit :=
  modify_pool (fun p => set_browsers (remove_first browser (browsers p)) p).

(** The two copies into [session.metadata] made by [createSession]:
    the entries of [metadata] when it is truthy, then ['user_id'] when
    [userId] is truthy. *)
Definition copy_metadata (userId : option string)
  (md : option (JsMap.t string)) (session : BrowserSession) : BrowserSession :=
  let session :=
    match md with
    | Some entries =>
        fold_left (fun s kv =>
                     set_metadata (JsMap.set (fst kv) (snd kv) (metadata s)) s)
          entries session
    | None => session
    end in
  if truthy userId
  then match userId with
       | Some u => set_metadata (JsMap.set "user_id" u (metadata session)) session
       | None => session
       end
  else session.

(** [createSession(userId = null, metadata = {})].  [None] stands for
    [undefined] and for [null]: the default [{}] has no entry to copy and
    [null] skips the copy, and neither sets ['user_id']. *)
Definition createSession (userId : option string)
  (md : option (JsMap.t string)) : M SessionId :=
  p <- get_pool ;;
  if maxBrowsers p <=? JsMap.size (activeSessions p)
  then throw PoolAtCapacity
  else
    (if Nat.eqb (List.length (browsers p)) 0
     then _launchBrowser ;; ret tt
     else ret tt) ;;
    p' <- get_pool ;;
    try (
      context <- match browsers p' with
                 | browser :: _ =>
                     engine (NewContext browser) (fun E => newContext E browser)
                 | [] => throw (TypeError "browser is undefined")
                 end ;;
      sessionId <- uuidv4 ;;
      now <- new_Date ;;
      let session :=
        copy_metadata userId md (new_BrowserSession sessionId context now) in
      modify_pool (fun q =>
        set_activeSessions (JsMap.set sessionId session (activeSessions q)) q) ;;
      ret sessionId)
    catch (fun error => throw error).

(** [getSession(sessionId)] *)
Definition getSession (sid : SessionId) : M (option BrowserSession) :=
  session <- deref sid ;;
  match session with
  | Some _ =>
      touch sid ;;
      deref sid
  | None => ret None
  end.

(** [closeSession(sessionId)] *)
Definition closeSession (sid : SessionId) : M bool :=
  session <- deref sid ;;
  match session with
  | Some _ =>
      session_close sid ;;
      modify_pool (fun p =>
        set_activeSessions (JsMap.delete sid (activeSessions p)) p) ;;
      ret true
  | None => ret false
  end.

(** [createPage(sessionId, url = null)] *)
Definition createPage (sid : SessionId) (url : option string) : M PageId :=
  session <- getSession sid ;;
  match session with
  | None => throw (SessionNotFound sid)
  | Some s =>
      try (
        page <- engine (NewPage (context s)) (fun E => newPage E (context s)) ;;
        pageId <- addPage sid page ;;
        (if truthy url
         then
           c <- get_config ;;
           let timeout := Some (MAX_PAGE_LOAD_TIME c * 1000) in
           engine (Goto page url timeout) (fun E => goto E page url timeout) ;;
           ret tt
         else ret tt) ;;
        ret pageId)
      catch (fun error => throw error)
  end.

(** [getPage(sessionId, pageId)] *)
Definition getPage (sid : SessionId) (pageId : PageId) : M (option Page) :=
  session <- getSession sid ;;
  ret match session with
      | Some s => session_getPage s pageId
      | None => None
      end.

(** [closePage(sessionId, pageId)] *)
Definition closePage (sid : SessionId) (pageId : PageId) : M bool :=
  session <- getSession sid ;;
  match session with
  | Some s =>
      match session_getPage s pageId with
      | Some page =>
          try (
            engine (PageClose page) (fun E => pageClose E page) ;;
            removePage sid pageId ;;
            ret true)
          catch (fun _ => ret false)
      | None => ret false
      end
  | None => ret false
  end.

(** [_cleanupExpiredSessions()].  The first loop is synchronous: every
    [isExpired] in it reads the same time.  The second loop calls
    [this.closeSession], which is looked up on the pool object when the
    sweep runs, so the function it reaches is a parameter here. *)
Definition _cleanupExpiredSessions (this_closeSession : SessionId -> M bool)
  : M unit :=
  p <- get_pool ;;
  now <- new_Date ;;
  let expiredSessions :=
    map fst (filter (fun entry => isExpired now (browserTimeout p) (snd entry))
               (activeSessions p)) in
  for_of expiredSessions (fun sid => this_closeSession sid ;; ret tt).

(** ** Method interception (index.js, [setupEventBroadcasting])

    Both control planes and the reaper call the pool through
    [this.browserPool.<method>], resolved on the pool object at call time.
    [PoolMethods] is that table of own methods: [prototype_methods] before
    the service is wired, [setupEventBroadcasting prototype_methods]
    afterwards. *)

Record PoolMethods : Type := mkPoolMethods {
  call_createSession : option string -> option (JsMap.t string) -> M SessionId;
  call_closeSession : SessionId -> M bool;
  call_createPage : SessionId -> option string -> M PageId;
  call_closePage : SessionId -> PageId -> M bool
}.

Definition prototype_methods : PoolMethods :=
  mkPoolMethods createSession closeSession createPage closePage.

Definition broadcastSessionCreated (sid : SessionId) (md : JsMap.t string)
  : M unit :=
  broadcast "session.created" (SessionCreated sid md).

Definition broadcastSessionClosed (sid : SessionId) : M unit :=
  broadcast "session.closed" (SessionClosed sid).

Definition broadcastPageCreated (sid : SessionId) (pid : PageId)
  (url : option string) : M unit :=
  broadcast "page.created" (PageCreated sid pid url).

Definition broadcastPageClosed (sid : SessionId) (pid : PageId) : M unit :=
  broadcast "page.closed" (PageClosed sid pid).

Definition setupEventBroadcasting (original : PoolMethods) : PoolMethods :=
  mkPoolMethods
    (fun userId md =>
       sessionId <- call_createSession original userId md ;;
       broadcastSessionCreated sessionId
         (match md with Some m => m | None => JsMap.empty end) ;;
       ret sessionId)
    (fun sessionId =>
       result <- call_closeSession original sessionId ;;
       (if result : bool then broadcastSessionClosed sessionId else ret tt) ;;
       ret result)
    (fun sessionId url =>
       pageId <- call_createPage original sessionId url ;;
       broadcastPageCreated sessionId pageId url ;;
       ret pageId)
    (fun sessionId pageId =>
       result <- call_closePage original sessionId pageId ;;
       (if result : bool then broadcastPageClosed sessionId pageId else ret tt) ;;
       ret result).

(** The pool as the running service sees it. *)
Definition wired : PoolMethods := setupEventBroadcasting prototype_methods.

(** The reaper of the running service: the interval callback
    [() => this._cleanupExpiredSessions()]. *)
Definition reaper_sweep (pm : PoolMethods) : M unit :=
  _cleanupExpiredSessions (call_closeSession pm).

(** [getPage] as JavaScript callers reach it, where either id may be
    [undefined]: no session and no page is stored under [undefined]. *)
Definition js_getPage (sid : option SessionId) (pid : option PageId)
  : M (option Page) :=
  match sid, pid with
  | Some s, Some p => getPage s p
  | Some s, None => getSession s ;; ret None
  | None, _ => ret None
  end.

(** [createPage] as JavaScript callers reach it: under [undefined] no
    session is found, and the template literal prints the id as
    ["undefined"]. *)
Definition js_createPage (pm : PoolMethods) (sid : option SessionId)
  (url : option string) : M PageId :=
  match sid with
  | Some s => call_createPage pm s url
  | None => throw (SessionNotFound "undefined")
  end.

(** ** Event control plane (websocket-server.js) *)

(** The [payload] of a ['browser-action'] message: [action], [sessionId],
    [pageId], and the remaining fields read through [params]. *)
Record ActionPayload : Type := mkActionPayload {
  action : string;
  p_sessionId : option SessionId;
  p_pageId : option PageId;
  p_userId : option string;
  p_metadata : option (JsMap.t string);
  p_url : option string;
  p_selector : option string;
  p_text : option string
}.

(** The [switch (action)] of [handleBrowserAction], which computes
    [result] or throws. *)
Definition browser_action_switch (pm : PoolMethods) (pl : ActionPayload)
  : M ActionValue :=
  if String.eqb (action pl) "create-session" then
    id <- call_createSession pm (p_userId pl) (p_metadata pl) ;;
    ret (IdValue id)
  else if String.eqb (action pl) "create-page" then
    id <- js_createPage pm (p_sessionId pl) (p_url pl) ;;
    ret (IdValue id)
  else if String.eqb (action pl) "navigate" then
    page <- js_getPage (p_sessionId pl) (p_pageId pl) ;;
    match page with
    | Some page' =>
        engine (Goto page' (p_url pl) None)
          (fun E => goto E page' (p_url pl) None) ;;
        ret SuccessValue
    | None => throw PageNotFound
    end
  else if String.eqb (action pl) "click" then
    clickPage <- js_getPage (p_sessionId pl) (p_pageId pl) ;;
    match clickPage with
    | Some page' =>
        engine (Click page' (p_selector pl) None)
          (fun E => click E page' (p_selector pl) None) ;;
        ret SuccessValue
    | None => throw PageNotFound
    end
  else if String.eqb (action pl) "type" then
    typePage <- js_getPage (p_sessionId pl) (p_pageId pl) ;;
    match typePage with
    | Some page' =>
        engine (Fill page' (p_selector pl) (p_text pl) None)
          (fun E => fill E page' (p_selector pl) (p_text pl) None) ;;
        ret SuccessValue
    | None => throw PageNotFound
    end
  else throw (UnknownBrowserAction (action pl)).

(** [handleBrowserAction(clientId, payload)] *)
Definition handleBrowserAction (pm : PoolMethods) (clientId : ClientId)
  (pl : ActionPayload) : M unit :=
  try (
    result <- browser_action_switch pm pl ;;
    sendMessage clientId
      (ActionResult (action pl) (p_sessionId pl) (p_pageId pl) result) ;;
    now <- new_Date ;;
    broadcast (String.append "browser." (action pl))
      (BrowserAction clientId (p_sessionId pl) (p_pageId pl) (action pl) now))
  catch (fun error =>
    sendMessage clientId (ActionFailure (action pl) (message error))).

(** ** Synchronous control plane (grpc-server.js)

    A handler ends by calling [callback] once; the model returns what it
    was called with. *)

Inductive GrpcStatus : Type := RESOURCE_EXHAUSTED | NOT_FOUND | INTERNAL.

Inductive GrpcReply : Type :=
| SessionHandle (session_id : string)
| ReleaseAck (success : bool) (msg : string)
| PageHandle (session_id page_id : string)
| NavigateResponse (success : bool) (final_url title error : string)
| OperationAck (success : bool) (msg : string).

Inductive GrpcResult : Type :=
| GrpcOk (r : GrpcReply)
| GrpcError (code : GrpcStatus) (msg : string).

(** [x || null] on a string field of a request. *)
Definition or_null (s : string) : option string :=
  if String.eqb s "" then None else Some s.

(** [timeout_ms || fallback] *)
Definition or_default (timeout_ms fallback : Z) : Z :=
  if timeout_ms =? 0 then fallback else timeout_ms.

(** [acquire]: request fields [user_id], [metadata]. *)
Definition acquire (pm : PoolMethods) (user_id : string)
  (md : JsMap.t string) : M GrpcResult :=
  try (
    sessionId <- call_createSession pm (or_null user_id) (Some md) ;;
    ret (GrpcOk (SessionHandle sessionId)))
  catch (fun error => ret (GrpcError RESOURCE_EXHAUSTED (message error))).

(** [release]: request field [session_id]. *)
Definition release (pm : PoolMethods) (session_id : string) : M GrpcResult :=
  try (
    success <- call_closeSession pm session_id ;;
    ret (GrpcOk (ReleaseAck success
                   (if success : bool then "Session released"
                    else "Session not found"))))
  catch (fun error => ret (GrpcError INTERNAL (message error))).

(** [createPage]: request fields [session_id], [url]. *)
Definition grpc_createPage (pm : PoolMethods) (session_id url : string)
  : M GrpcResult :=
  try (
    pageId <- call_createPage pm session_id (Some url) ;;
    ret (GrpcOk (PageHandle session_id pageId)))
  catch (fun error => ret (GrpcError INTERNAL (message error))).

(** [navigatePage]: request fields [session_id], [page_id], [url],
    [timeout_ms]. *)
Definition navigatePage (session_id page_id url : string) (timeout_ms : Z)
  : M GrpcResult :=
  try (
    page <- getPage session_id page_id ;;
    match page with
    | None => ret (GrpcError NOT_FOUND "Page not found")
    | Some page' =>
        c <- get_config ;;
        let timeout :=
          Some (or_default timeout_ms (MAX_PAGE_LOAD_TIME c * 1000)) in
        final_url <- engine (Goto page' (Some url) timeout)
                       (fun E => goto E page' (Some url) timeout) ;;
        title' <- engine (PageTitle page') (fun E => title E page') ;;
        ret (GrpcOk (NavigateResponse true final_url title' ""))
    end)
  catch (fun error =>
    ret (GrpcOk (NavigateResponse false "" "" (message error)))).

(** [click]: request fields [session_id], [page_id], [selector],
    [timeout_ms]. *)
Definition grpc_click (session_id page_id selector : string) (timeout_ms : Z)
  : M GrpcResult :=
  try (
    page <- getPage session_id page_id ;;
    match page with
    | None => ret (GrpcError NOT_FOUND "Page not found")
    | Some page' =>
        let timeout := Some (or_default timeout_ms 30000) in
        engine (Click page' (Some selector) timeout)
          (fun E => click E page' (Some selector) timeout) ;;
        ret (GrpcOk (OperationAck true "Click executed"))
    end)
  catch (fun error => ret (GrpcOk (OperationAck false (message error)))).

(** [type]: request fields [session_id], [page_id], [selector], [text],
    [timeout_ms]. *)
Definition grpc_type (session_id page_id selector text : string)
  (timeout_ms : Z) : M GrpcResult :=
  try (
    page <- getPage session_id page_id ;;
    match page with
    | None => ret (GrpcError NOT_FOUND "Page not found")
    | Some page' =>
        let timeout := Some (or_default timeout_ms 30000) in
        engine (Fill page' (Some selector) (Some text) timeout)
          (fun E => fill E page' (Some selector) (Some text) timeout) ;;
        ret (GrpcOk (OperationAck true "Text typed"))
    end)
  catch (fun error => ret (GrpcOk (OperationAck false (message error)))).

(** [closePage]: request fields [session_id], [page_id]. *)
Definition grpc_closePage (pm : PoolMethods) (session_id page_id : string)
  : M GrpcResult :=
  try (
    success <- call_closePage pm session_id page_id ;;
    ret (GrpcOk (OperationAck success
                   (if success : bool then "Page closed" else "Page not found"))))
  catch (fun error => ret (GrpcError INTERNAL (message error))).

Inductive GrpcRequest : Type :=
| Acquire (user_id : string) (md : JsMap.t string)
| Release (session_id : string)
| CreatePage (session_id url : string)
| NavigatePage (session_id page_id url : string) (timeout_ms : Z)
| ClickRequest (session_id page_id selector : string) (timeout_ms : Z)
| TypeRequest (session_id page_id selector text : string) (timeout_ms : Z)
| ClosePage (session_id page_id : string).

Definition grpc (pm : PoolMethods) (r : GrpcRequest) : M GrpcResult :=
  match r with
  | Acquire user_id md => acquire pm user_id md
  | Release session_id => release pm session_id
  | CreatePage session_id url => grpc_createPage pm session_id url
  | NavigatePage session_id page_id url timeout_ms =>
      navigatePage session_id page_id url timeout_ms
  | ClickRequest session_id page_id selector timeout_ms =>
      grpc_click session_id page_id selector timeout_ms
  | TypeRequest session_id page_id selector text timeout_ms =>
      grpc_type session_id page_id selector text timeout_ms
  | ClosePage session_id page_id => grpc_closePage pm session_id page_id
  end.

(** ** Runs of the service *)

(** Time passing between two operations. *)
Definition tick (ms : N) : M unit :=
  fun _ w =>
    (Return tt,
     mkWorld (config w) (clock w + Z.of_N ms) (pool w) (engineCalls w)
       (published w) (sent w)).

(** What can happen to a running pool: a call of one of its methods, an
    event of the engine or of the timer, a request on either plane, or
    time passing. *)
Inductive Op : Type :=
| OpLaunchBrowser
| OpDisconnected (b : Browser)
| OpCreateSession (userId : option string) (md : option (JsMap.t string))
| OpGetSession (sid : SessionId)
| OpCloseSession (sid : SessionId)
| OpCreatePage (sid : SessionId) (url : option string)
| OpGetPage (sid : SessionId) (pid : PageId)
| OpClosePage (sid : SessionId) (pid : PageId)
| OpReaperSweep
| OpBrowserAction (client : ClientId) (pl : ActionPayload)
| OpGrpc (r : GrpcRequest)
| OpTick (ms : N).

Definition discard {A} (m : M A) : M unit := _ <- m ;; ret tt.

Definition exec (pm : PoolMethods) (op : Op) : M unit :=
  match op with
  | OpLaunchBrowser => discard _launchBrowser
  | OpDisconnected b => on_disconnected b
  | OpCreateSession userId md => discard (call_createSession pm userId md)
  | OpGetSession sid => discard (getSession sid)
  | OpCloseSession sid => discard (call_closeSession pm sid)
  | OpCreatePage sid url => discard (call_createPage pm sid url)
  | OpGetPage sid pid => discard (getPage sid pid)
  | OpClosePage sid pid => discard (call_closePage pm sid pid)
  | OpReaperSweep => reaper_sweep pm
  | OpBrowserAction client pl => handleBrowserAction pm client pl
  | OpGrpc r => discard (grpc pm r)
  | OpTick ms => tick ms
  end.

(** One operation, with the engine answers it meets, taken to its end
    before anything else happens; an error it raises goes to its caller
    and the world stays as the operation left it. *)
Definition step (pm : PoolMethods) (E : Engine) (op : Op) (w : World) : World :=
  snd (exec pm op E w).

(** A run of operations in turn: each is over before the next starts.
    Calls that overlap are not runs of this kind; see [overlapped]. *)
Fixpoint run (pm : PoolMethods) (steps : list (Engine * Op)) (w : World)
  : World :=
  match steps with
  | [] => w
  | (E, op) :: rest => run pm rest (step pm E op w)
  end.

(** The world right after [new BrowserPool()], at time [t0]. *)
Definition boot (c : Config) (t0 : Z) : World :=
  mkWorld c t0 (new_BrowserPool c) [] [] [].

Definition sessions (w : World) : JsMap.t BrowserSession :=
  activeSessions (pool w).

Definition activeSessionCount (w : World) : Z := JsMap.size (sessions w).

(** ** Relations between the world before and after an operation *)

(** [m] relates every world it starts in to the world it leaves. *)
Definition preserves (R : World -> World -> Prop) {A : Type} (m : M A) : Prop :=
  forall E w, R w (snd (m E w)).

(** Every method of the service changes the pool through five pieces of
    code only: a write of [pages] in a session, a refresh of
    [lastActivity], a [delete] on the session table, a write of the
    engine list, and [createSession].  A transitive relation that holds
    across these, and across steps that leave pool and clock alone,
    holds across every method. *)
Class PoolRel (R : World -> World -> Prop) : Prop := {
  rel_trans : forall a b c, R a b -> R b c -> R a c;
  rel_frame : forall w w', pool w' = pool w -> clock w' = clock w -> R w w';
  rel_pages : forall sid (g : BrowserSession -> JsMap.t Page),
    preserves R (update_session sid (fun s => set_pages (g s) s));
  rel_touch : forall sid, preserves R (touch sid);
  rel_delete : forall sid,
    preserves R (modify_pool (fun p =>
      set_activeSessions (JsMap.delete sid (activeSessions p)) p));
  rel_browsers : forall g : list Browser -> list Browser,
    preserves R (modify_pool (fun p => set_browsers (g (browsers p)) p));
  rel_createSession : forall userId md, preserves R (createSession userId md)
}.

(** ... and a relation that also holds across time passing. *)
Definition holds_across_ticks (R : World -> World -> Prop) : Prop :=
  forall ms, preserves R (tick ms).

(** The bound of the pool does not change, and a table within the bound
    stays within it. *)
Definition capacity_kept (w w' : World) : Prop :=
  maxBrowsers (pool w') = maxBrowsers (pool w) /\
  (activeSessionCount w <= maxBrowsers (pool w) ->
   activeSessionCount w' <= maxBrowsers (pool w')).

(** The session table keeps the invariant of a [Map]: no key twice. *)
Definition table_kept (w w' : World) : Prop :=
  JsMap.wf (sessions w) -> JsMap.wf (sessions w').

(** No session has been active later than now. *)
Definition activity_bounded (w : World) : Prop :=
  forall sid s, JsMap.get sid (sessions w) = Some s -> lastActivity s <= clock w.

(** The least value [lastActivity] of [sid] can take from [w] on: its
    value in [w], or the time of [w] when [sid] is yet to be created. *)
Definition activity_floor (w : World) (sid : SessionId) : Z :=
  match JsMap.get sid (sessions w) with
  | Some s => lastActivity s
  | None => clock w
  end.

Definition activity_kept (w w' : World) : Prop :=
  activity_bounded w ->
  activity_bounded w' /\
  clock w <= clock w' /\
  forall sid s', JsMap.get sid (sessions w') = Some s' ->
    activity_floor w sid <= lastActivity s'.

(** ** The outcomes of [createSession] below capacity *)

(** The world [createSession] leaves below capacity when the engine gives
    a context: the engine list is [bs], the calls made are [calls]. *)
Definition created (userId : option string) (md : option (JsMap.t string))
  (E : Engine) (ctx : Context) (bs : list Browser) (calls : list EngineCall)
  (w : World) : World :=
  mkWorld (config w) (clock w)
    (mkPool (maxBrowsers (pool w)) (browserTimeout (pool w)) bs
       (JsMap.set (uuid E)
          (copy_metadata userId md (new_BrowserSession (uuid E) ctx (clock w)))
          (sessions w)))
    (engineCalls w ++ calls) (published w) (sent w).

(** The world it leaves when an engine call fails. *)
Definition refused (bs : list Browser) (calls : list EngineCall) (w : World)
  : World :=
  mkWorld (config w) (clock w)
    (mkPool (maxBrowsers (pool w)) (browserTimeout (pool w)) bs (sessions w))
    (engineCalls w ++ calls) (published w) (sent w).

Inductive createSession_outcome (userId : option string)
  (md : option (JsMap.t string)) (E : Engine) (w : World)
  : Completion SessionId * World -> Prop :=
| cs_launch_fails e :
    browsers (pool w) = [] -> launch E = Fails e ->
    createSession_outcome userId md E w
      (Throw (Playwright e), refused [] [Launch] w)
| cs_launched_context_fails b e :
    browsers (pool w) = [] -> launch E = Ok b -> newContext E b = Fails e ->
    createSession_outcome userId md E w
      (Throw (Playwright e), refused [b] [Launch; NewContext b] w)
| cs_launched_created b ctx :
    browsers (pool w) = [] -> launch E = Ok b -> newContext E b = Ok ctx ->
    createSession_outcome userId md E w
      (Return (uuid E), created userId md E ctx [b] [Launch; NewContext b] w)
| cs_context_fails b bs e :
    browsers (pool w) = b :: bs -> newContext E b = Fails e ->
    createSession_outcome userId md E w
      (Throw (Playwright e), refused (b :: bs) [NewContext b] w)
| cs_created b bs ctx :
    browsers (pool w) = b :: bs -> newContext E b = Ok ctx ->
    createSession_outcome userId md E w
      (Return (uuid E), created userId md E ctx (b :: bs) [NewContext b] w).

(** The four interceptable methods of a table all keep [R]. *)
Definition methods_preserve (R : World -> World -> Prop) (pm : PoolMethods)
  : Prop :=
  (forall userId md, preserves R (call_createSession pm userId md)) /\
  (forall sid, preserves R (call_closeSession pm sid)) /\
  (forall sid url, preserves R (call_createPage pm sid url)) /\
  (forall sid pid, preserves R (call_closePage pm sid pid)).

(** The pool as constructed, or as wired by the service. *)
Definition pool_methods (pm : PoolMethods) : Prop :=
  pm = prototype_methods \/ pm = wired.

(** ** Engines and worlds used in examples *)

(** An engine where every call succeeds; [launch] gives browser [b] and
    [uuidv4()] gives [u]. *)
Definition healthy (b : Browser) (u : string) : Engine :=
  mkEngine (Ok b) (fun b' => Ok (100 + b')%nat) (fun c => Ok (200 + c)%nat)
    (fun _ _ _ => Ok "about:blank") (fun _ => Ok "")
    (fun _ _ _ => Ok tt) (fun _ _ _ _ => Ok tt) (fun _ => Ok tt)
    (fun _ => Ok tt) u.

(** [maxBrowsers = 2], the defaults of config.js otherwise. *)
Definition config2 : Config := mkConfig 2 300 60 30 1280 720.

(** Two sessions, "A" and "B", created at time 0 on a pool of two. *)
Definition two_sessions : World := Eval vm_compute in
  run wired
    [(healthy 1%nat "A", OpCreateSession None None);
     (healthy 1%nat "B", OpCreateSession None None)]
    (boot config2 0).

(** The engine [createSession] takes: [this.browsers[0]], after a launch
    when the list is empty. *)
Definition selected_engine (E : Engine) (w : World) : Answer Browser :=
  match browsers (pool w) with
  | b :: _ => Ok b
  | [] => launch E
  end.

(** The session [createSession] registers on context [ctx]. *)
Definition fresh_session (userId : option string)
  (md : option (JsMap.t string)) (E : Engine) (ctx : Context) (w : World)
  : BrowserSession :=
  copy_metadata userId md (new_BrowserSession (uuid E) ctx (clock w)).

(** An engine whose browser has crashed: contexts cannot be created. *)
Definition no_context (u : string) : Engine :=
  mkEngine (Ok 1%nat) (fun _ => Fails (OtherError "Target closed"))
    (fun c => Ok (200 + c)%nat)
    (fun _ _ _ => Ok "about:blank") (fun _ => Ok "")
    (fun _ _ _ => Ok tt) (fun _ _ _ _ => Ok tt) (fun _ => Ok tt)
    (fun _ => Ok tt) u.

(** One session, "A", created at time 0 on a pool of two. *)
Definition one_session : World := Eval vm_compute in
  run wired [(healthy 1%nat "A", OpCreateSession None None)] (boot config2 0).

(** ** The claim of the specification about [createSession], in its words *)

(** "Fails with CapacityExceeded exactly when the active session count
    equals the maximum; otherwise registers a new session and returns
    its id." *)
Definition createSession_as_specified (userId : option string)
  (md : option (JsMap.t string)) (E : Engine) (w : World) : Prop :=
  let r := createSession userId md E w in
  (fst r = Throw PoolAtCapacity <->
   activeSessionCount w = maxBrowsers (pool w)) /\
  (activeSessionCount w <> maxBrowsers (pool w) ->
   exists id, fst r = Return id /\
              JsMap.has id (sessions (snd r)) = true).

(** ** Closing a session *)

(** The engine calls [BrowserSession.close] makes: every page in the
    order of the page table, then the context. *)
Definition close_calls (s : BrowserSession) : list EngineCall :=
  map (fun entry => PageClose (snd entry)) (pages s) ++
  [ContextClose (context s)].

(** The world without session [sid], after the engine calls [calls]. *)
Definition without_session (sid : SessionId) (calls : list EngineCall)
  (w : World) : World :=
  mkWorld (config w) (clock w)
    (mkPool (maxBrowsers (pool w)) (browserTimeout (pool w))
       (browsers (pool w)) (JsMap.delete sid (sessions w)))
    (engineCalls w ++ calls) (published w) (sent w).

(** The world after [broadcast(tp, pl)]. *)
Definition announced (tp : string) (pl : Payload) (w : World) : World :=
  mkWorld (config w) (clock w) (pool w) (engineCalls w)
    (published w ++ [mkBroadcast tp pl (clock w)]) (sent w).

(** A healthy engine whose [newPage] gives page [p]. *)
Definition paging (p : Page) (u : string) : Engine :=
  mkEngine (Ok 1%nat) (fun b' => Ok (100 + b')%nat) (fun _ => Ok p)
    (fun _ _ _ => Ok "about:blank") (fun _ => Ok "")
    (fun _ _ _ => Ok tt) (fun _ _ _ _ => Ok tt) (fun _ => Ok tt)
    (fun _ => Ok tt) u.

(** An engine on which no page and no context can be closed. *)
Definition stuck_close (u : string) : Engine :=
  mkEngine (Ok 1%nat) (fun b' => Ok (100 + b')%nat) (fun c => Ok (200 + c)%nat)
    (fun _ _ _ => Ok "about:blank") (fun _ => Ok "")
    (fun _ _ _ => Ok tt) (fun _ _ _ _ => Ok tt)
    (fun _ => Fails (OtherError "Target page has been closed"))
    (fun _ => Fails (OtherError "Target context has been closed")) u.

(** Session "A" with two pages, "P1" and "P2". *)
Definition two_pages : World := Eval vm_compute in
  run wired
    [(healthy 1%nat "A", OpCreateSession None None);
     (paging 7%nat "P1", OpCreatePage "A" None);
     (paging 8%nat "P2", OpCreatePage "A" (Some "https://example.org/"))]
    (boot config2 0).

(** ** The reaper *)

(** Whether the reaper, running at the time of [w], finds [s] expired. *)
Definition expired_in (w : World) (s : BrowserSession) : bool :=
  isExpired (clock w) (browserTimeout (pool w)) s.

(** The ids the sweep collects in [expiredSessions], in table order. *)
Definition expired_ids (w : World) : list SessionId :=
  map fst (filter (fun entry => expired_in w (snd entry)) (sessions w)).

(** The envelope of a ['session.closed'] broadcast made at time [t]. *)
Definition closed_event (t : Z) (sid : SessionId) : Broadcast :=
  mkBroadcast "session.closed" (SessionClosed sid) t.

(** Sessions "A" and "B" created at time 0; five minutes and a second
    later "B" has just been used and "A" has not. *)
Definition idle_A : World := Eval vm_compute in
  run wired
    [(healthy 1%nat "", OpTick 301000);
     (healthy 1%nat "", OpGetSession "B")]
    two_sessions.

(** ** Engine disconnection *)

(** A pool of two with both of its browsers launched, as [start] leaves
    it, and one session on the first. *)
Definition two_browsers : World := Eval vm_compute in
  run wired
    [(healthy 1%nat "", OpLaunchBrowser);
     (healthy 2%nat "", OpLaunchBrowser);
     (healthy 1%nat "A", OpCreateSession None None)]
    (boot config2 0).

(** The calls to [browserType.launch] among the engine calls. *)
Definition launches (calls : list EngineCall) : nat :=
  List.length (filter (fun c => match c with Launch => true | _ => false end)
                 calls).

(** ** Creating a page *)

(** The session as [getSession] leaves it in world [w]. *)
Definition touched (w : World) (s : BrowserSession) : BrowserSession :=
  set_lastActivity (clock w) s.

(** The session as [addPage(page)] leaves it in world [w], with the id
    taken from [E]. *)
Definition with_page (E : Engine) (w : World) (page : Page)
  (s : BrowserSession) : BrowserSession :=
  set_lastActivity (clock w)
    (set_pages (JsMap.set (uuid E) page (pages s)) s).

(** World [w] with session [sid] replaced by [s] and [calls] made. *)
Definition with_session (sid : SessionId) (s : BrowserSession)
  (calls : list EngineCall) (w : World) : World :=
  mkWorld (config w) (clock w)
    (set_activeSessions (JsMap.set sid s (sessions w)) (pool w))
    (engineCalls w ++ calls) (published w) (sent w).

(** The [timeout] option [createPage] passes to [page.goto]. *)
Definition page_load_timeout (w : World) : option Z :=
  Some (MAX_PAGE_LOAD_TIME (config w) * 1000).

(** An engine whose navigations run into the timeout; [newPage] gives
    page [p]. *)
Definition slow_site (p : Page) (u : string) : Engine :=
  mkEngine (Ok 1%nat) (fun b' => Ok (100 + b')%nat) (fun _ => Ok p)
    (fun _ _ _ => Fails (TimeoutError "Timeout 30000ms exceeded."))
    (fun _ => Ok "")
    (fun _ _ _ => Ok tt) (fun _ _ _ _ => Ok tt) (fun _ => Ok tt)
    (fun _ => Ok tt) u.

(** ** Activity *)

(** After the step from [w] to [w'] session [sid] is in the table with
    [lastActivity] equal to the time of the step. *)
Definition refreshed (sid : SessionId) (w w' : World) : Prop :=
  exists s', JsMap.get sid (sessions w') = Some s' /\
             lastActivity s' = clock w.

(** ** One action, two planes *)

(** The five verbs both planes accept, with the fields a caller gives. *)
Inductive Action : Type :=
| DoCreateSession (user_id : string) (md : JsMap.t string)
| DoCreatePage (sid : SessionId) (url : string)
| DoNavigate (sid : SessionId) (pid : PageId) (url : string)
| DoClick (sid : SessionId) (pid : PageId) (selector : string)
| DoType (sid : SessionId) (pid : PageId) (selector text : string).

(** The action as the payload of a ['browser-action'] message. *)
Definition ws_payload (a : Action) : ActionPayload :=
  match a with
  | DoCreateSession user_id md =>
      mkActionPayload "create-session" None None (Some user_id) (Some md)
        None None None
  | DoCreatePage sid url =>
      mkActionPayload "create-page" (Some sid) None None None (Some url)
        None None
  | DoNavigate sid pid url =>
      mkActionPayload "navigate" (Some sid) (Some pid) None None (Some url)
        None None
  | DoClick sid pid selector =>
      mkActionPayload "click" (Some sid) (Some pid) None None None
        (Some selector) None
  | DoType sid pid selector text =>
      mkActionPayload "type" (Some sid) (Some pid) None None None
        (Some selector) (Some text)
  end.

(** The action as a request of the synchronous plane; [timeout_ms] is
    left unset, which reads as 0. *)
Definition grpc_request (a : Action) : GrpcRequest :=
  match a with
  | DoCreateSession user_id md => Acquire user_id md
  | DoCreatePage sid url => CreatePage sid url
  | DoNavigate sid pid url => NavigatePage sid pid url 0
  | DoClick sid pid selector => ClickRequest sid pid selector 0
  | DoType sid pid selector text => TypeRequest sid pid selector text 0
  end.

Definition via_ws (client : ClientId) (a : Action) : M unit :=
  handleBrowserAction wired client (ws_payload a).

Definition via_grpc (a : Action) : M GrpcResult :=
  grpc wired (grpc_request a).

(** The envelope [handleBrowserAction] broadcasts after an action that
    succeeded, at the time of [w]. *)
Definition action_event (client : ClientId) (a : Action) (w : World)
  : Broadcast :=
  let pl := ws_payload a in
  mkBroadcast (String.append "browser." (action pl))
    (BrowserAction client (p_sessionId pl) (p_pageId pl) (action pl) (clock w))
    (clock w).

(** The specification's wording: the same pool state and the same
    broadcasts whichever plane carries the action. *)
Definition planes_agree (client : ClientId) (a : Action) (E : Engine)
  (w : World) : Prop :=
  pool (snd (via_ws client a E w)) = pool (snd (via_grpc a E w)) /\
  published (snd (via_ws client a E w)) = published (snd (via_grpc a E w)).

(** The time stays as it was. *)
Definition untimed (w w' : World) : Prop := clock w' = clock w.

(** The ['disconnected'] events of the browsers [bs], one after the
    other. *)
Definition disconnections (E : Engine) (bs : list Browser)
  : list (Engine * Op) :=
  map (fun b => (E, OpDisconnected b)) bs.

(** ** Statistics and health (browser-pool.js) *)

(** What [BrowserSession.getStats()] returns; the two dates are kept as
    times instead of their ISO strings. *)
Record SessionStats : Type := mkSessionStats {
  stat_sessionId : SessionId;
  stat_createdAt : Z;
  stat_lastActivity : Z;
  pageCount : Z;
  stat_metadata : JsMap.t string
}.

(** [BrowserSession.getStats()] *)
Definition session_getStats (s : BrowserSession) : SessionStats :=
  mkSessionStats (sessionId s) (createdAt s) (lastActivity s)
    (JsMap.size (pages s)) (metadata s).

(** What [BrowserPool.getStats()] returns. *)
Record PoolStats : Type := mkPoolStats {
  totalBrowsers : Z;
  stat_activeSessions : Z;
  availableSlots : Z;
  uptimeSeconds : Z;
  sessionStats : list SessionStats
}.

(** [BrowserPool.getStats()]; [startTime] is the time the constructor
    stored in [this.startTime]. *)
Definition getStats (startTime : Z) : M PoolStats :=
  now <- new_Date ;;
  p <- get_pool ;;
  ret (mkPoolStats
         (Z.of_nat (List.length (browsers p)))
         (JsMap.size (activeSessions p))
         (availableCount p)
         ((now - startTime) / 1000)
         (map session_getStats (JsMap.values (activeSessions p)))).

(** What [getHealthStatus()] returns: [ready], [status] and the spread
    statistics. *)
Record HealthStatus : Type := mkHealthStatus {
  ready : bool;
  status : string;
  health_stats : PoolStats
}.

(** [BrowserPool.getHealthStatus()] *)
Definition getHealthStatus (startTime : Z) : M HealthStatus :=
  stats <- getStats startTime ;;
  p <- get_pool ;;
  ret (mkHealthStatus (isReady p)
         (if isReady p then "healthy" else "degraded") stats).

(** ** Informational handlers of the synchronous plane (grpc-server.js) *)

Inductive GrpcInfo : Type :=
| SessionInfo (session_id : string) (created_at last_activity : Z)
    (page_ids : list PageId) (md : JsMap.t string)
| PoolStatsReply (total_browsers active_sessions available_slots : Z)
    (session_stats : list SessionStats)
| HealthReply (is_ready : bool) (health : string) (uptime_seconds : Z)
| InfoError (code : GrpcStatus) (msg : string).

(** [getSession]: request field [session_id]. *)
Definition grpc_getSession (session_id : string) : M GrpcInfo :=
  try (
    session <- getSession session_id ;;
    match session with
    | None => ret (InfoError NOT_FOUND "Session not found")
    | Some s =>
        ret (SessionInfo (sessionId s) (createdAt s) (lastActivity s)
               (JsMap.keys (pages s)) (metadata s))
    end)
  catch (fun error => ret (InfoError INTERNAL (message error))).

(** [getStats] *)
Definition grpc_getStats (startTime : Z) : M GrpcInfo :=
  try (
    stats <- getStats startTime ;;
    ret (PoolStatsReply (totalBrowsers stats) (stat_activeSessions stats)
           (availableSlots stats) (sessionStats stats)))
  catch (fun error => ret (InfoError INTERNAL (message error))).

(** [healthCheck] *)
Definition grpc_healthCheck (startTime : Z) : M GrpcInfo :=
  try (
    health <- getHealthStatus startTime ;;
    ret (HealthReply (ready health) (status health)
           (uptimeSeconds (health_stats health))))
  catch (fun error => ret (InfoError INTERNAL (message error))).

(** The page [getPage(sid, pid)] finds in world [w]. *)
Definition page_of (w : World) (sid : SessionId) (pid : PageId)
  : option Page :=
  match JsMap.get sid (sessions w) with
  | Some s => JsMap.get pid (pages s)
  | None => None
  end.

(** The five verbs [handleBrowserAction] knows. *)
Definition known_action (a : string) : bool :=
  String.eqb a "create-session" || String.eqb a "create-page" ||
  String.eqb a "navigate" || String.eqb a "click" || String.eqb a "type".

(** ** The client table of the event plane (websocket-server.js)

    [sendMessage] and [broadcast] above record that the call was made.
    This part models what the calls do to the connected clients: the
    table [clients], the subscriptions, the liveness bookkeeping and the
    frames handed to each socket.  The socket itself belongs to the [ws]
    library: its [readyState] is read, never written, and every [send]
    and [close] on it is recorded. *)

(** JavaScript [Set] of strings: insertion order, no element twice. *)
Module JsSet.

Definition t := list string.

Definition empty : t := [].

Definition has (k : string) (s : t) : bool := existsb (String.eqb k) s.

Definition add (k : string) (s : t) : t := if has k s then s else s ++ [k].

Definition delete (k : string) (s : t) : t :=
  filter (fun k' => negb (String.eqb k k')) s.

Definition size (s : t) : Z := Z.of_nat (List.length s).

End JsSet.

Module Ws.

Inductive ReadyState : Type := CONNECTING | OPEN | CLOSING | CLOSED.

(** The messages the server sends, by [type]. *)
Inductive ServerMessage : Type :=
| Connection (clientId : ClientId) (serverTime : Z)
| Pong (timestamp : Z)
| Subscribed (topics : list string) (totalSubscriptions : Z)
| Unsubscribed (topics : list string) (totalSubscriptions : Z)
| ErrorMessage (msg : string)
| Heartbeat (timestamp : Z)
| Stats (stats : PoolStats)
| BroadcastMessage (b : Broadcast)
| ActionReply (m : WsMessage).

(** A socket of the [ws] library, as the server sees it: the state it
    reads, and the calls it has made on it. *)
Record Socket : Type := mkSocket {
  readyState : ReadyState;
  sends : list ServerMessage;          (* ws.send(JSON.stringify(m)) *)
  closes : list (Z * string)           (* ws.close(code, reason) *)
}.

(** An entry of [this.clients]; [metadata] is always the empty object and
    is left out. *)
Record Client : Type := mkClient {
  ws : Socket;
  subscriptions : JsSet.t;
  lastPing : Z
}.

(** The server: the client table, and the clients whose heartbeat
    interval is running. *)
Record Server : Type := mkServer {
  clients : JsMap.t Client;
  heartbeats : list ClientId
}.

Definition is_open (st : ReadyState) : bool :=
  match st with OPEN => true | _ => false end.

(** [clearInterval] of one running heartbeat of [clientId]. *)
Fixpoint clear_heartbeat (clientId : ClientId) (hs : list ClientId)
  : list ClientId :=
  match hs with
  | [] => []
  | k :: hs' =>
      if String.eqb clientId k then hs' else k :: clear_heartbeat clientId hs'
  end.

Definition socket_send (m : ServerMessage) (s : Socket) : Socket :=
  mkSocket (readyState s) (sends s ++ [m]) (closes s).

Definition socket_close (code : Z) (reason : string) (s : Socket) : Socket :=
  mkSocket (readyState s) (sends s) (closes s ++ [(code, reason)]).

Definition set_clients (cs : JsMap.t Client) (srv : Server) : Server :=
  mkServer cs (heartbeats srv).

(** A write to the client object stored under [clientId]. *)
Definition update_client (clientId : ClientId) (f : Client -> Client)
  (srv : Server) : Server :=
  match JsMap.get clientId (clients srv) with
  | Some c => set_clients (JsMap.set clientId (f c) (clients srv)) srv
  | None => srv
  end.

(** [sendMessage(clientId, message)]: only to a client that is in the
    table and whose socket is OPEN; an exception of [send] is caught. *)
Definition sendMessage (clientId : ClientId) (m : ServerMessage)
  (srv : Server) : Server :=
  match JsMap.get clientId (clients srv) with
  | Some c =>
      if is_open (readyState (ws c))
      then update_client clientId
             (fun c' => mkClient (socket_send m (ws c')) (subscriptions c')
                          (lastPing c')) srv
      else srv
  | None => srv
  end.

(** [sendError(clientId, errorMessage)] *)
Definition sendError (clientId : ClientId) (msg : string) (srv : Server)
  : Server :=
  sendMessage clientId (ErrorMessage msg) srv.

(** [handleConnection(ws, request)]: [clientId] is what
    [generateClientId()] returned, [now] the current time. *)
Definition handleConnection (clientId : ClientId) (socket : Socket) (now : Z)
  (srv : Server) : Server :=
  let srv1 :=
    set_clients (JsMap.set clientId (mkClient socket JsSet.empty now)
                   (clients srv)) srv in
  let srv2 := sendMessage clientId (Connection clientId now) srv1 in
  mkServer (clients srv2) (heartbeats srv2 ++ [clientId]).

(** [handleDisconnection(clientId, code, reason)] *)
Definition handleDisconnection (clientId : ClientId) (srv : Server) : Server :=
  match JsMap.get clientId (clients srv) with
  | Some _ => set_clients (JsMap.delete clientId (clients srv)) srv
  | None => srv
  end.

(** [handlePing(clientId)] *)
Definition handlePing (clientId : ClientId) (now : Z) (srv : Server) : Server :=
  match JsMap.get clientId (clients srv) with
  | Some _ =>
      sendMessage clientId (Pong now)
        (update_client clientId
           (fun c => mkClient (ws c) (subscriptions c) now) srv)
  | None => srv
  end.

(** [handleSubscribe(clientId, payload)]; [topics] is [None] when
    [payload.topics] is not an array. *)
Definition handleSubscribe (clientId : ClientId) (topics : option (list string))
  (srv : Server) : Server :=
  match JsMap.get clientId (clients srv) with
  | None => srv
  | Some _ =>
      match topics with
      | None => sendError clientId "Topics must be an array" srv
      | Some ts =>
          let srv1 :=
            update_client clientId
              (fun c => mkClient (ws c)
                          (fold_left (fun s t => JsSet.add t s) ts
                             (subscriptions c))
                          (lastPing c)) srv in
          match JsMap.get clientId (clients srv1) with
          | Some c =>
              sendMessage clientId
                (Subscribed ts (JsSet.size (subscriptions c))) srv1
          | None => srv1
          end
      end
  end.

(** [handleUnsubscribe(clientId, payload)] *)
Definition handleUnsubscribe (clientId : ClientId)
  (topics : option (list string)) (srv : Server) : Server :=
  match JsMap.get clientId (clients srv) with
  | None => srv
  | Some _ =>
      match topics with
      | None => sendError clientId "Topics must be an array" srv
      | Some ts =>
          let srv1 :=
            update_client clientId
              (fun c => mkClient (ws c)
                          (fold_left (fun s t => JsSet.delete t s) ts
                             (subscriptions c))
                          (lastPing c)) srv in
          match JsMap.get clientId (clients srv1) with
          | Some c =>
              sendMessage clientId
                (Unsubscribed ts (JsSet.size (subscriptions c))) srv1
          | None => srv1
          end
      end
  end.

(** Whether [broadcast] picks a client for [topic]: an exact match, or
    the wildcard. *)
Definition subscribed (tp : string) (c : Client) : bool :=
  JsSet.has tp (subscriptions c) || JsSet.has "*" (subscriptions c).

(** [broadcast(topic, payload)], for the envelope [b] it has built. *)
Definition broadcast (b : Broadcast) (srv : Server) : Server :=
  fold_left
    (fun srv' entry =>
       if subscribed (topic b) (snd entry)
       then sendMessage (fst entry) (BroadcastMessage b) srv'
       else srv')
    (clients srv) srv.

(** One firing of the interval [setupHeartbeat(clientId)] started, at
    time [now]. *)
Definition heartbeat (clientId : ClientId) (now : Z) (srv : Server) : Server :=
  if existsb (String.eqb clientId) (heartbeats srv) then
    match JsMap.get clientId (clients srv) with
    | None => mkServer (clients srv) (clear_heartbeat clientId (heartbeats srv))
    | Some c =>
        if 60000 <? now - lastPing c
        then
          mkServer
            (clients
               (update_client clientId
                  (fun c' =>
                     mkClient (socket_close 1001 "No heartbeat response" (ws c'))
                       (subscriptions c') (lastPing c')) srv))
            (clear_heartbeat clientId (heartbeats srv))
        else sendMessage clientId (Heartbeat now) srv
    end
  else srv.

(** The client loop of [stop()]: every socket is told to close, then the
    table is cleared.  The sockets that got the call are returned with
    the server, since they leave the table. *)
Definition stop (srv : Server) : list (ClientId * Socket) * Server :=
  (map (fun entry =>
          (fst entry, socket_close 1012 "Server shutting down" (ws (snd entry))))
     (clients srv),
   set_clients JsMap.empty srv).

(** [getConnectedClients()] *)
Definition getConnectedClients (srv : Server)
  : Z * list (ClientId * list string * Z) :=
  (JsMap.size (clients srv),
   map (fun entry =>
          (fst entry, subscriptions (snd entry), lastPing (snd entry)))
     (clients srv)).

(** A parsed message of a client, by [type]; a payload is [None] when the
    message has none. *)
Inductive ClientMessage : Type :=
| Ping
| Subscribe (payload : option (option (list string)))
| Unsubscribe (payload : option (option (list string)))
| BrowserActionMessage (payload : option ActionPayload)
| GetStats
| Other (type : string).

(** What [handleMessage] leaves to the handlers that need the pool. *)
Inductive Dispatch : Type :=
| Done (srv : Server)
| ToBrowserAction (clientId : ClientId) (payload : option ActionPayload)
| ToGetStats (clientId : ClientId).

(** [handleMessage(clientId, rawData)]: [message] is [None] when
    [JSON.parse] throws or gives [null].  The handlers of the client table run here; a
    missing payload makes the destructuring in [handleSubscribe] and
    [handleUnsubscribe] throw, which the [catch] answers. *)
Definition handleMessage (clientId : ClientId) (message : option ClientMessage)
  (now : Z) (srv : Server) : Dispatch :=
  match JsMap.get clientId (clients srv) with
  | None => Done srv
  | Some _ =>
      match message with
      | None => Done (sendError clientId "Invalid message format" srv)
      | Some Ping => Done (handlePing clientId now srv)
      | Some (Subscribe (Some topics)) =>
          Done (handleSubscribe clientId topics srv)
      | Some (Subscribe None) =>
          Done (sendError clientId "Invalid message format" srv)
      | Some (Unsubscribe (Some topics)) =>
          Done (handleUnsubscribe clientId topics srv)
      | Some (Unsubscribe None) =>
          Done (sendError clientId "Invalid message format" srv)
      | Some (BrowserActionMessage payload) =>
          ToBrowserAction clientId payload
      | Some GetStats => ToGetStats clientId
      | Some (Other type) =>
          Done (sendError clientId
                  (String.append "Unknown message type: " type) srv)
      end
  end.

End Ws.

(** The client after [broadcast] has considered it for envelope [b]. *)
Definition delivered (b : Broadcast) (c : Ws.Client) : Ws.Client :=
  if Ws.subscribed (topic b) c && Ws.is_open (Ws.readyState (Ws.ws c))
  then Ws.mkClient (Ws.socket_send (Ws.BroadcastMessage b) (Ws.ws c))
         (Ws.subscriptions c) (Ws.lastPing c)
  else c.

(** The client after [sendMessage] has tried to send it [m]. *)
Definition messaged (m : Ws.ServerMessage) (c : Ws.Client) : Ws.Client :=
  if Ws.is_open (Ws.readyState (Ws.ws c))
  then Ws.mkClient (Ws.socket_send m (Ws.ws c)) (Ws.subscriptions c)
         (Ws.lastPing c)
  else c.

(** A client with an open socket and the given subscriptions. *)
Definition listener (subs : list string) : Ws.Client :=
  Ws.mkClient (Ws.mkSocket Ws.OPEN [] []) subs 0.

(** Three clients: one subscribed to "session.closed", one to the
    wildcard, one to the pattern "session.*". *)
Definition three_listeners : Ws.Server :=
  Ws.mkServer
    [("c1", listener ["session.closed"]);
     ("c2", listener ["*"]);
     ("c3", listener ["session.*"])]
    ["c1"; "c2"; "c3"].

(** ** Shutdown of the pool (browser-pool.js) *)

(** [stop()] starts [session.close()] on every session before it awaits
    any of them, so the closes of different sessions run interleaved:
    each one gives up control at every [await] and goes on when the
    engine has settled the call it waits for. *)

(** What is left of one [session.close()] that is suspended at an
    [await]: the pages whose [close] has not been called yet, and the
    context. *)
Record Closing : Type := mkClosing {
  closing_session : SessionId;
  closing_pages : list Page;
  closing_context : Context
}.

(** [session.close()] from where it stands to its next [await]: the
    [close] of the next page or, when no page is left,
    [this.pages.clear()] and the [close] of the context.  What the
    awaited call answers is caught either way.  [None] says that the
    [close] of the context has been called: nothing is left to do. *)
Definition close_next (t : Closing) : M (option Closing) :=
  match closing_pages t with
  | page :: rest =>
      try (engine (PageClose page) (fun E => pageClose E page))
      catch (fun _ => ret tt) ;;
      ret (Some (mkClosing (closing_session t) rest (closing_context t)))
  | [] =>
      update_session (closing_session t) (set_pages JsMap.empty) ;;
      try (engine (ContextClose (closing_context t))
             (fun E => contextClose E (closing_context t)))
      catch (fun _ => ret tt) ;;
      ret None
  end.

(** The first loop of [stop()]: [session.close()] is called on every
    session of the table in turn, and each runs to its first [await]. *)
Fixpoint start_closing (entries : list (SessionId * BrowserSession))
  : M (list Closing) :=
  match entries with
  | [] => ret []
  | entry :: rest =>
      r <- close_next (mkClosing (fst entry) (JsMap.values (pages (snd entry)))
                         (context (snd entry))) ;;
      ts <- start_closing rest ;;
      ret (match r with Some t => t :: ts | None => ts end)
  end.

(** The engine settles the call the close of session [sid] waits for:
    that close, if it is still suspended, runs to its next [await]. *)
Fixpoint resume_closing (sid : SessionId) (ts : list Closing)
  : M (list Closing) :=
  match ts with
  | [] => ret []
  | t :: rest =>
      if String.eqb sid (closing_session t)
      then
        r <- close_next t ;;
        ret (match r with Some t' => t' :: rest | None => rest end)
      else
        rest' <- resume_closing sid rest ;;
        ret (t :: rest')
  end.

Fixpoint resume_all (settled : list SessionId) (ts : list Closing)
  : M (list Closing) :=
  match settled with
  | [] => ret ts
  | sid :: rest =>
      ts' <- resume_closing sid ts ;;
      resume_all rest ts'
  end.

(** A suspended close runs to its end with nothing in between. *)
Fixpoint finish_closing (sid : SessionId) (ps : list Page) (ctx : Context)
  : M unit :=
  close_next (mkClosing sid ps ctx) ;;
  match ps with
  | [] => ret tt
  | _ :: rest => finish_closing sid rest ctx
  end.

(** [stop()].  The cleanup timer is not part of the world.  The loop
    calls [session.close()] on the session objects themselves, not
    [this.closeSession].  [settled] is the order in which the engine
    settles the awaited [close] calls, each entry naming the session
    whose close goes on next; [Promise.allSettled] waits for every
    close, so those still suspended when [settled] runs out are
    completed, and no close rejects.  [browser.close()] is awaited
    inside a [try] whose [catch] only logs: the answer to it is never
    read, and the browsers that got the call are what this definition
    returns. *)
Definition stop (settled : list SessionId) : M (list Browser) :=
  p <- get_pool ;;
  started <- start_closing (activeSessions p) ;;
  pending <- resume_all settled started ;;
  for_of pending (fun t =>
    finish_closing (closing_session t) (closing_pages t) (closing_context t)) ;;
  modify_pool (set_activeSessions JsMap.empty) ;;
  p' <- get_pool ;;
  modify_pool (set_browsers []) ;;
  ret (browsers p').

(** The engine calls a suspended close has still to make. *)
Definition remaining_calls (t : Closing) : list EngineCall :=
  map PageClose (closing_pages t) ++ [ContextClose (closing_context t)].

(** From [w] to [w'] the engine calls [calls] were made, and nothing
    changed but the session table. *)
Definition made_calls (calls : list EngineCall) (w w' : World) : Prop :=
  config w' = config w /\
  clock w' = clock w /\
  published w' = published w /\
  sent w' = sent w /\
  browsers (pool w') = browsers (pool w) /\
  maxBrowsers (pool w') = maxBrowsers (pool w) /\
  browserTimeout (pool w') = browserTimeout (pool w) /\
  engineCalls w' = engineCalls w ++ calls.

(** Session "A" with pages 7 and 8 and session "B" with page 9, on a
    pool of two. *)
Definition two_busy_sessions : World :=
  mkWorld config2 0
    (mkPool 2 300 [1%nat]
       [("A", mkSession "A" 101%nat 0 0 [("P1", 7%nat); ("P2", 8%nat)] []);
        ("B", mkSession "B" 102%nat 0 0 [("P3", 9%nat)] [])])
    [] [] [].

(** [two_pages], five milliseconds later. *)
Definition two_pages_later : World := Eval vm_compute in
  run wired [(healthy 1%nat "", OpTick 5)] two_pages.

(** The messages [handleMessage] answers from the client table alone: a
    ping, a subscription, an unsubscription, a message of a type it does
    not know and one that does not parse.  A [browser-action] and a
    [get-stats] message go to the handlers that work on the pool. *)
Definition table_message (msg : option Ws.ClientMessage) : bool :=
  match msg with
  | Some (Ws.BrowserActionMessage _) => false
  | Some Ws.GetStats => false
  | _ => true
  end.

(** What is left of a close after its next stretch. *)
Definition closing_rest (t : Closing) : option Closing :=
  match closing_pages t with
  | _ :: rest => Some (mkClosing (closing_session t) rest (closing_context t))
  | [] => None
  end.

(** ** Calls that overlap (browser-pool.js, [createSession])

    [run] takes every operation to its end before the next one starts.
    An [async] method gives up control at each [await], and another call
    may run before it goes on.  For [createSession] the stretches
    between its [await]s are modelled one by one, so that calls can be
    interleaved. *)

(** A call on Playwright is made: it is recorded, and what the engine
    will settle it with is kept for the [await]. *)
Definition engine_call {A} (c : EngineCall) (answer : Engine -> Answer A)
  : M (Answer A) :=
  fun E w =>
    (Return (answer E),
     mkWorld (config w) (clock w) (pool w) (engineCalls w ++ [c])
       (published w) (sent w)).

(** The [await] goes on: with the value, or with the error thrown. *)
Definition settle {A} (answer : Answer A) : M A :=
  fun _ w =>
    (match answer with
     | Ok a => Return a
     | Fails e => Throw (Playwright e)
     end, w).

(** A [createSession] call in flight: suspended at the [await] of
    [_launchBrowser] (inside it, at [browserType.launch]), suspended at
    the [await] of [browser.newContext], or over, with its outcome. *)
Inductive Call : Type :=
| AwaitLaunch (userId : option string) (md : option (JsMap.t string))
    (answer : Answer Browser)
| AwaitNewContext (userId : option string) (md : option (JsMap.t string))
    (answer : Answer Context)
| Over (outcome : Completion SessionId).

(** A stretch that throws ends the call: its promise is rejected. *)
Definition stretch (m : M Call) : M Call :=
  try m catch (fun error => ret (Over (Throw error))).

(** [const browser = this.browsers[0]] and the call of [newContext], up
    to its [await]. *)
Definition createSession_newContext (userId : option string)
  (md : option (JsMap.t string)) : M Call :=
  p <- get_pool ;;
  try (
    match browsers p with
    | browser :: _ =>
        answer <- engine_call (NewContext browser)
                    (fun E => newContext E browser) ;;
        ret (AwaitNewContext userId md answer)
    | [] => throw (TypeError "browser is undefined")
    end)
  catch (fun error => throw error).

(** [createSession] from its start to its first [await]: the capacity
    test, then the launch when there is no browser, or else the call of
    [newContext]. *)
Definition createSession_start (userId : option string)
  (md : option (JsMap.t string)) : M Call :=
  stretch (
    p <- get_pool ;;
    if maxBrowsers p <=? JsMap.size (activeSessions p)
    then throw PoolAtCapacity
    else
      if Nat.eqb (List.length (browsers p)) 0
      then
        answer <- engine_call Launch launch ;;
        ret (AwaitLaunch userId md answer)
      else createSession_newContext userId md).

(** [createSession] from the [await] it is suspended at to the next one,
    or to its end. *)
Definition createSession_resume (c : Call) : M Call :=
  match c with
  | AwaitLaunch userId md answer =>
      stretch (
        try (
          browser <- settle answer ;;
          modify_pool (fun p => set_browsers (browsers p ++ [browser]) p) ;;
          ret browser)
        catch (fun error => throw error) ;;
        createSession_newContext userId md)
  | AwaitNewContext userId md answer =>
      stretch (
        try (
          context <- settle answer ;;
          sessionId <- uuidv4 ;;
          now <- new_Date ;;
          let session :=
            copy_metadata userId md
              (new_BrowserSession sessionId context now) in
          modify_pool (fun q =>
            set_activeSessions
              (JsMap.set sessionId session (activeSessions q)) q) ;;
          ret (Over (Return sessionId)))
        catch (fun error => throw error))
  | Over outcome => ret (Over outcome)
  end.

(** What happens while calls are in flight: a new call of
    [createSession] starts, or the engine settles what the [i]-th call
    made so far waits for. *)
Inductive Event : Type :=
| NewCall (userId : option string) (md : option (JsMap.t string))
| Settled (i : nat).

Definition set_call (i : nat) (c : Call) (calls : list Call) : list Call :=
  firstn i calls ++ c :: skipn (S i) calls.

(** One event, on the world and the calls made so far. *)
Definition overlap_step (E : Engine) (ev : Event) (st : World * list Call)
  : World * list Call :=
  match ev with
  | NewCall userId md =>
      match createSession_start userId md E (fst st) with
      | (Return c, w') => (w', snd st ++ [c])
      | (Throw e, w') => (w', snd st ++ [Over (Throw e)])
      end
  | Settled i =>
      match nth_error (snd st) i with
      | Some c =>
          match createSession_resume c E (fst st) with
          | (Return c', w') => (w', set_call i c' (snd st))
          | (Throw e, w') => (w', set_call i (Over (Throw e)) (snd st))
          end
      | None => st
      end
  end.

Fixpoint overlapped (events : list (Engine * Event)) (st : World * list Call)
  : World * list Call :=
  match events with
  | [] => st
  | (E, ev) :: rest => overlapped rest (overlap_step E ev st)
  end.

(** An engine that answers [newContext] with [ctx]. *)
Definition granting (ctx : Context) (u : string) : Engine :=
  mkEngine (Ok 1%nat) (fun _ => Ok ctx) (fun c => Ok (200 + c)%nat)
    (fun _ _ _ => Ok "about:blank") (fun _ => Ok "")
    (fun _ _ _ => Ok tt) (fun _ _ _ _ => Ok tt) (fun _ => Ok tt)
    (fun _ => Ok tt) u.

(** A pool of two as [start()] leaves it: both browsers launched, no
    session. *)
Definition pool_started : World := Eval vm_compute in
  run wired
    [(healthy 1%nat "", OpLaunchBrowser);
     (healthy 2%nat "", OpLaunchBrowser)]
    (boot config2 0).

(** Three calls of [createSession] that overlap: each passes the
    capacity test before any of them has registered its session. *)
Definition three_overlapping : list (Engine * Event) :=
  [(granting 101%nat "", NewCall None None);
   (granting 102%nat "", NewCall None None);
   (granting 103%nat "", NewCall None None);
   (healthy 1%nat "A", Settled 0%nat);
   (healthy 1%nat "B", Settled 1%nat);
   (healthy 1%nat "C", Settled 2%nat)].

(** The same three calls, each over before the next starts. *)
Definition three_in_turn : list (Engine * Event) :=
  [(granting 101%nat "", NewCall None None);
   (healthy 1%nat "A", Settled 0%nat);
   (granting 102%nat "", NewCall None None);
   (healthy 1%nat "B", Settled 1%nat);
   (granting 103%nat "", NewCall None None);
   (healthy 1%nat "C", Settled 2%nat)].

(** [two_pages], five minutes and a second later: session "A" has
    expired with its two pages open. *)
Definition two_pages_idle : World := Eval vm_compute in
  run wired [(healthy 1%nat "", OpTick 301000)] two_pages.

(** * Properties *)

(** ** Facts about [JsMap] *)

Module JsMapFacts.
Import JsMap.

Section Facts.
Context {V : Type}.
Implicit Types (m : JsMap.t V) (k : string) (v : V).

Lemma get_set_same k v m : get k (set k v m) = Some v.
Proof.
  induction m as [|[k' v'] m IH]; simpl.
  - now rewrite String.eqb_refl.
  - destruct (String.eqb k k') eqn:Hk; simpl; rewrite ?Hk, ?String.eqb_refl;
      auto.
Qed.

Lemma get_set_other k k' v m : k <> k' -> get k' (set k v m) = get k' m.
Proof.
  intros Hne. induction m as [|[k0 v0] m IH]; simpl.
  - destruct (String.eqb_spec k' k); congruence.
  - destruct (String.eqb_spec k k0) as [->|Hk]; simpl.
    + destruct (String.eqb_spec k' k0); congruence.
    + now rewrite IH.
Qed.

Lemma get_delete_same k m : get k (delete k m) = None.
Proof.
  induction m as [|[k' v'] m IH]; simpl; auto.
  destruct (String.eqb k k') eqn:Hk; simpl; rewrite ?Hk; auto.
Qed.

Lemma get_delete_other k k' m : k <> k' -> get k' (delete k m) = get k' m.
Proof.
  intros Hne. induction m as [|[k0 v0] m IH]; simpl; auto.
  destruct (String.eqb_spec k k0) as [->|Hk]; simpl.
  - destruct (String.eqb_spec k' k0); congruence.
  - now rewrite IH.
Qed.

Lemma get_none_keys k m : get k m = None <-> ~ In k (keys m).
Proof.
  induction m as [|[k' v'] m IH]; simpl.
  - tauto.
  - destruct (String.eqb_spec k k') as [->|Hk].
    + split; [discriminate | intros H; exfalso; apply H; now left].
    + rewrite IH. split; [intros H [Heq|Hin]; congruence | tauto].
Qed.

Lemma get_some_in k v m : get k m = Some v -> In (k, v) m.
Proof.
  induction m as [|[k' v'] m IH]; simpl; [discriminate|].
  destruct (String.eqb_spec k k') as [->|Hk].
  - intros [= ->]. now left.
  - intros H. right. auto.
Qed.

Lemma in_get k v m : wf m -> In (k, v) m -> get k m = Some v.
Proof.
  unfold wf, keys.
  induction m as [|[k' v'] m IH]; simpl; [tauto|].
  intros Hnd [Heq|Hin]; inversion Hnd as [|? ? Hnotin Hnd']; subst.
  - injection Heq as -> ->. now rewrite String.eqb_refl.
  - destruct (String.eqb_spec k k') as [->|Hk]; auto.
    exfalso. apply Hnotin. change k' with (fst (k', v)). now apply in_map.
Qed.

Lemma length_set_present k v v' m :
  get k m = Some v' -> List.length (set k v m) = List.length m.
Proof.
  induction m as [|[k0 v0] m IH]; simpl; [discriminate|].
  destruct (String.eqb k k0); simpl; auto.
Qed.

Lemma length_set_absent k v m :
  get k m = None -> List.length (set k v m) = S (List.length m).
Proof.
  induction m as [|[k0 v0] m IH]; simpl; auto.
  destruct (String.eqb k k0); simpl; [discriminate | auto].
Qed.

Lemma length_set_le k v m : (List.length (set k v m) <= S (List.length m))%nat.
Proof.
  destruct (get k m) eqn:Hg.
  - rewrite (length_set_present _ _ _ _ Hg). lia.
  - rewrite (length_set_absent _ _ _ Hg). lia.
Qed.

Lemma length_delete_le k m : (List.length (delete k m) <= List.length m)%nat.
Proof.
  induction m as [|[k0 v0] m IH]; simpl; auto.
  destruct (String.eqb k k0); simpl; lia.
Qed.

Lemma keys_set_present k v v' m :
  get k m = Some v' -> keys (set k v m) = keys m.
Proof.
  unfold keys.
  induction m as [|[k0 v0] m IH]; simpl; [discriminate|].
  destruct (String.eqb_spec k k0) as [->|Hk]; simpl; auto.
  intros H. now rewrite IH.
Qed.

Lemma keys_set_absent k v m :
  get k m = None -> keys (set k v m) = keys m ++ [k].
Proof.
  unfold keys.
  induction m as [|[k0 v0] m IH]; simpl; auto.
  destruct (String.eqb_spec k k0) as [->|Hk]; simpl; [discriminate|].
  intros H. now rewrite IH.
Qed.

Lemma delete_filter k m :
  delete k m = filter (fun e => negb (String.eqb k (fst e))) m.
Proof.
  induction m as [|[k0 v0] m IH]; simpl; auto.
  destruct (String.eqb k k0); simpl; congruence.
Qed.

Lemma delete_absent k m : get k m = None -> delete k m = m.
Proof.
  induction m as [|[k0 v0] m IH]; simpl; auto.
  destruct (String.eqb k k0); [discriminate|].
  intros H. now rewrite IH.
Qed.

Lemma wf_set k v m : wf m -> wf (set k v m).
Proof.
  unfold wf. intros Hwf. destruct (get k m) eqn:Hg.
  - now rewrite (keys_set_present _ _ _ _ Hg).
  - rewrite (keys_set_absent _ _ _ Hg).
    apply get_none_keys in Hg.
    apply NoDup_rev in Hwf. rewrite <- (rev_involutive (keys m ++ [k])).
    apply NoDup_rev. rewrite rev_app_distr. simpl.
    constructor; auto. now rewrite <- in_rev.
Qed.

Lemma wf_delete k m : wf m -> wf (delete k m).
Proof.
  unfold wf, keys. induction m as [|[k0 v0] m IH]; simpl; auto.
  intros Hnd. inversion Hnd as [|? ? Hnotin Hnd']; subst.
  destruct (String.eqb k k0); simpl; auto.
  constructor; auto.
  intros Hin. apply Hnotin.
  rewrite delete_filter in Hin. apply in_map_iff in Hin.
  destruct Hin as [e [He Hin]]. apply filter_In in Hin.
  apply in_map_iff. exists e. tauto.
Qed.

Lemma size_nonneg m : 0 <= size m.
Proof. unfold size. lia. Qed.

Lemma size_set_le k v m : size (set k v m) <= size m + 1.
Proof. unfold size. pose proof (length_set_le k v m). lia. Qed.

Lemma size_set_present k v v' m :
  get k m = Some v' -> size (set k v m) = size m.
Proof. unfold size. intros H. now rewrite (length_set_present _ _ _ _ H). Qed.

Lemma size_set_absent k v m : get k m = None -> size (set k v m) = size m + 1.
Proof. unfold size. intros H. rewrite (length_set_absent _ _ _ H). lia. Qed.

Lemma size_delete_le k m : size (delete k m) <= size m.
Proof. unfold size. pose proof (length_delete_le k m). lia. Qed.
End Facts.

End JsMapFacts.

(** ** Reasoning about monadic code *)

Lemma bind_run {A B} (m : M A) (k : A -> M B) E w :
  bind m k E w =
  match m E w with
  | (Return a, w') => k a E w'
  | (Throw e, w') => (Throw e, w')
  end.
Proof. reflexivity. Qed.

Lemma try_catch_run {A} (m : M A) (h : Error -> M A) E w :
  try_catch m h E w =
  match m E w with
  | (Return a, w') => (Return a, w')
  | (Throw e, w') => h e E w'
  end.
Proof. reflexivity. Qed.

Section Preservation.
Context (R : World -> World -> Prop) `{HR : PoolRel R}.

Lemma rel_refl w : R w w.
Proof. now apply rel_frame. Qed.

Lemma preserves_ret {A} (a : A) : preserves R (ret a).
Proof. intros E w. apply rel_refl. Qed.

Lemma preserves_throw {A} (e : Error) : preserves R (@throw A e).
Proof. intros E w. apply rel_refl. Qed.

Lemma preserves_bind {A B} (m : M A) (k : A -> M B) :
  preserves R m -> (forall a, preserves R (k a)) -> preserves R (bind m k).
Proof.
  intros Hm Hk E w. rewrite bind_run.
  specialize (Hm E w). destruct (m E w) as [[a|e] w1]; simpl in *; auto.
  eapply rel_trans; [exact Hm | apply Hk].
Qed.

Lemma preserves_try_catch {A} (m : M A) (h : Error -> M A) :
  preserves R m -> (forall e, preserves R (h e)) ->
  preserves R (try_catch m h).
Proof.
  intros Hm Hh E w. rewrite try_catch_run.
  specialize (Hm E w). destruct (m E w) as [[a|e] w1]; simpl in *; auto.
  eapply rel_trans; [exact Hm | apply Hh].
Qed.

Lemma preserves_for_of {A} (xs : list A) (body : A -> M unit) :
  (forall x, preserves R (body x)) -> preserves R (for_of xs body).
Proof.
  intros Hb. induction xs as [|x xs IH]; simpl.
  - apply preserves_ret.
  - apply preserves_bind; auto.
Qed.

Lemma preserves_get_pool : preserves R get_pool.
Proof. intros E w. apply rel_refl. Qed.

Lemma preserves_get_config : preserves R get_config.
Proof. intros E w. apply rel_refl. Qed.

Lemma preserves_new_Date : preserves R new_Date.
Proof. intros E w. apply rel_refl. Qed.

Lemma preserves_uuidv4 : preserves R uuidv4.
Proof. intros E w. apply rel_refl. Qed.

Lemma preserves_engine {A} c (answer : Engine -> Answer A) :
  preserves R (engine c answer).
Proof. intros E w. now apply rel_frame. Qed.

Lemma preserves_broadcast tp pl : preserves R (broadcast tp pl).
Proof. intros E w. now apply rel_frame. Qed.

Lemma preserves_sendMessage c msg : preserves R (sendMessage c msg).
Proof. intros E w. now apply rel_frame. Qed.
End Preservation.

Create HintDb pres.

#[local] Hint Resolve preserves_ret preserves_throw preserves_get_pool
  preserves_get_config preserves_new_Date preserves_uuidv4 preserves_engine
  preserves_broadcast preserves_sendMessage
  rel_pages rel_touch rel_delete rel_browsers rel_createSession
  : pres.

(** Walks down the syntax of a method. *)
Ltac preserve :=
  repeat
    match goal with
    | |- preserves ?R (bind _ _) => apply (@preserves_bind R _); [|intro]
    | |- preserves ?R (try_catch _ _) =>
        apply (@preserves_try_catch R _); [|intro]
    | |- preserves ?R (for_of _ _) => apply (@preserves_for_of R _); intro
    | |- preserves _ (match ?x with _ => _ end) => destruct x
    | |- preserves _ _ => solve [eauto with pres typeclass_instances]
    end.

Section Methods.
Context (R : World -> World -> Prop) `{HR : PoolRel R}.

Lemma preserves_deref sid : preserves R (deref sid).
Proof. unfold deref. preserve. Qed.

Lemma preserves_addPage sid page : preserves R (addPage sid page).
Proof. unfold addPage. preserve. Qed.

Lemma preserves_removePage sid pid : preserves R (removePage sid pid).
Proof. pose proof preserves_deref. unfold removePage. preserve. Qed.

Lemma preserves_session_close sid : preserves R (session_close sid).
Proof.
  pose proof preserves_deref. unfold session_close. preserve.
Qed.

Lemma preserves_launchBrowser : preserves R _launchBrowser.
Proof.
  unfold _launchBrowser. preserve.
  match goal with
  | |- preserves _ (modify_pool (fun p => set_browsers (_ ++ [?b]) p)) =>
      apply (rel_browsers (fun bs => bs ++ [b]))
  end.
Qed.

Lemma preserves_on_disconnected b : preserves R (on_disconnected b).
Proof. unfold on_disconnected. apply (rel_browsers (remove_first b)). Qed.

Lemma preserves_getSession sid : preserves R (getSession sid).
Proof. pose proof preserves_deref. unfold getSession. preserve. Qed.

Lemma preserves_closeSession sid : preserves R (closeSession sid).
Proof.
  pose proof preserves_deref. pose proof preserves_session_close.
  unfold closeSession. preserve.
Qed.

Lemma preserves_createPage sid url : preserves R (createPage sid url).
Proof.
  pose proof preserves_getSession. pose proof preserves_addPage.
  unfold createPage. preserve.
Qed.

Lemma preserves_getPage sid pid : preserves R (getPage sid pid).
Proof. pose proof preserves_getSession. unfold getPage. preserve. Qed.

Lemma preserves_closePage sid pid : preserves R (closePage sid pid).
Proof.
  pose proof preserves_getSession. pose proof preserves_removePage.
  unfold closePage. preserve.
Qed.
End Methods.

#[local] Hint Resolve preserves_deref preserves_addPage preserves_removePage
  preserves_session_close preserves_launchBrowser preserves_on_disconnected
  preserves_getSession preserves_closeSession preserves_createPage
  preserves_getPage preserves_closePage : pres.

Section Service.
Context (R : World -> World -> Prop) `{HR : PoolRel R}.

Lemma methods_preserve_prototype : methods_preserve R prototype_methods.
Proof. repeat split; intros; simpl; preserve. Qed.

Lemma methods_preserve_wired : methods_preserve R wired.
Proof.
  repeat split; intros; simpl;
    unfold broadcastSessionCreated, broadcastSessionClosed,
      broadcastPageCreated, broadcastPageClosed; preserve.
Qed.

Context (pm : PoolMethods) (Hpm : methods_preserve R pm).

Lemma preserves_call_createSession userId md :
  preserves R (call_createSession pm userId md).
Proof. apply Hpm. Qed.

Lemma preserves_call_closeSession sid :
  preserves R (call_closeSession pm sid).
Proof. apply Hpm. Qed.

Lemma preserves_call_createPage sid url :
  preserves R (call_createPage pm sid url).
Proof. apply Hpm. Qed.

Lemma preserves_call_closePage sid pid :
  preserves R (call_closePage pm sid pid).
Proof. apply Hpm. Qed.

Lemma preserves_reaper_sweep : preserves R (reaper_sweep pm).
Proof.
  pose proof preserves_call_closeSession.
  unfold reaper_sweep, _cleanupExpiredSessions. preserve.
Qed.

Lemma preserves_js_getPage sid pid : preserves R (js_getPage sid pid).
Proof. unfold js_getPage. preserve. Qed.

Lemma preserves_browser_action_switch pl :
  preserves R (browser_action_switch pm pl).
Proof.
  pose proof preserves_call_createSession.
  pose proof preserves_call_createPage.
  pose proof preserves_js_getPage.
  unfold browser_action_switch, js_createPage. preserve.
Qed.

Lemma preserves_handleBrowserAction client pl :
  preserves R (handleBrowserAction pm client pl).
Proof.
  pose proof preserves_browser_action_switch.
  unfold handleBrowserAction. preserve.
Qed.

Lemma preserves_grpc r : preserves R (grpc pm r).
Proof.
  pose proof preserves_call_createSession.
  pose proof preserves_call_closeSession.
  pose proof preserves_call_createPage.
  pose proof preserves_call_closePage.
  destruct r; unfold grpc, acquire, release, grpc_createPage, navigatePage,
    grpc_click, grpc_type, grpc_closePage; preserve.
Qed.

Context (Htick : holds_across_ticks R).

(** Every operation of the service keeps [R]. *)
Lemma preserves_exec op : preserves R (exec pm op).
Proof.
  pose proof (Htick : forall ms, preserves R (tick ms)).
  pose proof preserves_call_createSession.
  pose proof preserves_call_closeSession.
  pose proof preserves_call_createPage.
  pose proof preserves_call_closePage.
  pose proof preserves_reaper_sweep.
  pose proof preserves_handleBrowserAction.
  pose proof preserves_grpc.
  destruct op; unfold exec, discard; preserve.
Qed.

Lemma step_related E op w : R w (step pm E op w).
Proof. apply preserves_exec. Qed.

(** ... and so does every run. *)
Lemma run_related steps w : R w (run pm steps w).
Proof.
  revert w. induction steps as [|[E op] steps IH]; intros w; simpl.
  - now apply rel_refl.
  - eapply rel_trans; [apply step_related | apply IH].
Qed.
End Service.

(** ** What [createSession] does, case by case *)

Lemma createSession_at_capacity userId md E w :
  maxBrowsers (pool w) <= activeSessionCount w ->
  createSession userId md E w = (Throw PoolAtCapacity, w).
Proof.
  intros Hfull. unfold createSession. rewrite bind_run. simpl.
  apply Z.leb_le in Hfull. unfold activeSessionCount, sessions in Hfull.
  now rewrite Hfull.
Qed.

Lemma createSession_below_capacity userId md E w :
  activeSessionCount w < maxBrowsers (pool w) ->
  createSession_outcome userId md E w (createSession userId md E w).
Proof.
  intros Hroom. unfold createSession. rewrite bind_run. simpl.
  apply Z.leb_gt in Hroom. unfold activeSessionCount, sessions in Hroom.
  rewrite Hroom.
  destruct w as [c t [mx to bs ss] calls pub snt]; simpl in *.
  destruct bs as [|b bs]; simpl.
  - destruct (launch E) as [b|e] eqn:Hl.
    + destruct (newContext E b) as [ctx|e] eqn:Hc;
        cbv beta iota delta [bind try_catch _launchBrowser engine modify_pool
          get_pool throw ret uuidv4 new_Date]; rewrite Hl; simpl; rewrite Hc;
        simpl; rewrite <- app_assoc.
      * match goal with
        | |- createSession_outcome _ _ _ ?w ?r =>
            change r with
              (Return (uuid E),
               created userId md E ctx [b] [Launch; NewContext b] w)
        end.
        now constructor.
      * match goal with
        | |- createSession_outcome _ _ _ ?w ?r =>
            change r with
              (@Throw SessionId (Playwright e),
               refused [b] [Launch; NewContext b] w)
        end.
        now constructor.
    + cbv beta iota delta [bind try_catch _launchBrowser engine modify_pool
        get_pool throw ret uuidv4 new_Date]; rewrite Hl; simpl.
      match goal with
      | |- createSession_outcome _ _ _ ?w ?r =>
          change r with
            (@Throw SessionId (Playwright e), refused [] [Launch] w)
      end.
      now constructor.
  - destruct (newContext E b) as [ctx|e] eqn:Hc;
      cbv beta iota delta [bind try_catch engine modify_pool get_pool throw
        ret uuidv4 new_Date]; simpl; rewrite Hc; simpl.
    + match goal with
      | |- createSession_outcome _ _ _ ?w ?r =>
          change r with
            (Return (uuid E),
             created userId md E ctx (b :: bs) [NewContext b] w)
      end.
      now constructor.
    + match goal with
      | |- createSession_outcome _ _ _ ?w ?r =>
          change r with
            (@Throw SessionId (Playwright e),
             refused (b :: bs) [NewContext b] w)
      end.
      now constructor.
Qed.

(** ** How the primitive writes change the session table *)

Lemma update_session_run sid f E w :
  update_session sid f E w =
  (Return tt,
   set_pool
     match JsMap.get sid (sessions w) with
     | Some s =>
         set_activeSessions (JsMap.set sid (f s) (sessions w)) (pool w)
     | None => pool w
     end w).
Proof. reflexivity. Qed.

Lemma touch_run sid E w :
  touch sid E w = update_session sid (set_lastActivity (clock w)) E w.
Proof. reflexivity. Qed.

Lemma sessions_update_session sid f E w :
  sessions (snd (update_session sid f E w)) =
  match JsMap.get sid (sessions w) with
  | Some s => JsMap.set sid (f s) (sessions w)
  | None => sessions w
  end.
Proof.
  rewrite update_session_run. simpl. unfold sessions.
  now destruct (JsMap.get sid (activeSessions (pool w))).
Qed.

Lemma update_session_frame sid f E w :
  let w' := snd (update_session sid f E w) in
  config w' = config w /\ clock w' = clock w /\
  maxBrowsers (pool w') = maxBrowsers (pool w) /\
  browserTimeout (pool w') = browserTimeout (pool w) /\
  browsers (pool w') = browsers (pool w) /\
  engineCalls w' = engineCalls w /\ published w' = published w /\
  sent w' = sent w.
Proof.
  rewrite update_session_run. simpl.
  destruct (JsMap.get sid (sessions w)); simpl; repeat split; reflexivity.
Qed.

(** A session read after [update_session]. *)
Lemma get_update_session sid f sid' E w :
  JsMap.get sid' (sessions (snd (update_session sid f E w))) =
  if String.eqb sid sid'
  then option_map f (JsMap.get sid (sessions w))
  else JsMap.get sid' (sessions w).
Proof.
  rewrite sessions_update_session.
  destruct (String.eqb_spec sid sid') as [<-|Hne].
  - destruct (JsMap.get sid (sessions w)) eqn:Hg; simpl.
    + apply JsMapFacts.get_set_same.
    + exact Hg.
  - destruct (JsMap.get sid (sessions w)) eqn:Hg; auto.
    now apply JsMapFacts.get_set_other.
Qed.

Lemma size_update_session sid f E w :
  activeSessionCount (snd (update_session sid f E w)) = activeSessionCount w.
Proof.
  unfold activeSessionCount. rewrite sessions_update_session.
  destruct (JsMap.get sid (sessions w)) eqn:Hg; auto.
  now apply JsMapFacts.size_set_present with (v' := b).
Qed.

Lemma lastActivity_copy_metadata userId md s :
  lastActivity (copy_metadata userId md s) = lastActivity s.
Proof.
  unfold copy_metadata.
  assert (Hfold : forall entries s0,
    lastActivity
      (fold_left (fun s1 kv =>
         set_metadata (JsMap.set (fst kv) (snd kv) (metadata s1)) s1)
         entries s0) = lastActivity s0).
  { induction entries as [|kv entries IH]; intros s0; simpl; auto.
    now rewrite IH. }
  destruct md as [entries|]; destruct (truthy userId), userId; simpl;
    rewrite ?Hfold; reflexivity.
Qed.

(** ** The capacity bound is kept *)

#[local] Instance capacity_kept_rel : PoolRel capacity_kept.
Proof.
  constructor.
  - intros a b c [Hm1 H1] [Hm2 H2]. split; [congruence|].
    intros Ha. apply H2. rewrite Hm1 in *. auto.
  - intros w w' Hp _. unfold capacity_kept, activeSessionCount, sessions.
    rewrite Hp. auto.
  - intros sid g E w. split.
    + apply update_session_frame.
    + rewrite size_update_session.
      now rewrite (proj1 (proj2 (proj2 (update_session_frame _ _ E w)))).
  - intros sid E w. rewrite touch_run. split.
    + apply update_session_frame.
    + rewrite size_update_session.
      now rewrite (proj1 (proj2 (proj2 (update_session_frame _ _ E w)))).
  - intros sid E w. split; [reflexivity|]. simpl.
    unfold activeSessionCount, sessions. simpl.
    pose proof (JsMapFacts.size_delete_le sid (activeSessions (pool w))). lia.
  - intros g E w. split; [reflexivity|]. auto.
  - intros userId md E w.
    destruct (Z_le_gt_dec (maxBrowsers (pool w)) (activeSessionCount w))
      as [Hfull|Hroom].
    + rewrite createSession_at_capacity by exact Hfull. simpl. split; auto.
    + pose proof (createSession_below_capacity userId md E w) as Hout.
      destruct (createSession userId md E w) as [r w']. simpl.
      assert (Hlt : activeSessionCount w < maxBrowsers (pool w)) by lia.
      specialize (Hout Hlt).
      inversion Hout; subst; (split; [reflexivity|]); intros _;
        unfold activeSessionCount, created, refused, sessions in *; simpl;
        try match goal with
            | |- context [JsMap.set ?k ?v ?m] =>
                pose proof (JsMapFacts.size_set_le k v m)
            end; lia.
Qed.

Lemma capacity_kept_tick : holds_across_ticks capacity_kept.
Proof. intros ms E w. split; [reflexivity|]. auto. Qed.

Lemma pool_methods_preserve R `{HR : PoolRel R} pm :
  pool_methods pm -> methods_preserve R pm.
Proof.
  intros [-> | ->];
    [apply methods_preserve_prototype | apply methods_preserve_wired];
    exact HR.
Qed.

(** Calls that do not overlap keep the bound: starting from the pool as
    constructed, with a non-negative configured maximum, the number of
    active sessions never exceeds the maximum on a run in which every
    operation is over before the next one starts, whatever the engine
    answers. *)
Lemma capacity_kept_in_turn (c : Config) (t0 : Z) (pm : PoolMethods)
  (steps : list (Engine * Op)) :
  0 <= MAX_BROWSERS c ->
  pool_methods pm ->
  activeSessionCount (run pm steps (boot c t0)) <= MAX_BROWSERS c /\
  maxBrowsers (pool (run pm steps (boot c t0))) = MAX_BROWSERS c.
Proof.
  intros Hmax Hpm.
  destruct (run_related capacity_kept pm
              (pool_methods_preserve capacity_kept pm Hpm)
              capacity_kept_tick steps (boot c t0))
    as [Hsame Hle].
  simpl in Hsame. rewrite Hsame in Hle. split; [|exact Hsame].
  apply Hle. unfold activeSessionCount, sessions. simpl.
  unfold JsMap.size. simpl. exact Hmax.
Qed.

(** ** Calls of createSession that overlap (C1) *)

Lemma engine_settled {A} (c : EngineCall) (answer : Engine -> Answer A) E w :
  engine c answer E w = (a <- engine_call c answer ;; settle a) E w.
Proof. unfold engine, engine_call, settle, bind. now destruct (answer E). Qed.

(** The stretches are those of [createSession]: a call that starts and
    is resumed at its two [await]s with nothing in between is over with
    the outcome of [createSession], in the world [createSession]
    leaves. *)
Lemma createSession_stretches userId md E w :
  (c0 <- createSession_start userId md ;;
   c1 <- createSession_resume c0 ;;
   createSession_resume c1) E w =
  (Return (Over (fst (createSession userId md E w))),
   snd (createSession userId md E w)).
Proof.
  unfold createSession, createSession_start, createSession_resume,
    createSession_newContext, stretch, _launchBrowser.
  destruct w as [cfg t [mx to bs ss] calls pub snt].
  cbv beta iota delta [bind try_catch get_pool throw ret pool maxBrowsers
    activeSessions browsers].
  destruct (mx <=? JsMap.size ss); [reflexivity|].
  destruct bs as [|b bs]; cbn [List.length Nat.eqb].
  - cbv beta iota delta [bind try_catch engine engine_call settle modify_pool
      get_pool throw ret uuidv4 new_Date set_pool set_browsers
      set_activeSessions pool browsers engineCalls config clock published
      sent maxBrowsers browserTimeout activeSessions app].
    destruct (launch E) as [b|e]; [|reflexivity].
    destruct (newContext E b) as [ctx|e]; reflexivity.
  - cbv beta iota delta [bind try_catch engine engine_call settle modify_pool
      get_pool throw ret uuidv4 new_Date set_pool set_browsers
      set_activeSessions pool browsers engineCalls config clock published
      sent maxBrowsers browserTimeout activeSessions].
    destruct (newContext E b) as [ctx|e]; reflexivity.
Qed.

(** C1, evaluated.  On a pool of two with both browsers launched and no
    session, three calls of [createSession] overlap: each passes the
    capacity test and reaches the [await] of [newContext] before any of
    them has registered its session.  All three succeed, and the pool
    holds three sessions under a maximum of two.  The same three calls
    made in turn give two sessions, the third being refused for
    capacity. *)
Theorem C1_overlapping_createSession :
  let after := overlapped three_overlapping (pool_started, []) in
  let in_turn := overlapped three_in_turn (pool_started, []) in
  snd after = [Over (Return "A"); Over (Return "B"); Over (Return "C")] /\
  JsMap.keys (sessions (fst after)) = ["A"; "B"; "C"] /\
  activeSessionCount (fst after) = 3 /\
  maxBrowsers (pool (fst after)) = 2 /\
  maxBrowsers (pool (fst after)) < activeSessionCount (fst after) /\
  snd in_turn =
    [Over (Return "A"); Over (Return "B"); Over (Throw PoolAtCapacity)] /\
  activeSessionCount (fst in_turn) = 2.
Proof. vm_compute. repeat split; reflexivity. Qed.

(** ** createSession and acquire (C2) *)

Lemma acquire_run pm user_id md E w :
  acquire pm user_id md E w =
  match call_createSession pm (or_null user_id) (Some md) E w with
  | (Return id, w') => (Return (GrpcOk (SessionHandle id)), w')
  | (Throw e, w') => (Return (GrpcError RESOURCE_EXHAUSTED (message e)), w')
  end.
Proof.
  unfold acquire. rewrite try_catch_run, bind_run.
  now destruct (call_createSession pm (or_null user_id) (Some md) E w)
    as [[id|e] w'].
Qed.

Lemma wired_createSession_run userId md E w :
  fst (call_createSession wired userId md E w) =
  fst (createSession userId md E w) /\
  pool (snd (call_createSession wired userId md E w)) =
  pool (snd (createSession userId md E w)).
Proof.
  simpl. rewrite bind_run.
  destruct (createSession userId md E w) as [[id|e] w']; simpl; auto.
Qed.

(** C2, as the code has it.  [createSession] raises the capacity error
    exactly when the table holds at least [maxBrowsers] sessions, and then
    changes nothing.  Below capacity it takes the first engine of the
    list (launched first when the list is empty); with a context from
    that engine it registers the session under the generated id and
    returns the id; when the launch or the context fails it raises the
    engine's error and registers nothing.  [acquire] answers
    RESOURCE_EXHAUSTED for every error of [createSession]. *)
Theorem C2_createSession_cases (userId : option string)
  (md : option (JsMap.t string)) (E : Engine) (w : World) :
  let r := createSession userId md E w in
  (fst r = Throw PoolAtCapacity <->
   maxBrowsers (pool w) <= activeSessionCount w) /\
  (maxBrowsers (pool w) <= activeSessionCount w -> snd r = w) /\
  (activeSessionCount w < maxBrowsers (pool w) ->
   match selected_engine E w with
   | Fails e =>
       fst r = Throw (Playwright e) /\ sessions (snd r) = sessions w
   | Ok b =>
       hd_error (browsers (pool (snd r))) = Some b /\
       In (NewContext b) (engineCalls (snd r)) /\
       match newContext E b with
       | Fails e =>
           fst r = Throw (Playwright e) /\ sessions (snd r) = sessions w
       | Ok ctx =>
           fst r = Return (uuid E) /\
           sessions (snd r) =
           JsMap.set (uuid E) (fresh_session userId md E ctx w) (sessions w) /\
           JsMap.get (uuid E) (sessions (snd r)) =
           Some (fresh_session userId md E ctx w) /\
           (JsMap.get (uuid E) (sessions w) = None ->
            activeSessionCount (snd r) = activeSessionCount w + 1)
       end
   end) /\
  (forall pm user_id md',
     pool_methods pm ->
     forall e,
       fst (createSession (or_null user_id) (Some md') E w) = Throw e ->
       fst (acquire pm user_id md' E w) =
       Return (GrpcError RESOURCE_EXHAUSTED (message e))).
Proof.
  cbv zeta. split; [|split; [|split]].
  - split.
    + intros Hthrow.
      destruct (Z_le_gt_dec (maxBrowsers (pool w)) (activeSessionCount w))
        as [Hfull|Hroom]; auto.
      assert (Hlt : activeSessionCount w < maxBrowsers (pool w)) by lia.
      pose proof (createSession_below_capacity userId md E w Hlt) as Hout.
      destruct (createSession userId md E w) as [r w']. simpl in Hthrow.
      subst r. inversion Hout.
    + intros Hfull. now rewrite createSession_at_capacity.
  - intros Hfull. now rewrite createSession_at_capacity.
  - intros Hlt.
    pose proof (createSession_below_capacity userId md E w Hlt) as Hout.
    unfold selected_engine.
    destruct (createSession userId md E w) as [r w'].
    inversion Hout as [e Hb Hl|b e Hb Hl Hc|b ctx Hb Hl Hc|b bs e Hb Hc
                      |b bs ctx Hb Hc]; subst; rewrite Hb; simpl;
      rewrite ?Hl, ?Hc; simpl.
    + auto.
    + repeat split; auto. apply in_or_app. right. simpl. auto.
    + repeat split; auto.
      * apply in_or_app. right. simpl. auto.
      * unfold sessions at 1. simpl. apply JsMapFacts.get_set_same.
      * intros Hfresh. unfold activeSessionCount, sessions at 1. simpl.
        now apply JsMapFacts.size_set_absent.
    + repeat split; auto. apply in_or_app. right. simpl. auto.
    + repeat split; auto.
      * apply in_or_app. right. simpl. auto.
      * unfold sessions at 1. simpl. apply JsMapFacts.get_set_same.
      * intros Hfresh. unfold activeSessionCount, sessions at 1. simpl.
        now apply JsMapFacts.size_set_absent.
  - intros pm user_id md' Hpm e He. rewrite acquire_run.
    destruct Hpm as [-> | ->].
    + simpl. destruct (createSession (or_null user_id) (Some md') E w)
        as [[id|e'] w']; simpl in *; congruence.
    + pose proof (wired_createSession_run (or_null user_id) (Some md') E w)
        as [Hfst _].
      destruct (call_createSession wired (or_null user_id) (Some md') E w)
        as [[id|e'] w']; simpl in *; congruence.
Qed.

(** The specification's wording of C2 fails below capacity when the
    engine cannot create a context: nothing is registered, no id is
    returned, and [acquire] answers RESOURCE_EXHAUSTED although one of
    the two slots is free. *)
Lemma C2_counterexample :
  activeSessionCount one_session = 1 /\
  maxBrowsers (pool one_session) = 2 /\
  fst (createSession None None (no_context "B") one_session) =
  Throw (Playwright (OtherError "Target closed")) /\
  sessions (snd (createSession None None (no_context "B") one_session)) =
  sessions one_session /\
  fst (acquire wired "" [] (no_context "B") one_session) =
  Return (GrpcError RESOURCE_EXHAUSTED "Target closed") /\
  ~ createSession_as_specified None None (no_context "B") one_session.
Proof.
  repeat split; try reflexivity.
  intros [_ Hreg].
  destruct Hreg as [id [Hret _]].
  - vm_compute. discriminate.
  - vm_compute in Hret. discriminate.
Qed.

Lemma C2_createSession_witness :
  fst (createSession None None (healthy 1%nat "C") two_sessions) =
  Throw PoolAtCapacity /\
  fst (createSession None None (healthy 1%nat "B") one_session) = Return "B".
Proof.
  split.
  - apply (C2_createSession_cases None None (healthy 1%nat "C") two_sessions).
    vm_compute. discriminate.
  - pose proof (C2_createSession_cases None None (healthy 1%nat "B")
                  one_session) as [_ [_ [Hbelow _]]].
    apply Hbelow. reflexivity.
Defined.

(** ** closeSession, step by step *)

Lemma deref_run sid E w : deref sid E w = (Return (JsMap.get sid (sessions w)), w).
Proof. reflexivity. Qed.

Lemma delete_set_same {V} k (v : V) m :
  JsMap.delete k (JsMap.set k v m) = JsMap.delete k m.
Proof.
  induction m as [|[k' v'] m IH]; simpl.
  - now rewrite String.eqb_refl.
  - destruct (String.eqb k k') eqn:Hk; simpl; rewrite ?Hk, ?String.eqb_refl;
      auto.
    now rewrite IH.
Qed.

(** The loop of [close] over the pages: every page gets its [close]
    call, and no failure leaves the loop. *)
Lemma close_pages_run (ps : JsMap.t Page) E w :
  for_of ps (fun entry =>
    try (engine (PageClose (snd entry)) (fun E => pageClose E (snd entry)))
    catch (fun _ => ret tt)) E w =
  (Return tt,
   mkWorld (config w) (clock w) (pool w)
     (engineCalls w ++ map (fun entry => PageClose (snd entry)) ps)
     (published w) (sent w)).
Proof.
  revert w. induction ps as [|[pid p] ps IH]; intros w; simpl.
  - unfold ret. rewrite app_nil_r. now destruct w.
  - rewrite bind_run, try_catch_run. unfold engine at 1. simpl.
    destruct (pageClose E p); simpl; rewrite IH; simpl;
      now rewrite <- app_assoc.
Qed.

Lemma session_close_run sid s E w :
  JsMap.get sid (sessions w) = Some s ->
  session_close sid E w =
  (Return tt,
   mkWorld (config w) (clock w)
     (set_activeSessions
        (JsMap.set sid (set_pages JsMap.empty s) (sessions w)) (pool w))
     (engineCalls w ++ close_calls s) (published w) (sent w)).
Proof.
  intros Hget. unfold session_close.
  rewrite try_catch_run, bind_run, deref_run, Hget.
  rewrite bind_run, close_pages_run, bind_run, update_session_run.
  unfold sessions in *. cbn [pool]. rewrite Hget.
  unfold engine, close_calls. cbn.
  destruct (contextClose E (context s)) as [[]|e]; cbn;
    now rewrite <- app_assoc.
Qed.

Lemma closeSession_present sid s E w :
  JsMap.get sid (sessions w) = Some s ->
  closeSession sid E w = (Return true, without_session sid (close_calls s) w).
Proof.
  intros Hget. unfold closeSession.
  rewrite bind_run, deref_run, Hget, bind_run.
  rewrite (session_close_run sid s E w Hget).
  rewrite bind_run. unfold modify_pool, ret, without_session. cbn.
  now rewrite delete_set_same.
Qed.

Lemma closeSession_absent sid E w :
  JsMap.get sid (sessions w) = None ->
  closeSession sid E w = (Return false, w).
Proof.
  intros Hget. unfold closeSession. now rewrite bind_run, deref_run, Hget.
Qed.

Lemma wired_closeSession_run sid E w :
  call_closeSession wired sid E w =
  match JsMap.get sid (sessions w) with
  | Some s =>
      (Return true,
       announced "session.closed" (SessionClosed sid)
         (without_session sid (close_calls s) w))
  | None => (Return false, w)
  end.
Proof.
  simpl. rewrite bind_run.
  destruct (JsMap.get sid (sessions w)) as [s|] eqn:Hget.
  - now rewrite (closeSession_present sid s E w Hget).
  - now rewrite (closeSession_absent sid E w Hget).
Qed.

(** C7.  [closeSession] on a session that is present calls [close] on
    each of its pages and then on its context, removes the session (and
    no other) from the table and returns true; a second call, like any
    call on an absent id, returns false and leaves the world as it was. *)
Theorem C7_closeSession (sid : SessionId) (E : Engine) (w : World) :
  (forall s, JsMap.get sid (sessions w) = Some s ->
     let w' := snd (closeSession sid E w) in
     fst (closeSession sid E w) = Return true /\
     engineCalls w' =
       engineCalls w ++
       map (fun entry => PageClose (snd entry)) (pages s) ++
       [ContextClose (context s)] /\
     JsMap.get sid (sessions w') = None /\
     (forall sid', sid' <> sid ->
        JsMap.get sid' (sessions w') = JsMap.get sid' (sessions w)) /\
     (forall E', closeSession sid E' w' = (Return false, w'))) /\
  (JsMap.get sid (sessions w) = None ->
     closeSession sid E w = (Return false, w) /\
     call_closeSession wired sid E w = (Return false, w)).
Proof.
  split.
  - intros s Hget. cbv zeta.
    rewrite (closeSession_present sid s E w Hget). simpl.
    assert (Hgone : JsMap.get sid
              (sessions (without_session sid (close_calls s) w)) = None)
      by apply JsMapFacts.get_delete_same.
    repeat split; auto.
    + intros sid' Hne. unfold sessions at 1. simpl.
      apply JsMapFacts.get_delete_other. congruence.
    + intros E'. now apply closeSession_absent.
  - intros Hget. split.
    + now apply closeSession_absent.
    + now rewrite wired_closeSession_run, Hget.
Qed.

Lemma C7_closeSession_witness :
  fst (closeSession "A" (healthy 1%nat "") two_pages) = Return true /\
  engineCalls (snd (closeSession "A" (healthy 1%nat "") two_pages)) =
    engineCalls two_pages ++ [PageClose 7%nat; PageClose 8%nat;
                              ContextClose 101%nat] /\
  closeSession "B" (healthy 1%nat "") two_pages = (Return false, two_pages).
Proof.
  pose proof (C7_closeSession "A" (healthy 1%nat "") two_pages) as [Hp _].
  pose proof (C7_closeSession "B" (healthy 1%nat "") two_pages) as [_ Ha].
  specialize (Hp (mkSession "A" 101%nat 0 0 [("P1", 7%nat); ("P2", 8%nat)] [])
                eq_refl).
  cbv zeta in Hp. destruct Hp as [Hret [Hcalls _]].
  split; [exact Hret|]. split; [exact Hcalls|].
  apply Ha. reflexivity.
Defined.

(** C9.  On a session that is present [closeSession] returns true and
    removes the session whatever the engine answers to the [close]
    calls: a failure to close a page or the context is caught inside
    [BrowserSession.close], which always completes normally. *)
Theorem C9_closeSession_never_raises (sid : SessionId) (s : BrowserSession)
  (E : Engine) (w : World) :
  JsMap.get sid (sessions w) = Some s ->
  fst (session_close sid E w) = Return tt /\
  fst (closeSession sid E w) = Return true /\
  JsMap.get sid (sessions (snd (closeSession sid E w))) = None /\
  fst (call_closeSession wired sid E w) = Return true /\
  JsMap.get sid (sessions (snd (call_closeSession wired sid E w))) = None.
Proof.
  intros Hget.
  rewrite (session_close_run sid s E w Hget).
  rewrite (closeSession_present sid s E w Hget).
  rewrite wired_closeSession_run, Hget. simpl.
  repeat split; apply JsMapFacts.get_delete_same.
Qed.

Lemma C9_closeSession_witness :
  pageClose (stuck_close "") 7%nat =
    Fails (OtherError "Target page has been closed") /\
  contextClose (stuck_close "") 101%nat =
    Fails (OtherError "Target context has been closed") /\
  fst (closeSession "A" (stuck_close "") two_pages) = Return true /\
  JsMap.get "A" (sessions (snd (closeSession "A" (stuck_close "") two_pages)))
    = None.
Proof.
  split; [reflexivity|]. split; [reflexivity|].
  pose proof (C9_closeSession_never_raises "A"
                (mkSession "A" 101%nat 0 0 [("P1", 7%nat); ("P2", 8%nat)] [])
                (stuck_close "") two_pages eq_refl) as [_ [Hret [Hgone _]]].
  split; [exact Hret | exact Hgone].
Defined.

(** ** The session table stays a [Map] *)

#[local] Instance table_kept_rel : PoolRel table_kept.
Proof.
  constructor; unfold table_kept.
  - auto.
  - intros w w' Hp _. unfold sessions. now rewrite Hp.
  - intros sid g E w Hwf. rewrite sessions_update_session.
    destruct (JsMap.get sid (sessions w)); auto using JsMapFacts.wf_set.
  - intros sid E w Hwf. rewrite touch_run, sessions_update_session.
    destruct (JsMap.get sid (sessions w)); auto using JsMapFacts.wf_set.
  - intros sid E w Hwf. unfold sessions. simpl.
    now apply JsMapFacts.wf_delete.
  - intros g E w Hwf. exact Hwf.
  - intros userId md E w Hwf.
    destruct (Z_le_gt_dec (maxBrowsers (pool w)) (activeSessionCount w))
      as [Hfull|Hroom].
    + now rewrite createSession_at_capacity.
    + assert (Hlt : activeSessionCount w < maxBrowsers (pool w)) by lia.
      pose proof (createSession_below_capacity userId md E w Hlt) as Hout.
      destruct (createSession userId md E w) as [r w'].
      inversion Hout; subst; unfold sessions at 1; simpl;
        auto using JsMapFacts.wf_set.
Qed.

Lemma table_kept_tick : holds_across_ticks table_kept.
Proof. intros ms E w Hwf. exact Hwf. Qed.

(** Every world the service reaches from its start has a well-formed
    session table. *)
Lemma reachable_table_wf c t0 pm steps :
  pool_methods pm -> JsMap.wf (sessions (run pm steps (boot c t0))).
Proof.
  intros Hpm.
  apply (run_related table_kept pm
           (pool_methods_preserve table_kept pm Hpm) table_kept_tick
           steps (boot c t0)).
  constructor.
Qed.

(** ** The reaper sweep (C3) *)

Lemma fold_delete_filter {V} (ids : list string) (m : JsMap.t V) :
  fold_left (fun m' sid => JsMap.delete sid m') ids m =
  filter (fun e => negb (existsb (String.eqb (fst e)) ids)) m.
Proof.
  revert m. induction ids as [|k ids IH]; intros m; simpl.
  - induction m as [|e m IHm]; simpl; congruence.
  - rewrite IH, JsMapFacts.delete_filter.
    induction m as [|e m IHm]; simpl; auto.
    rewrite (String.eqb_sym k (fst e)).
    destruct (String.eqb (fst e) k); simpl; rewrite IHm; reflexivity.
Qed.

Lemma wf_same_key {V} (m : JsMap.t V) e e' :
  JsMap.wf m -> In e m -> In e' m -> fst e = fst e' -> e = e'.
Proof.
  intros Hwf Hin Hin' Hk. destruct e as [k v], e' as [k' v']. simpl in Hk.
  subst k'. pose proof (JsMapFacts.in_get k v m Hwf Hin) as H1.
  pose proof (JsMapFacts.in_get k v' m Hwf Hin') as H2. congruence.
Qed.

Lemma selected_keys {V} (P : string * V -> bool) (m : JsMap.t V) e :
  JsMap.wf m -> In e m ->
  existsb (String.eqb (fst e)) (map fst (filter P m)) = P e.
Proof.
  intros Hwf Hin. destruct (P e) eqn:HP.
  - apply existsb_exists. exists (fst e). split; [|apply String.eqb_refl].
    apply in_map. apply filter_In. auto.
  - apply Bool.not_true_is_false. intros Hex.
    apply existsb_exists in Hex. destruct Hex as [k [Hk Heq]].
    apply String.eqb_eq in Heq. apply in_map_iff in Hk.
    destruct Hk as [e' [Hfst Hin']]. apply filter_In in Hin'.
    destruct Hin' as [Hin' HP'].
    assert (e = e') by (apply (wf_same_key m); congruence).
    congruence.
Qed.

Lemma get_filter {V} (Q : string * V -> bool) (m : JsMap.t V) k v :
  JsMap.wf m -> JsMap.get k m = Some v ->
  JsMap.get k (filter Q m) = if Q (k, v) then Some v else None.
Proof.
  unfold JsMap.wf, JsMap.keys.
  induction m as [|[k' v'] m IH]; simpl; [discriminate|].
  intros Hnd Hget. inversion Hnd as [|? ? Hnotin Hnd']; subst.
  destruct (String.eqb_spec k k') as [->|Hne].
  - injection Hget as ->. destruct (Q (k', v)) eqn:HQ; simpl.
    + now rewrite String.eqb_refl.
    + apply JsMapFacts.get_none_keys. intros Hin. apply Hnotin.
      apply in_map_iff in Hin. destruct Hin as [e [He Hin]].
      apply filter_In in Hin. apply in_map_iff. exists e. tauto.
  - destruct (Q (k', v')); simpl.
    + destruct (String.eqb_spec k k'); [congruence|]. auto.
    + auto.
Qed.

(** The second loop of the sweep, over ids that are present and
    distinct: each is closed and announced in turn. *)
Lemma sweep_loop E (ids : list SessionId) :
  forall w,
    NoDup ids ->
    (forall sid, In sid ids -> JsMap.get sid (sessions w) <> None) ->
    let r := for_of ids (fun sid => call_closeSession wired sid ;; ret tt) E w in
    fst r = Return tt /\
    sessions (snd r) =
      fold_left (fun m sid => JsMap.delete sid m) ids (sessions w) /\
    published (snd r) = published w ++ map (closed_event (clock w)) ids /\
    clock (snd r) = clock w.
Proof.
  induction ids as [|sid ids IH]; intros w Hnd Hin; cbv zeta; cbn [for_of].
  - simpl. now rewrite app_nil_r.
  - inversion Hnd as [|? ? Hnotin Hnd']; subst.
    rewrite bind_run, bind_run, wired_closeSession_run.
    destruct (JsMap.get sid (sessions w)) as [s|] eqn:Hget.
    2:{ exfalso. apply (Hin sid); auto. now left. }
    cbn [ret].
    set (w1 := announced "session.closed" (SessionClosed sid)
                 (without_session sid (close_calls s) w)).
    destruct (IH w1 Hnd') as [Hret [Hsess [Hpub Hclock]]].
    { intros sid' Hin'. unfold w1, sessions. simpl.
      rewrite JsMapFacts.get_delete_other.
      - apply Hin. now right.
      - intros ->. contradiction. }
    repeat split; auto.
    + rewrite Hpub. unfold w1. simpl. now rewrite <- app_assoc.
Qed.

(** The engine calls of the second loop, over entries of the table with
    distinct ids: every page and the context of each session get their
    [close], session after session. *)
Lemma sweep_loop_calls E (l : list (SessionId * BrowserSession)) :
  forall w,
    JsMap.wf l ->
    (forall sid s, In (sid, s) l -> JsMap.get sid (sessions w) = Some s) ->
    engineCalls
      (snd (for_of (JsMap.keys l)
              (fun sid => call_closeSession wired sid ;; ret tt) E w)) =
    engineCalls w ++ flat_map (fun entry => close_calls (snd entry)) l.
Proof.
  unfold JsMap.wf, JsMap.keys.
  induction l as [|[sid s] l IH]; intros w Hnd Hin;
    cbn [map fst snd for_of flat_map] in *.
  - simpl. now rewrite app_nil_r.
  - inversion Hnd as [|? ? Hfresh Hnd']; subst.
    rewrite bind_run, bind_run, wired_closeSession_run.
    rewrite (Hin sid s (or_introl eq_refl)). cbn [ret].
    rewrite IH; auto.
    + simpl. now rewrite <- app_assoc.
    + intros sid' s' Hin'. unfold sessions. simpl.
      rewrite JsMapFacts.get_delete_other.
      * apply Hin. now right.
      * intros ->. apply Hfresh. apply (in_map fst) in Hin'. exact Hin'.
Qed.

(** C3.  On a well-formed table the sweep of the running service
    completes normally; it removes exactly the sessions whose idle time
    [clock - lastActivity] is strictly above [browserTimeout] seconds,
    keeps every other session as it was, and publishes one
    ['session.closed'] envelope for each removed session, in table
    order.  The removed sessions are closed: the engine calls of the
    sweep are the [close] of every page and of the context of each
    expired session, session after session, and no other call. *)
Theorem C3_reaper_sweep (E : Engine) (w : World) :
  JsMap.wf (sessions w) ->
  let w' := snd (reaper_sweep wired E w) in
  fst (reaper_sweep wired E w) = Return tt /\
  sessions w' =
    filter (fun entry => negb (expired_in w (snd entry))) (sessions w) /\
  (forall sid s, JsMap.get sid (sessions w) = Some s ->
     JsMap.get sid (sessions w') =
     if browserTimeout (pool w) * 1000 <? clock w - lastActivity s
     then None else Some s) /\
  published w' = published w ++ map (closed_event (clock w)) (expired_ids w) /\
  engineCalls w' =
    engineCalls w ++
    flat_map (fun entry => close_calls (snd entry))
      (filter (fun entry => expired_in w (snd entry)) (sessions w)) /\
  NoDup (expired_ids w) /\
  (forall sid, In sid (expired_ids w) <->
     exists s, JsMap.get sid (sessions w) = Some s /\
               browserTimeout (pool w) * 1000 < clock w - lastActivity s).
Proof.
  intros Hwf. cbv zeta.
  assert (Hcalls :
    engineCalls (snd (reaper_sweep wired E w)) =
    engineCalls w ++
    flat_map (fun entry => close_calls (snd entry))
      (filter (fun entry => expired_in w (snd entry)) (sessions w))).
  { apply (sweep_loop_calls E
             (filter (fun entry => expired_in w (snd entry)) (sessions w)) w).
    - unfold JsMap.wf, JsMap.keys in *.
      revert Hwf. generalize (sessions w) as m.
      induction m as [|e m IH]; intros Hm; simpl; auto.
      inversion Hm as [|? ? Hnotin Hm']; subst.
      destruct (expired_in w (snd e)); simpl; auto. constructor; auto.
      intros Hin. apply Hnotin. apply in_map_iff in Hin.
      destruct Hin as [e' [He' Hin]]. apply filter_In in Hin.
      apply in_map_iff. exists e'. tauto.
    - intros sid s Hin. apply filter_In in Hin.
      apply JsMapFacts.in_get; tauto. }
  assert (Hnd : NoDup (expired_ids w)).
  { unfold expired_ids.
    assert (Hsub : forall (m : JsMap.t BrowserSession) P,
              NoDup (map fst m) -> NoDup (map fst (filter P m))).
    { induction m as [|e m IH]; intros P Hm; simpl; auto.
      inversion Hm as [|? ? Hnotin Hm']; subst.
      destruct (P e); simpl; auto. constructor; auto.
      intros Hin. apply Hnotin. apply in_map_iff in Hin.
      destruct Hin as [e' [He' Hin]]. apply filter_In in Hin.
      apply in_map_iff. exists e'. tauto. }
    now apply Hsub. }
  assert (Hmem : forall sid, In sid (expired_ids w) <->
            exists s, JsMap.get sid (sessions w) = Some s /\
                      browserTimeout (pool w) * 1000 < clock w - lastActivity s).
  { intros sid. unfold expired_ids. rewrite in_map_iff. split.
    - intros [[k s] [Hk Hin]]. simpl in Hk. subst k.
      apply filter_In in Hin. destruct Hin as [Hin Hexp]. exists s. split.
      + now apply JsMapFacts.in_get.
      + simpl in Hexp. unfold expired_in, isExpired in Hexp.
        now apply Z.ltb_lt.
    - intros [s [Hget Hidle]]. exists (sid, s). split; auto.
      apply filter_In. split.
      + now apply JsMapFacts.get_some_in.
      + simpl. unfold expired_in, isExpired. now apply Z.ltb_lt. }
  assert (Hrun : reaper_sweep wired E w =
            for_of (expired_ids w)
              (fun sid => call_closeSession wired sid ;; ret tt) E w)
    by reflexivity.
  rewrite Hrun.
  destruct (sweep_loop E (expired_ids w) w Hnd) as [Hret [Hsess [Hpub _]]].
  { intros sid Hin. apply Hmem in Hin. destruct Hin as [s [Hget _]].
    congruence. }
  assert (Hfilter : sessions
            (snd (for_of (expired_ids w)
                    (fun sid => call_closeSession wired sid ;; ret tt) E w)) =
            filter (fun entry => negb (expired_in w (snd entry))) (sessions w)).
  { rewrite Hsess, fold_delete_filter. apply filter_ext_in.
    intros e Hin. unfold expired_ids.
    now rewrite (selected_keys (fun entry => expired_in w (snd entry))
                   (sessions w) e Hwf Hin). }
  repeat split; auto.
  - intros sid s Hget. rewrite Hfilter.
    rewrite (get_filter _ _ sid s Hwf Hget). simpl.
    unfold expired_in, isExpired.
    now destruct (browserTimeout (pool w) * 1000 <? clock w - lastActivity s).
  - apply Hmem.
  - apply Hmem.
Qed.

Lemma C3_reaper_sweep_witness :
  sessions (snd (reaper_sweep wired (healthy 1%nat "") idle_A)) =
    [("B", mkSession "B" 101%nat 0 301000 [] [])] /\
  published (snd (reaper_sweep wired (healthy 1%nat "") idle_A)) =
    published idle_A ++ [closed_event 301000 "A"] /\
  engineCalls (snd (reaper_sweep wired (healthy 1%nat "") idle_A)) =
    engineCalls idle_A ++ [ContextClose 101%nat] /\
  engineCalls (snd (reaper_sweep wired (stuck_close "") two_pages_idle)) =
    engineCalls two_pages_idle ++
    [PageClose 7%nat; PageClose 8%nat; ContextClose 101%nat].
Proof.
  assert (Hwf : JsMap.wf (sessions idle_A)).
  { repeat constructor; simpl; intuition discriminate. }
  assert (Hwf' : JsMap.wf (sessions two_pages_idle)).
  { repeat constructor; simpl; intuition discriminate. }
  pose proof (C3_reaper_sweep (healthy 1%nat "") idle_A Hwf)
    as [_ [Hsess [_ [Hpub [Hcalls _]]]]].
  pose proof (C3_reaper_sweep (stuck_close "") two_pages_idle Hwf')
    as [_ [_ [_ [_ [Hcalls' _]]]]].
  split; [exact Hsess | split; [exact Hpub | split; [exact Hcalls|]]].
  exact Hcalls'.
Defined.

(** ** Engine disconnection (C4) *)

Lemma on_disconnected_run b E w :
  on_disconnected b E w =
  (Return tt,
   set_pool (set_browsers (remove_first b (browsers (pool w))) (pool w)) w).
Proof. reflexivity. Qed.

(** C4, evaluated.  Browser 1 of a pool of two disconnects: the handler
    takes it out of the list and does nothing else.  The pool stays one
    engine short of its size, no launch is made by the handler, and
    none by later traffic either: [createSession] goes on with the
    engine that is left, and so does the reaper. *)
Theorem C4_disconnect_does_not_relaunch :
  let w := two_browsers in
  let w1 := step wired (healthy 3%nat "") (OpDisconnected 1%nat) w in
  let w2 := run wired
              [(healthy 3%nat "", OpTick 60000);
               (healthy 3%nat "", OpReaperSweep);
               (healthy 3%nat "B", OpCreateSession None None)] w1 in
  browsers (pool w) = [1%nat; 2%nat] /\
  maxBrowsers (pool w) = 2 /\
  browsers (pool w1) = [2%nat] /\
  engineCalls w1 = engineCalls w /\
  launches (engineCalls w1) = launches (engineCalls w) /\
  browsers (pool w2) = [2%nat] /\
  launches (engineCalls w2) = launches (engineCalls w) /\
  JsMap.keys (sessions w2) = ["A"; "B"].
Proof. vm_compute. repeat split; reflexivity. Qed.

(** ** createPage, step by step *)

Lemma set_set_same {V} k (v v' : V) m :
  JsMap.set k v (JsMap.set k v' m) = JsMap.set k v m.
Proof.
  induction m as [|[k0 v0] m IH]; simpl.
  - now rewrite String.eqb_refl.
  - destruct (String.eqb k k0) eqn:Hk; simpl; rewrite ?Hk, ?String.eqb_refl;
      auto.
    now rewrite IH.
Qed.

Lemma set_present_same {V} k (v : V) m :
  JsMap.get k m = Some v -> JsMap.set k v m = m.
Proof.
  induction m as [|[k0 v0] m IH]; simpl; [discriminate|].
  destruct (String.eqb_spec k k0) as [->|Hne].
  - now intros [= ->].
  - intros Hget. now rewrite IH.
Qed.

Lemma with_session_nil sid s w :
  JsMap.get sid (sessions w) = Some s -> with_session sid s [] w = w.
Proof.
  intros Hget. unfold with_session. rewrite (set_present_same _ _ _ Hget).
  rewrite app_nil_r. now destruct w as [c t [mx to bs ss] calls pub snt].
Qed.

Lemma getSession_present sid s E w :
  JsMap.get sid (sessions w) = Some s ->
  getSession sid E w =
  (Return (Some (touched w s)), with_session sid (touched w s) [] w).
Proof.
  intros Hget. unfold getSession.
  rewrite bind_run, deref_run, Hget, bind_run, touch_run, update_session_run.
  rewrite Hget, deref_run. unfold with_session, sessions, set_pool.
  cbn. rewrite JsMapFacts.get_set_same, app_nil_r. reflexivity.
Qed.

Lemma getSession_absent sid E w :
  JsMap.get sid (sessions w) = None -> getSession sid E w = (Return None, w).
Proof.
  intros Hget. unfold getSession. now rewrite bind_run, deref_run, Hget.
Qed.

Lemma addPage_present sid s page E w :
  JsMap.get sid (sessions w) = Some s ->
  addPage sid page E w =
  (Return (uuid E), with_session sid (with_page E w page s) [] w).
Proof.
  intros Hget. unfold addPage.
  rewrite bind_run. cbn [uuidv4].
  rewrite bind_run, update_session_run, Hget.
  rewrite bind_run, touch_run, update_session_run.
  unfold with_session, with_page, sessions, set_pool. cbn.
  rewrite JsMapFacts.get_set_same, set_set_same, app_nil_r. reflexivity.
Qed.

Lemma createPage_absent sid url E w :
  JsMap.get sid (sessions w) = None ->
  createPage sid url E w = (Throw (SessionNotFound sid), w).
Proof.
  intros Hget. unfold createPage.
  now rewrite bind_run, (getSession_absent sid E w Hget).
Qed.

Lemma createPage_no_page sid s url e E w :
  JsMap.get sid (sessions w) = Some s ->
  newPage E (context s) = Fails e ->
  createPage sid url E w =
  (Throw (Playwright e),
   with_session sid (touched w s) [NewPage (context s)] w).
Proof.
  intros Hget Hnew. unfold createPage.
  rewrite bind_run, (getSession_present sid s E w Hget).
  rewrite try_catch_run, bind_run. unfold engine at 1. cbn [context touched set_lastActivity].
  rewrite Hnew. unfold with_session, throw. cbn.
  now rewrite app_nil_r.
Qed.

(** With a page from the engine: the page is added first, then, for a
    truthy [url], the navigation decides how [createPage] completes. *)
Lemma createPage_with_page sid s url page E w :
  JsMap.get sid (sessions w) = Some s ->
  newPage E (context s) = Ok page ->
  createPage sid url E w =
  if truthy url
  then
    (match goto E page url (page_load_timeout w) with
     | Ok _ => Return (uuid E)
     | Fails e => Throw (Playwright e)
     end,
     with_session sid (with_page E w page s)
       [NewPage (context s); Goto page url (page_load_timeout w)] w)
  else
    (Return (uuid E),
     with_session sid (with_page E w page s) [NewPage (context s)] w).
Proof.
  intros Hget Hnew. unfold createPage.
  rewrite bind_run, (getSession_present sid s E w Hget).
  rewrite try_catch_run, bind_run. unfold engine at 1.
  cbn [context touched set_lastActivity]. rewrite Hnew.
  rewrite bind_run.
  rewrite (addPage_present sid (touched w s) page E).
  2:{ unfold with_session, sessions. cbn. apply JsMapFacts.get_set_same. }
  destruct (truthy url).
  - rewrite bind_run, bind_run. cbn [get_config]. rewrite bind_run.
    unfold engine, page_load_timeout, with_session, with_page, touched,
      sessions. cbn.
    destruct (goto E page url
                (Some (MAX_PAGE_LOAD_TIME (config w) * 1000))); cbn;
      rewrite ?set_set_same, ?app_nil_r, <- ?app_assoc; reflexivity.
  - rewrite bind_run. unfold with_session, with_page, touched, sessions.
    cbn. rewrite ?set_set_same, ?app_nil_r. reflexivity.
Qed.

Lemma wired_createPage_run sid url E w :
  call_createPage wired sid url E w =
  match createPage sid url E w with
  | (Return pageId, w') =>
      (Return pageId, announced "page.created" (PageCreated sid pageId url) w')
  | (Throw e, w') => (Throw e, w')
  end.
Proof.
  simpl. rewrite bind_run.
  now destruct (createPage sid url E w) as [[pageId|e] w'].
Qed.

(** Whatever happens in [createPage], a session that was in the table is
    still there. *)
Lemma createPage_keeps_session sid s url E w :
  JsMap.get sid (sessions w) = Some s ->
  JsMap.has sid (sessions (snd (createPage sid url E w))) = true.
Proof.
  intros Hget. unfold JsMap.has.
  destruct (newPage E (context s)) as [page|e] eqn:Hnew.
  - rewrite (createPage_with_page sid s url page E w Hget Hnew).
    destruct (truthy url); unfold with_session, sessions; cbn;
      now rewrite JsMapFacts.get_set_same.
  - rewrite (createPage_no_page sid s url e E w Hget Hnew).
    unfold with_session, sessions; cbn. now rewrite JsMapFacts.get_set_same.
Qed.

(** C6.  [createPage] on an absent session raises "Session ... not
    found" and changes nothing.  On a session that is present, with a
    page from the engine and a url, it calls [goto] with the timeout
    [MAX_PAGE_LOAD_TIME * 1000]; a navigation that times out or fails
    makes [createPage] raise that error.  In every case the session is
    still in the table afterwards, for the pool as constructed and as
    wired. *)
Theorem C6_createPage (sid : SessionId) (url : option string) (E : Engine)
  (w : World) :
  (JsMap.get sid (sessions w) = None ->
     createPage sid url E w = (Throw (SessionNotFound sid), w)) /\
  (forall s, JsMap.get sid (sessions w) = Some s ->
     JsMap.has sid (sessions (snd (createPage sid url E w))) = true /\
     JsMap.has sid (sessions (snd (call_createPage wired sid url E w))) = true /\
     forall page, newPage E (context s) = Ok page -> truthy url = true ->
       engineCalls (snd (createPage sid url E w)) =
         engineCalls w ++
         [NewPage (context s);
          Goto page url (Some (MAX_PAGE_LOAD_TIME (config w) * 1000))] /\
       forall e,
         goto E page url (Some (MAX_PAGE_LOAD_TIME (config w) * 1000)) = Fails e ->
         fst (createPage sid url E w) = Throw (Playwright e) /\
         fst (call_createPage wired sid url E w) = Throw (Playwright e)).
Proof.
  split.
  - apply createPage_absent.
  - intros s Hget.
    pose proof (createPage_keeps_session sid s url E w Hget) as Hkeep.
    split; [exact Hkeep|]. split.
    + rewrite wired_createPage_run.
      destruct (createPage sid url E w) as [[pageId|e] w']; exact Hkeep.
    + intros page Hnew Hurl.
      rewrite wired_createPage_run.
      rewrite (createPage_with_page sid s url page E w Hget Hnew), Hurl.
      split; [reflexivity|].
      intros e Hgoto. unfold page_load_timeout. rewrite Hgoto. auto.
Qed.

Lemma C6_createPage_witness :
  createPage "Z" (Some "https://example.org/") (healthy 1%nat "P1") one_session
    = (Throw (SessionNotFound "Z"), one_session) /\
  fst (createPage "A" (Some "https://example.org/") (slow_site 7%nat "P1")
         one_session) =
    Throw (Playwright (TimeoutError "Timeout 30000ms exceeded.")) /\
  JsMap.has "A"
    (sessions (snd (createPage "A" (Some "https://example.org/")
                      (slow_site 7%nat "P1") one_session))) = true.
Proof.
  split; [|split].
  - apply (C6_createPage "Z" (Some "https://example.org/") (healthy 1%nat "P1")
             one_session). reflexivity.
  - pose proof (C6_createPage "A" (Some "https://example.org/")
                  (slow_site 7%nat "P1") one_session) as [_ Hp].
    destruct (Hp (mkSession "A" 101%nat 0 0 [] []) eq_refl) as [_ [_ Hnav]].
    destruct (Hnav 7%nat eq_refl eq_refl) as [_ Hfail].
    apply (Hfail (TimeoutError "Timeout 30000ms exceeded.")). reflexivity.
  - pose proof (C6_createPage "A" (Some "https://example.org/")
                  (slow_site 7%nat "P1") one_session) as [_ Hp].
    apply (Hp (mkSession "A" 101%nat 0 0 [] []) eq_refl).
Defined.

(** C10.  When the navigation of [createPage] fails, the error is raised
    and no page id is returned, yet the page made for the call is in the
    session's page table under the generated id and [lastActivity] is
    the current time: the page was added before [goto] was called.  On
    the wired pool no ['page.created'] envelope is published for it. *)
Theorem C10_createPage_not_atomic (sid : SessionId) (s : BrowserSession)
  (url : option string) (page : Page) (e : PlaywrightError) (E : Engine)
  (w : World) :
  JsMap.get sid (sessions w) = Some s ->
  newPage E (context s) = Ok page ->
  truthy url = true ->
  goto E page url (Some (MAX_PAGE_LOAD_TIME (config w) * 1000)) = Fails e ->
  let w' := snd (createPage sid url E w) in
  fst (createPage sid url E w) = Throw (Playwright e) /\
  (exists s', JsMap.get sid (sessions w') = Some s' /\
              JsMap.get (uuid E) (pages s') = Some page /\
              lastActivity s' = clock w) /\
  engineCalls w' =
    engineCalls w ++
    [NewPage (context s);
     Goto page url (Some (MAX_PAGE_LOAD_TIME (config w) * 1000))] /\
  fst (call_createPage wired sid url E w) = Throw (Playwright e) /\
  pool (snd (call_createPage wired sid url E w)) = pool w' /\
  published (snd (call_createPage wired sid url E w)) = published w.
Proof.
  intros Hget Hnew Hurl Hgoto. cbv zeta.
  rewrite wired_createPage_run.
  rewrite (createPage_with_page sid s url page E w Hget Hnew), Hurl.
  unfold page_load_timeout. rewrite Hgoto. cbn [fst snd].
  repeat split; auto.
  exists (with_page E w page s). repeat split.
  - unfold with_session, sessions. cbn. apply JsMapFacts.get_set_same.
  - unfold with_page. cbn. apply JsMapFacts.get_set_same.
Qed.

Lemma C10_createPage_witness :
  fst (createPage "A" (Some "https://example.org/") (slow_site 7%nat "P1")
         one_session) =
    Throw (Playwright (TimeoutError "Timeout 30000ms exceeded.")) /\
  exists s',
    JsMap.get "A"
      (sessions (snd (createPage "A" (Some "https://example.org/")
                        (slow_site 7%nat "P1") one_session))) = Some s' /\
    JsMap.get "P1" (pages s') = Some 7%nat /\
    lastActivity s' = clock one_session.
Proof.
  pose proof (C10_createPage_not_atomic "A" (mkSession "A" 101%nat 0 0 [] [])
                (Some "https://example.org/") 7%nat
                (TimeoutError "Timeout 30000ms exceeded.")
                (slow_site 7%nat "P1") one_session
                eq_refl eq_refl eq_refl eq_refl) as [Hthrow [Hpage _]].
  split; [exact Hthrow | exact Hpage].
Defined.

(** ** lastActivity (C8) *)

(** A step after which every session either has the time of the step as
    its [lastActivity] or is a session of before with the value of
    before. *)
Lemma activity_kept_intro w w' :
  clock w <= clock w' ->
  (forall sid s', JsMap.get sid (sessions w') = Some s' ->
     lastActivity s' = clock w \/
     exists s, JsMap.get sid (sessions w) = Some s /\
               lastActivity s' = lastActivity s) ->
  activity_kept w w'.
Proof.
  intros Hclock Hstep Hb. split; [|split]; auto.
  - intros sid s' Hget. destruct (Hstep sid s' Hget) as [Hnow|[s [Hs Heq]]].
    + lia.
    + specialize (Hb sid s Hs). lia.
  - intros sid s' Hget. unfold activity_floor.
    destruct (Hstep sid s' Hget) as [Hnow|[s [Hs Heq]]].
    + destruct (JsMap.get sid (sessions w)) as [s|] eqn:Hs; [|lia].
      specialize (Hb sid s Hs). lia.
    + rewrite Hs. lia.
Qed.

Lemma clock_update_session sid f E w :
  clock (snd (update_session sid f E w)) = clock w.
Proof. now rewrite update_session_run. Qed.

#[local] Instance activity_kept_rel : PoolRel activity_kept.
Proof.
  constructor.
  - intros a b c H1 H2 Ha.
    destruct (H1 Ha) as [Hb [Hab F1]]. destruct (H2 Hb) as [Hc [Hbc F2]].
    split; [exact Hc|]. split; [lia|].
    intros sid s'' Hget. specialize (F2 sid s'' Hget).
    assert (activity_floor a sid <= activity_floor b sid); [|lia].
    unfold activity_floor at 2.
    destruct (JsMap.get sid (sessions b)) as [s'|] eqn:Hs'.
    + now apply F1.
    + unfold activity_floor.
      destruct (JsMap.get sid (sessions a)) as [s|] eqn:Hs; [|lia].
      specialize (Ha sid s Hs). lia.
  - intros w w' Hp Hc. apply activity_kept_intro; [lia|].
    intros sid s' Hget. right. exists s'. unfold sessions in *.
    rewrite <- Hp. auto.
  - intros sid g E w. apply activity_kept_intro.
    + rewrite clock_update_session. lia.
    + intros sid' s' Hget. rewrite get_update_session in Hget. right.
      destruct (String.eqb_spec sid sid') as [<-|Hne].
      * destruct (JsMap.get sid (sessions w)) as [s|]; [|discriminate].
        injection Hget as <-. exists s. auto.
      * exists s'. auto.
  - intros sid E w. rewrite touch_run. apply activity_kept_intro.
    + rewrite clock_update_session. lia.
    + intros sid' s' Hget. rewrite get_update_session in Hget.
      destruct (String.eqb_spec sid sid') as [<-|Hne].
      * destruct (JsMap.get sid (sessions w)) as [s|]; [|discriminate].
        injection Hget as <-. left. reflexivity.
      * right. exists s'. auto.
  - intros sid E w. apply activity_kept_intro; [simpl; lia|].
    intros sid' s' Hget. right. exists s'. split; auto.
    unfold sessions in Hget. simpl in Hget.
    destruct (String.eqb_spec sid sid') as [<-|Hne].
    + now rewrite JsMapFacts.get_delete_same in Hget.
    + now rewrite JsMapFacts.get_delete_other in Hget.
  - intros g E w. apply activity_kept_intro; [simpl; lia|].
    intros sid' s' Hget. right. exists s'. auto.
  - intros userId md E w.
    destruct (Z_le_gt_dec (maxBrowsers (pool w)) (activeSessionCount w))
      as [Hfull|Hroom].
    + rewrite createSession_at_capacity by exact Hfull.
      apply activity_kept_intro; [simpl; lia|].
      intros sid' s' Hget. right. exists s'. auto.
    + assert (Hlt : activeSessionCount w < maxBrowsers (pool w)) by lia.
      pose proof (createSession_below_capacity userId md E w Hlt) as Hout.
      destruct (createSession userId md E w) as [r w'].
      inversion Hout; subst; (apply activity_kept_intro; [simpl; lia|]);
        intros sid' s' Hget; unfold sessions at 1 in Hget; simpl in Hget;
        try (right; exists s'; split; [exact Hget | reflexivity]);
        (destruct (String.eqb_spec (uuid E) sid') as [<-|Hne];
         [ rewrite JsMapFacts.get_set_same in Hget; injection Hget as <-;
           left; apply lastActivity_copy_metadata
         | rewrite JsMapFacts.get_set_other in Hget by exact Hne;
           right; exists s'; split; [exact Hget | reflexivity] ]).
Qed.

Lemma activity_kept_tick : holds_across_ticks activity_kept.
Proof.
  intros ms E w. apply activity_kept_intro; [simpl; lia|].
  intros sid' s' Hget. right. exists s'. auto.
Qed.

Lemma removePage_present sid s pid E w :
  JsMap.get sid (sessions w) = Some s ->
  removePage sid pid E w =
  (Return (JsMap.has pid (pages s)),
   with_session sid
     (if JsMap.has pid (pages s)
      then set_lastActivity (clock w)
             (set_pages (JsMap.delete pid (pages s)) s)
      else set_pages (JsMap.delete pid (pages s)) s) [] w).
Proof.
  intros Hget. unfold removePage.
  rewrite bind_run, deref_run, Hget, bind_run, update_session_run, Hget.
  rewrite bind_run.
  destruct (JsMap.has pid (pages s)).
  - rewrite touch_run, update_session_run.
    unfold with_session, sessions, set_pool. cbn.
    now rewrite JsMapFacts.get_set_same, set_set_same, app_nil_r.
  - unfold with_session, sessions, set_pool. cbn. now rewrite app_nil_r.
Qed.

Lemma refreshed_with_session sid s calls w :
  lastActivity s = clock w -> refreshed sid w (with_session sid s calls w).
Proof.
  intros Hs. exists s. split; auto.
  unfold with_session, sessions. cbn. apply JsMapFacts.get_set_same.
Qed.

Lemma getSession_refreshes sid s E w :
  JsMap.get sid (sessions w) = Some s ->
  refreshed sid w (snd (getSession sid E w)).
Proof.
  intros Hget. rewrite (getSession_present sid s E w Hget).
  now apply refreshed_with_session.
Qed.

Lemma getPage_refreshes sid s pid E w :
  JsMap.get sid (sessions w) = Some s ->
  refreshed sid w (snd (getPage sid pid E w)).
Proof.
  intros Hget. unfold getPage.
  rewrite bind_run, (getSession_present sid s E w Hget).
  now apply refreshed_with_session.
Qed.

Lemma addPage_refreshes sid s page E w :
  JsMap.get sid (sessions w) = Some s ->
  refreshed sid w (snd (addPage sid page E w)).
Proof.
  intros Hget. rewrite (addPage_present sid s page E w Hget).
  now apply refreshed_with_session.
Qed.

Lemma createPage_refreshes sid s url E w :
  JsMap.get sid (sessions w) = Some s ->
  refreshed sid w (snd (createPage sid url E w)).
Proof.
  intros Hget. destruct (newPage E (context s)) as [page|e] eqn:Hnew.
  - rewrite (createPage_with_page sid s url page E w Hget Hnew).
    destruct (truthy url); now apply refreshed_with_session.
  - rewrite (createPage_no_page sid s url e E w Hget Hnew).
    now apply refreshed_with_session.
Qed.

Lemma closePage_refreshes sid s pid E w :
  JsMap.get sid (sessions w) = Some s ->
  refreshed sid w (snd (closePage sid pid E w)).
Proof.
  intros Hget. unfold closePage.
  rewrite bind_run, (getSession_present sid s E w Hget).
  unfold session_getPage. cbn [pages touched set_lastActivity].
  destruct (JsMap.get pid (pages s)) as [page|] eqn:Hpage.
  - rewrite try_catch_run, bind_run. unfold engine at 1.
    destruct (pageClose E page) as [[]|e].
    + rewrite bind_run.
      rewrite (removePage_present sid (touched w s) pid E).
      2:{ unfold with_session, sessions. cbn. apply JsMapFacts.get_set_same. }
      cbn [pages touched set_lastActivity].
      destruct (JsMap.has pid (pages s));
        (eexists; split;
         [ unfold with_session, sessions; cbn; apply JsMapFacts.get_set_same
         | reflexivity ]).
    + eexists; split;
        [ unfold with_session, sessions; cbn; apply JsMapFacts.get_set_same
        | reflexivity ].
  - now apply refreshed_with_session.
Qed.

(** C8.  On every run from the start no session has been active later
    than now; from any such world on, the [lastActivity] of a session
    never goes down along a run; and each of [getSession], [createPage],
    [getPage], [closePage], [addPage], and [removePage] of a page that
    is registered in the session, leaves the session it is given in the
    table with [lastActivity] equal to the current time; that
    [removePage] answers true and the page is gone from the session. *)
Theorem C8_lastActivity (pm : PoolMethods) (E : Engine) (w : World) :
  pool_methods pm ->
  (forall c t0 steps, activity_bounded (run pm steps (boot c t0))) /\
  (activity_bounded w ->
   forall steps sid s s',
     JsMap.get sid (sessions w) = Some s ->
     JsMap.get sid (sessions (run pm steps w)) = Some s' ->
     lastActivity s <= lastActivity s') /\
  (forall sid s, JsMap.get sid (sessions w) = Some s ->
     refreshed sid w (snd (getSession sid E w)) /\
     (forall url, refreshed sid w (snd (createPage sid url E w))) /\
     (forall pid, refreshed sid w (snd (getPage sid pid E w))) /\
     (forall pid, refreshed sid w (snd (closePage sid pid E w))) /\
     (forall page, refreshed sid w (snd (addPage sid page E w))) /\
     (forall pid page, JsMap.get pid (pages s) = Some page ->
        fst (removePage sid pid E w) = Return true /\
        refreshed sid w (snd (removePage sid pid E w)) /\
        exists s', JsMap.get sid (sessions (snd (removePage sid pid E w)))
                   = Some s' /\
                   JsMap.get pid (pages s') = None)).
Proof.
  intros Hpm. split; [|split].
  - intros c t0 steps.
    apply (run_related activity_kept pm
             (pool_methods_preserve activity_kept pm Hpm) activity_kept_tick
             steps (boot c t0)).
    intros sid s Hget. discriminate.
  - intros Hb steps sid s s' Hget Hget'.
    destruct (run_related activity_kept pm
                (pool_methods_preserve activity_kept pm Hpm)
                activity_kept_tick steps w Hb)
      as [_ [_ Hfloor]].
    specialize (Hfloor sid s' Hget'). unfold activity_floor in Hfloor.
    now rewrite Hget in Hfloor.
  - intros sid s Hget. repeat split; intros.
    + now apply (getSession_refreshes sid s).
    + now apply (createPage_refreshes sid s).
    + now apply (getPage_refreshes sid s).
    + now apply (closePage_refreshes sid s).
    + now apply (addPage_refreshes sid s).
    + rewrite (removePage_present sid s pid E w Hget).
      unfold JsMap.has. now rewrite H.
    + rewrite (removePage_present sid s pid E w Hget).
      unfold JsMap.has. rewrite H. cbn [snd].
      now apply refreshed_with_session.
    + rewrite (removePage_present sid s pid E w Hget).
      unfold JsMap.has. rewrite H. cbn [snd]. eexists. split.
      * unfold with_session, sessions. cbn. apply JsMapFacts.get_set_same.
      * cbn. apply JsMapFacts.get_delete_same.
Qed.

Lemma C8_lastActivity_witness :
  refreshed "B" idle_A (snd (getSession "B" (healthy 1%nat "") idle_A)) /\
  (fst (removePage "A" "P1" (healthy 1%nat "") two_pages_later) = Return true /\
   refreshed "A" two_pages_later
     (snd (removePage "A" "P1" (healthy 1%nat "") two_pages_later))) /\
  forall s',
    JsMap.get "A"
      (sessions (run wired
                   [(healthy 1%nat "", OpTick 5);
                    (paging 7%nat "P1", OpCreatePage "A" None)] two_sessions))
      = Some s' ->
    0 <= lastActivity s'.
Proof.
  pose proof (C8_lastActivity wired (healthy 1%nat "") idle_A
                (or_intror eq_refl)) as [_ [_ Hr]].
  pose proof (C8_lastActivity wired (healthy 1%nat "") two_sessions
                (or_intror eq_refl)) as [_ [Hm _]].
  pose proof (C8_lastActivity wired (healthy 1%nat "") two_pages_later
                (or_intror eq_refl)) as [_ [_ Hp]].
  split; [|split].
  - apply (Hr "B" (mkSession "B" 101%nat 0 301000 [] []) eq_refl).
  - destruct (Hp "A"
                (mkSession "A" 101%nat 0 0 [("P1", 7%nat); ("P2", 8%nat)] [])
                eq_refl)
      as [_ [_ [_ [_ [_ Hrm]]]]].
    destruct (Hrm "P1" 7%nat eq_refl) as [Htrue [Hfresh _]].
    split; [exact Htrue | exact Hfresh].
  - intros s' Hget.
    assert (Hb : activity_bounded two_sessions).
    { intros sid s Hs. unfold two_sessions, sessions in Hs. simpl in Hs.
      destruct (String.eqb sid "A"); [injection Hs as <-; simpl; lia|].
      destruct (String.eqb sid "B"); [injection Hs as <-; simpl; lia|].
      discriminate. }
    exact (Hm Hb _ "A" (mkSession "A" 101%nat 0 0 [] []) s' eq_refl Hget).
Defined.

(** ** The two control planes (C5) *)

#[local] Instance untimed_rel : PoolRel untimed.
Proof.
  constructor; unfold untimed.
  - intros a b c H1 H2. congruence.
  - intros w w' _ Hc. exact Hc.
  - intros sid g E w. apply clock_update_session.
  - intros sid E w. rewrite touch_run. apply clock_update_session.
  - intros sid E w. reflexivity.
  - intros g E w. reflexivity.
  - intros userId md E w.
    destruct (Z_le_gt_dec (maxBrowsers (pool w)) (activeSessionCount w))
      as [Hfull|Hroom].
    + now rewrite createSession_at_capacity.
    + assert (Hlt : activeSessionCount w < maxBrowsers (pool w)) by lia.
      pose proof (createSession_below_capacity userId md E w Hlt) as Hout.
      destruct (createSession userId md E w) as [r w'].
      inversion Hout; subst; reflexivity.
Qed.

Lemma handleBrowserAction_run pm client pl E w :
  handleBrowserAction pm client pl E w =
  match browser_action_switch pm pl E w with
  | (Return result, w1) =>
      (Return tt,
       mkWorld (config w1) (clock w1) (pool w1) (engineCalls w1)
         (published w1 ++
          [mkBroadcast (String.append "browser." (action pl))
             (BrowserAction client (p_sessionId pl) (p_pageId pl) (action pl)
                (clock w1))
             (clock w1)])
         (sent w1 ++
          [(client,
            ActionResult (action pl) (p_sessionId pl) (p_pageId pl) result)]))
  | (Throw e, w1) =>
      (Return tt,
       mkWorld (config w1) (clock w1) (pool w1) (engineCalls w1)
         (published w1)
         (sent w1 ++ [(client, ActionFailure (action pl) (message e))]))
  end.
Proof.
  unfold handleBrowserAction. rewrite try_catch_run, bind_run.
  now destruct (browser_action_switch pm pl E w) as [[result|e] w1].
Qed.

Lemma createSession_or_null user_id md E w :
  call_createSession wired (Some user_id) md E w =
  call_createSession wired (or_null user_id) md E w.
Proof.
  unfold or_null. destruct (String.eqb_spec user_id "") as [->|Hne];
    reflexivity.
Qed.

(** The switch of the event plane and the handler of the synchronous
    plane leave the same pool and the same envelopes. *)
Lemma switch_and_handler a E w :
  pool (snd (browser_action_switch wired (ws_payload a) E w)) =
    pool (snd (via_grpc a E w)) /\
  published (snd (browser_action_switch wired (ws_payload a) E w)) =
    published (snd (via_grpc a E w)).
Proof.
  destruct a as [user_id md|sid url|sid pid url|sid pid selector
                |sid pid selector text];
    unfold via_grpc, grpc, grpc_request, browser_action_switch, ws_payload;
    cbn [action p_sessionId p_pageId p_userId p_metadata p_url p_selector
         p_text String.eqb Ascii.eqb Bool.eqb].
  - rewrite acquire_run, bind_run, createSession_or_null.
    now destruct (call_createSession wired (or_null user_id) (Some md) E w)
      as [[id|e] w1].
  - unfold grpc_createPage, js_createPage.
    rewrite try_catch_run, !bind_run.
    now destruct (call_createPage wired sid (Some url) E w) as [[id|e] w1].
  - unfold navigatePage, js_getPage.
    rewrite try_catch_run, !bind_run.
    destruct (getPage sid pid E w) as [[[page|]|e] w1]; cbn; auto.
    repeat match goal with
           | |- context [match ?x with Ok _ => _ | Fails _ => _ end] =>
               destruct x; cbn
           end; auto.
  - unfold grpc_click, js_getPage.
    rewrite try_catch_run, !bind_run.
    destruct (getPage sid pid E w) as [[[page|]|e] w1]; cbn; auto.
    repeat match goal with
           | |- context [match ?x with Ok _ => _ | Fails _ => _ end] =>
               destruct x; cbn
           end; auto.
  - unfold grpc_type, js_getPage.
    rewrite try_catch_run, !bind_run.
    destruct (getPage sid pid E w) as [[[page|]|e] w1]; cbn; auto.
    repeat match goal with
           | |- context [match ?x with Ok _ => _ | Fails _ => _ end] =>
               destruct x; cbn
           end; auto.
Qed.

Lemma published_createSession userId md E w :
  published (snd (createSession userId md E w)) = published w.
Proof.
  destruct (Z_le_gt_dec (maxBrowsers (pool w)) (activeSessionCount w))
    as [Hfull|Hroom].
  - now rewrite createSession_at_capacity.
  - assert (Hlt : activeSessionCount w < maxBrowsers (pool w)) by lia.
    pose proof (createSession_below_capacity userId md E w Hlt) as Hout.
    destruct (createSession userId md E w) as [r w'].
    inversion Hout; subst; reflexivity.
Qed.

Lemma published_getSession sid E w :
  published (snd (getSession sid E w)) = published w.
Proof.
  destruct (JsMap.get sid (sessions w)) as [s|] eqn:Hget.
  - now rewrite (getSession_present sid s E w Hget).
  - now rewrite (getSession_absent sid E w Hget).
Qed.

Lemma published_getPage sid pid E w :
  published (snd (getPage sid pid E w)) = published w.
Proof.
  unfold getPage. rewrite bind_run.
  pose proof (published_getSession sid E w) as Hpub.
  now destruct (getSession sid E w) as [[session|e] w1].
Qed.

Lemma published_createPage sid url E w :
  published (snd (createPage sid url E w)) = published w.
Proof.
  destruct (JsMap.get sid (sessions w)) as [s|] eqn:Hget.
  - destruct (newPage E (context s)) as [page|e] eqn:Hnew.
    + rewrite (createPage_with_page sid s url page E w Hget Hnew).
      now destruct (truthy url).
    + now rewrite (createPage_no_page sid s url e E w Hget Hnew).
  - now rewrite (createPage_absent sid url E w Hget).
Qed.

(** What the synchronous plane publishes for an action: nothing, or the
    one envelope of the intercepted pool method. *)
Lemma grpc_lifecycle a E w :
  exists lifecycle,
    published (snd (via_grpc a E w)) = published w ++ lifecycle /\
    Forall (fun ev => topic ev = "session.created" \/
                      topic ev = "page.created") lifecycle.
Proof.
  destruct a as [user_id md|sid url|sid pid url|sid pid selector
                |sid pid selector text];
    unfold via_grpc, grpc, grpc_request.
  - rewrite acquire_run. simpl. rewrite bind_run.
    pose proof (published_createSession (or_null user_id) (Some md) E w)
      as Hpub.
    destruct (createSession (or_null user_id) (Some md) E w) as [[id|e] w1];
      simpl in *; rewrite Hpub.
    + eexists; split; [reflexivity|]. constructor; auto.
    + exists []. now rewrite app_nil_r.
  - unfold grpc_createPage.
    rewrite try_catch_run, bind_run, wired_createPage_run.
    pose proof (published_createPage sid (Some url) E w) as Hpub.
    destruct (createPage sid (Some url) E w) as [[id|e] w1];
      simpl in *; rewrite Hpub.
    + eexists; split; [reflexivity|]. constructor; auto.
    + exists []. now rewrite app_nil_r.
  - exists []. rewrite app_nil_r. unfold navigatePage.
    rewrite try_catch_run, bind_run.
    pose proof (published_getPage sid pid E w) as Hpub.
    destruct (getPage sid pid E w) as [[[page|]|e] w1]; cbn in *; auto.
    repeat match goal with
           | |- context [match ?x with Ok _ => _ | Fails _ => _ end] =>
               destruct x; cbn
           end; auto.
  - exists []. rewrite app_nil_r. unfold grpc_click.
    rewrite try_catch_run, bind_run.
    pose proof (published_getPage sid pid E w) as Hpub.
    destruct (getPage sid pid E w) as [[[page|]|e] w1]; cbn in *; auto.
    repeat match goal with
           | |- context [match ?x with Ok _ => _ | Fails _ => _ end] =>
               destruct x; cbn
           end; auto.
  - exists []. rewrite app_nil_r. unfold grpc_type.
    rewrite try_catch_run, bind_run.
    pose proof (published_getPage sid pid E w) as Hpub.
    destruct (getPage sid pid E w) as [[[page|]|e] w1]; cbn in *; auto.
    repeat match goal with
           | |- context [match ?x with Ok _ => _ | Fails _ => _ end] =>
               destruct x; cbn
           end; auto.
Qed.

(** C5, as the code has it.  An action of the event plane and the same
    action of the synchronous plane leave the same pool, and every
    envelope published on the synchronous route is published on the
    event route; an action that succeeds on the event plane publishes
    one more envelope there, [browser.<action>].  The synchronous route
    publishes at most the ['session.created'] or ['page.created']
    envelope of the intercepted pool method, never [browser.<action>]. *)
Theorem C5_planes (client : ClientId) (a : Action) (E : Engine) (w : World) :
  pool (snd (via_ws client a E w)) = pool (snd (via_grpc a E w)) /\
  published (snd (via_ws client a E w)) =
    published (snd (via_grpc a E w)) ++
    match fst (browser_action_switch wired (ws_payload a) E w) with
    | Return _ => [action_event client a w]
    | Throw _ => []
    end /\
  exists lifecycle,
    published (snd (via_grpc a E w)) = published w ++ lifecycle /\
    Forall (fun ev => topic ev = "session.created" \/
                      topic ev = "page.created") lifecycle.
Proof.
  split; [|split; [|apply grpc_lifecycle]].
  all: unfold via_ws; rewrite handleBrowserAction_run.
  all: destruct (switch_and_handler a E w) as [Hpool Hpub].
  all: pose proof (preserves_browser_action_switch untimed wired
                     (methods_preserve_wired untimed) (ws_payload a) E w)
         as Hclock.
  all: unfold untimed in Hclock.
  all: destruct (browser_action_switch wired (ws_payload a) E w)
         as [[v|e] w1]; cbn [fst snd pool published] in *.
  - exact Hpool.
  - exact Hpool.
  - unfold action_event. now rewrite Hpub, Hclock.
  - now rewrite app_nil_r.
Qed.

Lemma C5_planes_witness :
  published (snd (via_ws "client_1" (DoNavigate "A" "P1" "https://example.org/")
                    (healthy 1%nat "") two_pages)) =
  published (snd (via_grpc (DoNavigate "A" "P1" "https://example.org/")
                    (healthy 1%nat "") two_pages)) ++
  [mkBroadcast "browser.navigate"
     (BrowserAction "client_1" (Some "A") (Some "P1") "navigate" 0) 0].
Proof.
  exact (proj1 (proj2 (C5_planes "client_1"
                         (DoNavigate "A" "P1" "https://example.org/")
                         (healthy 1%nat "") two_pages))).
Defined.

(** The specification's wording of C5 fails for a navigation that
    succeeds: the event plane publishes [browser.navigate], the
    synchronous plane publishes nothing. *)
Lemma C5_counterexample :
  published (snd (via_grpc (DoNavigate "A" "P1" "https://example.org/")
                    (healthy 1%nat "") two_pages)) = published two_pages /\
  published (snd (via_ws "client_1" (DoNavigate "A" "P1" "https://example.org/")
                    (healthy 1%nat "") two_pages)) =
    published two_pages ++
    [mkBroadcast "browser.navigate"
       (BrowserAction "client_1" (Some "A") (Some "P1") "navigate" 0) 0] /\
  ~ planes_agree "client_1" (DoNavigate "A" "P1" "https://example.org/")
      (healthy 1%nat "") two_pages.
Proof.
  split; [reflexivity|]. split; [reflexivity|].
  intros [_ Hpub]. apply (f_equal (@List.length Broadcast)) in Hpub.
  vm_compute in Hpub. discriminate.
Qed.

(** * Further properties of the pool *)

(** ** closePage *)

Lemma closePage_absent sid pid E w :
  JsMap.get sid (sessions w) = None ->
  closePage sid pid E w = (Return false, w).
Proof.
  intros Hget. unfold closePage.
  now rewrite bind_run, (getSession_absent sid E w Hget).
Qed.

Lemma closePage_no_page sid s pid E w :
  JsMap.get sid (sessions w) = Some s ->
  JsMap.get pid (pages s) = None ->
  closePage sid pid E w = (Return false, with_session sid (touched w s) [] w).
Proof.
  intros Hget Hpage. unfold closePage.
  rewrite bind_run, (getSession_present sid s E w Hget).
  unfold session_getPage. cbn [pages touched set_lastActivity].
  now rewrite Hpage.
Qed.

Lemma closePage_page sid s pid page E w :
  JsMap.get sid (sessions w) = Some s ->
  JsMap.get pid (pages s) = Some page ->
  closePage sid pid E w =
  match pageClose E page with
  | Ok _ =>
      (Return true,
       with_session sid
         (set_lastActivity (clock w)
            (set_pages (JsMap.delete pid (pages s)) s))
         [PageClose page] w)
  | Fails _ =>
      (Return false, with_session sid (touched w s) [PageClose page] w)
  end.
Proof.
  intros Hget Hpage. unfold closePage.
  rewrite bind_run, (getSession_present sid s E w Hget).
  unfold session_getPage. cbn [pages touched set_lastActivity].
  rewrite Hpage, try_catch_run, bind_run. unfold engine at 1.
  destruct (pageClose E page) as [[]|e].
  - rewrite bind_run.
    rewrite (removePage_present sid (touched w s) pid E).
    2:{ unfold with_session, sessions. cbn. apply JsMapFacts.get_set_same. }
    cbn [pages touched set_lastActivity]. unfold JsMap.has. rewrite Hpage.
    unfold with_session, sessions, touched. cbn.
    now rewrite set_set_same, !app_nil_r.
  - unfold with_session. cbn. now rewrite app_nil_r.
Qed.

Lemma wired_closePage_run sid pid E w :
  call_closePage wired sid pid E w =
  match closePage sid pid E w with
  | (Return true, w') =>
      (Return true, announced "page.closed" (PageClosed sid pid) w')
  | other => other
  end.
Proof.
  simpl. rewrite bind_run.
  now destruct (closePage sid pid E w) as [[[|]|e] w'].
Qed.

(** X1.  [closePage] never raises.  It returns true exactly when the
    session is in the table, the page is in the session and the engine
    closes the page; the page is then gone from the session and every
    other page stays.  When the engine fails to close the page the answer
    is false and the page stays registered.  The wired method publishes
    one ['page.closed'] envelope exactly when the answer is true. *)
Theorem X1_closePage (sid : SessionId) (pid : PageId) (E : Engine) (w : World) :
  let r := closePage sid pid E w in
  (exists b, fst r = Return b) /\
  (fst r = Return true <->
   exists s page, JsMap.get sid (sessions w) = Some s /\
                  JsMap.get pid (pages s) = Some page /\
                  pageClose E page = Ok tt) /\
  (forall s page,
     JsMap.get sid (sessions w) = Some s ->
     JsMap.get pid (pages s) = Some page ->
     exists s', JsMap.get sid (sessions (snd r)) = Some s' /\
       (forall pid', pid' <> pid ->
          JsMap.get pid' (pages s') = JsMap.get pid' (pages s)) /\
       JsMap.get pid (pages s') =
         match pageClose E page with Ok _ => None | Fails _ => Some page end) /\
  published (snd (call_closePage wired sid pid E w)) =
    published w ++
    match fst r with
    | Return true => [mkBroadcast "page.closed" (PageClosed sid pid) (clock w)]
    | _ => []
    end.
Proof.
  cbv zeta. rewrite wired_closePage_run.
  destruct (JsMap.get sid (sessions w)) as [s|] eqn:Hget.
  2:{ rewrite (closePage_absent sid pid E w Hget). cbn [fst snd].
      split; [now exists false|]. split; [|split].
      - split; [discriminate|]. intros [s [page [Hs _]]]. discriminate.
      - intros s page Hs. discriminate.
      - now rewrite app_nil_r. }
  destruct (JsMap.get pid (pages s)) as [page|] eqn:Hpage.
  2:{ rewrite (closePage_no_page sid s pid E w Hget Hpage). cbn [fst snd].
      split; [now exists false|]. split; [|split].
      - split; [discriminate|]. intros [s0 [page [Hs [Hp _]]]]. congruence.
      - intros s0 page Hs Hp. congruence.
      - cbn. now rewrite app_nil_r. }
  rewrite (closePage_page sid s pid page E w Hget Hpage).
  destruct (pageClose E page) as [[]|e] eqn:Hclose; cbn [fst snd].
  - split; [now exists true|]. split; [|split].
    + split; [|reflexivity]. intros _. exists s, page. auto.
    + intros s0 page0 Hs Hp. injection Hs as <-. rewrite Hpage in Hp.
      injection Hp as <-. rewrite Hclose.
      eexists. split; [|split].
      * unfold with_session, sessions. cbn. apply JsMapFacts.get_set_same.
      * intros pid' Hne. cbn. apply JsMapFacts.get_delete_other. congruence.
      * cbn. apply JsMapFacts.get_delete_same.
    + reflexivity.
  - split; [now exists false|]. split; [|split].
    + split; [discriminate|]. intros [s0 [page0 [Hs [Hp Hc]]]]. congruence.
    + intros s0 page0 Hs Hp. injection Hs as <-. rewrite Hpage in Hp.
      injection Hp as <-. rewrite Hclose.
      eexists. split; [|split].
      * unfold with_session, sessions. cbn. apply JsMapFacts.get_set_same.
      * intros pid' Hne. reflexivity.
      * cbn. exact Hpage.
    + cbn. now rewrite app_nil_r.
Qed.

(** ** Round trips *)

Lemma getPage_present sid s pid E w :
  JsMap.get sid (sessions w) = Some s ->
  getPage sid pid E w =
  (Return (JsMap.get pid (pages s)), with_session sid (touched w s) [] w).
Proof.
  intros Hget. unfold getPage.
  now rewrite bind_run, (getSession_present sid s E w Hget).
Qed.

Lemma getPage_absent sid pid E w :
  JsMap.get sid (sessions w) = None ->
  getPage sid pid E w = (Return None, w).
Proof.
  intros Hget. unfold getPage.
  now rewrite bind_run, (getSession_absent sid E w Hget).
Qed.

(** What a successful [createPage] has done. *)
Lemma createPage_returned sid url pid E w :
  fst (createPage sid url E w) = Return pid ->
  exists s page calls,
    JsMap.get sid (sessions w) = Some s /\
    newPage E (context s) = Ok page /\
    pid = uuid E /\
    snd (createPage sid url E w) =
      with_session sid (with_page E w page s) calls w.
Proof.
  intros Hret.
  destruct (JsMap.get sid (sessions w)) as [s|] eqn:Hget.
  2:{ rewrite (createPage_absent sid url E w Hget) in Hret. discriminate. }
  destruct (newPage E (context s)) as [page|e] eqn:Hnew.
  2:{ rewrite (createPage_no_page sid s url e E w Hget Hnew) in Hret.
      discriminate. }
  rewrite (createPage_with_page sid s url page E w Hget Hnew) in *.
  exists s, page.
  destruct (truthy url).
  - cbn [fst snd] in *. eexists. repeat split; auto.
    destruct (goto E page url (page_load_timeout w)); [|discriminate].
    now injection Hret.
  - cbn [fst snd] in *. eexists. repeat split; auto. now injection Hret.
Qed.

(** X2.  A page id returned by [createPage] is the id the call
    generated, and it is good for [getPage]: it gives the page that
    [newPage] answered for the session's context in that call, whatever
    the engine does meanwhile.  Once [closePage] has closed that page,
    [getPage] on the same id gives nothing. *)
Theorem X2_page_round_trip (sid : SessionId) (url : option string)
  (pid : PageId) (E : Engine) (w : World) :
  fst (createPage sid url E w) = Return pid ->
  let w1 := snd (createPage sid url E w) in
  exists s page,
    JsMap.get sid (sessions w) = Some s /\
    newPage E (context s) = Ok page /\
    pid = uuid E /\
    (forall E1, fst (getPage sid pid E1 w1) = Return (Some page)) /\
    (forall E1, pageClose E1 page = Ok tt ->
       fst (closePage sid pid E1 w1) = Return true /\
       forall E2,
         fst (getPage sid pid E2 (snd (closePage sid pid E1 w1))) =
         Return None).
Proof.
  intros Hret. cbv zeta.
  destruct (createPage_returned sid url pid E w Hret)
    as [s [page [calls [Hget [Hnew [-> Hw1]]]]]].
  rewrite Hw1. exists s, page.
  split; [exact Hget|]. split; [exact Hnew|]. split; [reflexivity|].
  assert (Hs1 : JsMap.get sid
            (sessions (with_session sid (with_page E w page s) calls w)) =
            Some (with_page E w page s)).
  { unfold with_session, sessions. cbn. apply JsMapFacts.get_set_same. }
  assert (Hp1 : JsMap.get (uuid E) (pages (with_page E w page s)) = Some page).
  { unfold with_page. cbn. apply JsMapFacts.get_set_same. }
  split.
  - intros E1. rewrite (getPage_present sid _ (uuid E) E1 _ Hs1).
    cbn [fst]. now rewrite Hp1.
  - intros E1 Hclose.
    rewrite (closePage_page sid _ (uuid E) page E1 _ Hs1 Hp1), Hclose.
    cbn [fst snd]. split; [reflexivity|]. intros E2.
    erewrite getPage_present.
    2:{ unfold with_session, sessions. cbn. apply JsMapFacts.get_set_same. }
    cbn [fst pages set_lastActivity set_pages].
    now rewrite JsMapFacts.get_delete_same.
Qed.

Lemma X2_page_round_trip_witness :
  (forall E1,
     fst (getPage "A" "P1" E1
            (snd (createPage "A" None (paging 7%nat "P1") one_session))) =
     Return (Some 7%nat)) /\
  (forall E1, pageClose E1 7%nat = Ok tt ->
     fst (closePage "A" "P1" E1
            (snd (createPage "A" None (paging 7%nat "P1") one_session))) =
     Return true /\
     forall E2,
       fst (getPage "A" "P1" E2
              (snd (closePage "A" "P1" E1
                      (snd (createPage "A" None (paging 7%nat "P1")
                              one_session))))) = Return None).
Proof.
  destruct (X2_page_round_trip "A" None "P1" (paging 7%nat "P1") one_session
              eq_refl)
    as [s [page [Hget [Hnew [_ [Hfound Hclosed]]]]]].
  simpl in Hnew. injection Hnew as <-.
  split; [exact Hfound | exact Hclosed].
Defined.

Lemma copy_metadata_fields userId md s :
  copy_metadata userId md s =
  set_metadata (metadata (copy_metadata userId md s)) s.
Proof.
  unfold copy_metadata.
  assert (Hfold : forall entries s0,
    fold_left (fun s1 kv =>
       set_metadata (JsMap.set (fst kv) (snd kv) (metadata s1)) s1)
       entries s0 =
    set_metadata
      (metadata (fold_left (fun s1 kv =>
         set_metadata (JsMap.set (fst kv) (snd kv) (metadata s1)) s1)
         entries s0)) s0).
  { induction entries as [|kv entries IH]; intros s0; simpl.
    - now destruct s0.
    - rewrite IH at 1. reflexivity. }
  destruct md as [entries|]; simpl.
  - pose proof (Hfold entries s) as Ht.
    set (t := fold_left _ entries s) in *.
    destruct (truthy userId), userId; try exact Ht;
      rewrite Ht; destruct s; reflexivity.
  - destruct (truthy userId), userId; destruct s; reflexivity.
Qed.

Lemma copy_metadata_user_id u md s :
  u <> "" ->
  JsMap.get "user_id" (metadata (copy_metadata (Some u) md s)) = Some u.
Proof.
  intros Hu. unfold copy_metadata. simpl.
  destruct (String.eqb_spec u ""); [contradiction|]. simpl.
  apply JsMapFacts.get_set_same.
Qed.

(** What a successful [createSession] has done. *)
Lemma createSession_returned userId md id E w :
  fst (createSession userId md E w) = Return id ->
  exists ctx bs calls,
    activeSessionCount w < maxBrowsers (pool w) /\
    id = uuid E /\
    snd (createSession userId md E w) = created userId md E ctx bs calls w.
Proof.
  intros Hret.
  destruct (Z_le_gt_dec (maxBrowsers (pool w)) (activeSessionCount w))
    as [Hfull|Hroom].
  { rewrite createSession_at_capacity in Hret by exact Hfull. discriminate. }
  assert (Hlt : activeSessionCount w < maxBrowsers (pool w)) by lia.
  pose proof (createSession_below_capacity userId md E w Hlt) as Hout.
  destruct (createSession userId md E w) as [r w']. cbn [fst snd] in *.
  subst r. inversion Hout; subst; eauto 8.
Qed.

(** X3.  An id returned by [createSession] is good for [getSession]: the
    session found carries that id, no page, the time of creation as
    [createdAt] and, for a non-empty [userId], the entry ['user_id'].
    After [closeSession] on the id, which answers true, [getSession]
    finds nothing and [createPage] raises "session not found". *)
Theorem X3_session_round_trip (userId : option string)
  (md : option (JsMap.t string)) (id : SessionId) (E : Engine) (w : World) :
  fst (createSession userId md E w) = Return id ->
  let w1 := snd (createSession userId md E w) in
  (forall E1, exists s,
     fst (getSession id E1 w1) = Return (Some s) /\
     sessionId s = id /\ pages s = [] /\ createdAt s = clock w /\
     lastActivity s = clock w /\
     (forall u, userId = Some u -> u <> "" ->
                JsMap.get "user_id" (metadata s) = Some u)) /\
  (forall E1,
     fst (closeSession id E1 w1) = Return true /\
     forall E2 url,
       fst (getSession id E2 (snd (closeSession id E1 w1))) = Return None /\
       fst (createPage id url E2 (snd (closeSession id E1 w1))) =
       Throw (SessionNotFound id)).
Proof.
  intros Hret. cbv zeta.
  destruct (createSession_returned userId md id E w Hret)
    as [ctx [bs [calls [_ [-> Hw1]]]]].
  rewrite Hw1.
  set (s0 := copy_metadata userId md
               (new_BrowserSession (uuid E) ctx (clock w))).
  assert (Hs1 : JsMap.get (uuid E)
            (sessions (created userId md E ctx bs calls w)) = Some s0).
  { unfold created, sessions. cbn. apply JsMapFacts.get_set_same. }
  split.
  - intros E1. rewrite (getSession_present (uuid E) s0 E1 _ Hs1).
    eexists. split; [reflexivity|].
    unfold s0. rewrite copy_metadata_fields. cbn.
    repeat split; auto.
    intros u -> Hu. now apply copy_metadata_user_id.
  - intros E1. rewrite (closeSession_present (uuid E) s0 E1 _ Hs1).
    cbn [fst snd]. split; [reflexivity|]. intros E2 url.
    assert (Hgone : JsMap.get (uuid E)
              (sessions (without_session (uuid E) (close_calls s0)
                           (created userId md E ctx bs calls w))) = None).
    { unfold without_session, sessions at 1. cbn.
      apply JsMapFacts.get_delete_same. }
    rewrite (getSession_absent _ E2 _ Hgone).
    rewrite (createPage_absent _ url E2 _ Hgone). auto.
Qed.

Lemma X3_session_round_trip_witness :
  exists s,
    fst (getSession "B" (healthy 1%nat "")
           (snd (createSession (Some "bob") None (healthy 1%nat "B")
                   one_session))) = Return (Some s) /\
    sessionId s = "B" /\
    JsMap.get "user_id" (metadata s) = Some "bob".
Proof.
  destruct (X3_session_round_trip (Some "bob") None "B" (healthy 1%nat "B")
              one_session eq_refl) as [Hget _].
  destruct (Hget (healthy 1%nat "")) as [s [Hs [Hid [_ [_ [_ Hu]]]]]].
  exists s. split; [exact Hs|]. split; [exact Hid|].
  apply Hu; [reflexivity | discriminate].
Defined.

(** ** Capacity is given back by closeSession *)

Lemma length_delete_present {V} k (v : V) m :
  JsMap.wf m -> JsMap.get k m = Some v ->
  S (List.length (JsMap.delete k m)) = List.length m.
Proof.
  unfold JsMap.wf, JsMap.keys.
  induction m as [|[k0 v0] m IH]; simpl; [discriminate|].
  intros Hnd Hget. inversion Hnd as [|? ? Hnotin Hnd']; subst.
  destruct (String.eqb_spec k k0) as [->|Hne].
  - rewrite JsMapFacts.delete_absent; auto.
    now apply JsMapFacts.get_none_keys.
  - simpl. now rewrite IH.
Qed.

(** X4.  On a well-formed table [closeSession] of a session that is
    present lowers the session count by exactly one, so a pool that was
    within its bound has room again: the next [createSession] does not
    raise the capacity error, whatever the engine does. *)
Theorem X4_closeSession_frees_slot (sid : SessionId) (s : BrowserSession)
  (E : Engine) (w : World) :
  JsMap.wf (sessions w) ->
  JsMap.get sid (sessions w) = Some s ->
  let w1 := snd (closeSession sid E w) in
  activeSessionCount w1 = activeSessionCount w - 1 /\
  (activeSessionCount w <= maxBrowsers (pool w) ->
   forall userId md E1,
     fst (createSession userId md E1 w1) <> Throw PoolAtCapacity).
Proof.
  intros Hwf Hget. cbv zeta.
  rewrite (closeSession_present sid s E w Hget). cbn [snd].
  assert (Hcount : activeSessionCount (without_session sid (close_calls s) w)
                   = activeSessionCount w - 1).
  { unfold activeSessionCount, without_session, sessions at 1, JsMap.size.
    cbn. pose proof (length_delete_present sid s (sessions w) Hwf Hget).
    unfold sessions in *. lia. }
  split; [exact Hcount|].
  intros Hbound userId md E1 Hthrow.
  assert (Hlt : activeSessionCount (without_session sid (close_calls s) w) <
                maxBrowsers (pool (without_session sid (close_calls s) w))).
  { rewrite Hcount. cbn. lia. }
  pose proof (createSession_below_capacity userId md E1 _ Hlt) as Hout.
  destruct (createSession userId md E1
              (without_session sid (close_calls s) w)) as [r w'].
  cbn [fst] in Hthrow. subst r. inversion Hout.
Qed.

Lemma X4_closeSession_frees_slot_witness :
  fst (createSession None None (healthy 1%nat "C") two_sessions) =
    Throw PoolAtCapacity /\
  fst (createSession None None (healthy 1%nat "C")
         (snd (closeSession "A" (healthy 1%nat "") two_sessions))) <>
    Throw PoolAtCapacity.
Proof.
  split; [reflexivity|].
  assert (Hwf : JsMap.wf (sessions two_sessions)).
  { repeat constructor; simpl; intuition discriminate. }
  destruct (X4_closeSession_frees_slot "A" (mkSession "A" 101%nat 0 0 [] [])
              (healthy 1%nat "") two_sessions Hwf eq_refl) as [_ Hroom].
  apply Hroom. vm_compute. discriminate.
Defined.

(** ** The reaper over time *)

Lemma sweep_loop_settings E (ids : list SessionId) :
  forall w,
    browserTimeout
      (pool (snd (for_of ids (fun sid => call_closeSession wired sid ;; ret tt)
                    E w))) = browserTimeout (pool w).
Proof.
  induction ids as [|sid ids IH]; intros w; cbn [for_of].
  - reflexivity.
  - rewrite bind_run, bind_run, wired_closeSession_run.
    destruct (JsMap.get sid (sessions w)) as [s|]; cbn [ret]; now rewrite IH.
Qed.

Lemma expired_ids_nodup w : JsMap.wf (sessions w) -> NoDup (expired_ids w).
Proof.
  unfold expired_ids, JsMap.wf, JsMap.keys.
  generalize (sessions w). intros m.
  induction m as [|e m IH]; intros Hm; simpl; auto.
  inversion Hm as [|? ? Hnotin Hm']; subst.
  destruct (expired_in w (snd e)); simpl; auto. constructor; auto.
  intros Hin. apply Hnotin. apply in_map_iff in Hin.
  destruct Hin as [e' [He' Hin]]. apply filter_In in Hin.
  apply in_map_iff. exists e'. tauto.
Qed.

(** The worlds of a sweep: the table filtered, the envelopes appended,
    time and timeout as they were. *)
Lemma reaper_sweep_result E w :
  JsMap.wf (sessions w) ->
  let w' := snd (reaper_sweep wired E w) in
  sessions w' =
    filter (fun entry => negb (expired_in w (snd entry))) (sessions w) /\
  published w' = published w ++ map (closed_event (clock w)) (expired_ids w) /\
  clock w' = clock w /\
  browserTimeout (pool w') = browserTimeout (pool w).
Proof.
  intros Hwf. cbv zeta.
  change (reaper_sweep wired E w) with
    (for_of (expired_ids w)
       (fun sid => call_closeSession wired sid ;; ret tt) E w).
  destruct (sweep_loop E (expired_ids w) w (expired_ids_nodup w Hwf))
    as [_ [Hsess [Hpub Hclock]]].
  { intros sid Hin. unfold expired_ids in Hin. apply in_map_iff in Hin.
    destruct Hin as [[k s] [Hk Hin]]. simpl in Hk. subst k.
    apply filter_In in Hin. destruct Hin as [Hin _].
    now rewrite (JsMapFacts.in_get sid s (sessions w) Hwf Hin). }
  split; [|split; [exact Hpub|split; [exact Hclock|]]].
  - rewrite Hsess, fold_delete_filter. apply filter_ext_in.
    intros e Hin. unfold expired_ids.
    now rewrite (selected_keys (fun entry => expired_in w (snd entry))
                   (sessions w) e Hwf Hin).
  - apply sweep_loop_settings.
Qed.

(** X5.  The deadline of the reaper is exact.  A session whose last
    activity is now survives the sweep that runs [ms] milliseconds later
    when [ms] is at most [browserTimeout * 1000], unchanged, and is
    removed by it when [ms] is larger. *)
Theorem X5_reaper_deadline (sid : SessionId) (s : BrowserSession) (ms : N)
  (E1 E2 : Engine) (w : World) :
  JsMap.wf (sessions w) ->
  JsMap.get sid (sessions w) = Some s ->
  lastActivity s = clock w ->
  JsMap.get sid
    (sessions (snd (reaper_sweep wired E2 (snd (tick ms E1 w))))) =
  if Z.of_N ms <=? browserTimeout (pool w) * 1000 then Some s else None.
Proof.
  intros Hwf Hget Hlast.
  set (w1 := snd (tick ms E1 w)).
  assert (Hwf1 : JsMap.wf (sessions w1)) by exact Hwf.
  assert (Hget1 : JsMap.get sid (sessions w1) = Some s) by exact Hget.
  destruct (reaper_sweep_result E2 w1 Hwf1) as [Hsess _].
  rewrite Hsess, (get_filter _ _ sid s Hwf1 Hget1).
  unfold expired_in, isExpired, w1. cbn. rewrite Hlast.
  destruct (Z.leb_spec (Z.of_N ms) (browserTimeout (pool w) * 1000)) as [Hle|Hgt].
  - assert (H : (browserTimeout (pool w) * 1000 <?
                 clock w + Z.of_N ms - clock w) = false)
      by (apply Z.ltb_ge; lia).
    now rewrite H.
  - assert (H : (browserTimeout (pool w) * 1000 <?
                 clock w + Z.of_N ms - clock w) = true)
      by (apply Z.ltb_lt; lia).
    now rewrite H.
Qed.

Lemma X5_reaper_deadline_witness :
  JsMap.get "B"
    (sessions (snd (reaper_sweep wired (healthy 1%nat "")
                      (snd (tick 300000 (healthy 1%nat "") idle_A))))) =
    Some (mkSession "B" 101%nat 0 301000 [] []) /\
  JsMap.get "B"
    (sessions (snd (reaper_sweep wired (healthy 1%nat "")
                      (snd (tick 300001 (healthy 1%nat "") idle_A))))) = None.
Proof.
  assert (Hwf : JsMap.wf (sessions idle_A)).
  { repeat constructor; simpl; intuition discriminate. }
  split.
  - exact (X5_reaper_deadline "B" _ 300000 (healthy 1%nat "")
             (healthy 1%nat "") idle_A Hwf eq_refl eq_refl).
  - exact (X5_reaper_deadline "B" _ 300001 (healthy 1%nat "")
             (healthy 1%nat "") idle_A Hwf eq_refl eq_refl).
Defined.

(** X6.  A second sweep at the same time finds nothing to do: it
    removes no session and publishes no envelope. *)
Theorem X6_reaper_sweep_idempotent (E1 E2 : Engine) (w : World) :
  JsMap.wf (sessions w) ->
  let w1 := snd (reaper_sweep wired E1 w) in
  let w2 := snd (reaper_sweep wired E2 w1) in
  sessions w2 = sessions w1 /\ published w2 = published w1.
Proof.
  intros Hwf. cbv zeta.
  destruct (reaper_sweep_result E1 w Hwf) as [Hs1 [_ [Hc1 Ht1]]].
  set (w1 := snd (reaper_sweep wired E1 w)) in *.
  assert (Hwf1 : JsMap.wf (sessions w1)).
  { apply (preserves_reaper_sweep table_kept wired
             (methods_preserve_wired table_kept) E1 w Hwf). }
  destruct (reaper_sweep_result E2 w1 Hwf1) as [Hs2 [Hp2 _]].
  assert (Hnone : filter (fun entry => expired_in w1 (snd entry)) (sessions w1)
                  = []).
  { rewrite Hs1. unfold expired_in. rewrite Hc1, Ht1.
    assert (Hnot : forall (m : JsMap.t BrowserSession) P,
              filter P (filter (fun e => negb (P e)) m) = []).
    { induction m as [|e m IH]; intros P; cbn [filter]; auto.
      destruct (P e) eqn:He; cbn [negb filter]; auto.
      now rewrite He. }
    apply (Hnot (sessions w)
             (fun entry =>
                isExpired (clock w) (browserTimeout (pool w)) (snd entry))). }
  split.
  - rewrite Hs2.
    assert (Hall : forall (m : JsMap.t BrowserSession) P,
              filter P m = [] -> filter (fun e => negb (P e)) m = m).
    { induction m as [|e m IH]; intros P HP; simpl in *; auto.
      destruct (P e); [discriminate|]. simpl. now rewrite IH. }
    now apply Hall.
  - rewrite Hp2. unfold expired_ids. rewrite Hnone. simpl.
    now rewrite app_nil_r.
Qed.

Lemma X6_reaper_sweep_idempotent_witness :
  published (snd (reaper_sweep wired (healthy 1%nat "")
                    (snd (reaper_sweep wired (healthy 1%nat "") idle_A)))) =
  published (snd (reaper_sweep wired (healthy 1%nat "") idle_A)).
Proof.
  assert (Hwf : JsMap.wf (sessions idle_A)).
  { repeat constructor; simpl; intuition discriminate. }
  apply (X6_reaper_sweep_idempotent (healthy 1%nat "") (healthy 1%nat "")
           idle_A Hwf).
Defined.

(** ** Engines that disconnect *)

Lemma remove_first_in b b' bs : In b' (remove_first b bs) -> In b' bs.
Proof.
  induction bs as [|b0 bs IH]; simpl; auto.
  destruct (Nat.eqb b b0); simpl; intuition.
Qed.

Lemma remove_first_nodup b bs : NoDup bs -> NoDup (remove_first b bs).
Proof.
  induction bs as [|b0 bs IH]; simpl; auto.
  intros Hnd. inversion Hnd as [|? ? Hnotin Hnd']; subst.
  destruct (Nat.eqb b b0); auto.
  constructor; auto. intros Hin. apply Hnotin.
  now apply remove_first_in in Hin.
Qed.

Lemma remove_first_gone b bs : NoDup bs -> ~ In b (remove_first b bs).
Proof.
  induction bs as [|b0 bs IH]; simpl; auto.
  intros Hnd. inversion Hnd as [|? ? Hnotin Hnd']; subst.
  destruct (Nat.eqb_spec b b0) as [->|Hne]; auto.
  intros [Heq|Hin]; [congruence|]. now apply IH.
Qed.

(** X7.  A disconnecting engine takes no session with it.  After any
    number of ['disconnected'] events the session table, the published
    envelopes and the engine calls are what they were; the browsers
    named are gone from the list and none is added.  A pool that was at
    capacity still refuses [createSession]: the sessions of a lost
    engine hold their slots until they are closed or reaped. *)
Theorem X7_disconnect_keeps_sessions (bs : list Browser) (E : Engine)
  (pm : PoolMethods) (w : World) :
  let w' := run pm (disconnections E bs) w in
  sessions w' = sessions w /\
  published w' = published w /\
  engineCalls w' = engineCalls w /\
  (forall b, In b (browsers (pool w')) -> In b (browsers (pool w))) /\
  (NoDup (browsers (pool w)) ->
   forall b, In b bs -> ~ In b (browsers (pool w'))) /\
  (maxBrowsers (pool w) <= activeSessionCount w ->
   forall userId md E1,
     createSession userId md E1 w' = (Throw PoolAtCapacity, w')).
Proof.
  cbv zeta. revert w.
  induction bs as [|b bs IH]; intros w; simpl.
  - repeat split; auto.
    intros Hfull userId md E1. now apply createSession_at_capacity.
  - set (w1 := step pm E (OpDisconnected b) w).
    assert (Hw1 : w1 = set_pool (set_browsers
                         (remove_first b (browsers (pool w))) (pool w)) w)
      by reflexivity.
    destruct (IH w1) as [Hs [Hp [Hc [Hin [Hgone Hcap]]]]].
    rewrite Hs, Hp, Hc, Hw1. cbn.
    split; [reflexivity|]. split; [reflexivity|]. split; [reflexivity|].
    split; [|split].
    + intros b' Hb'. apply Hin in Hb'. rewrite Hw1 in Hb'. cbn in Hb'.
      now apply remove_first_in in Hb'.
    + intros Hnd b' [<-|Hb'] Hcontra.
      * apply Hin in Hcontra. rewrite Hw1 in Hcontra. cbn in Hcontra.
        now apply (remove_first_gone b (browsers (pool w))).
      * revert Hcontra. apply Hgone; auto.
        rewrite Hw1. cbn. now apply remove_first_nodup.
    + intros Hfull. apply Hcap. rewrite Hw1. exact Hfull.
Qed.

(** ** Statistics and health *)

Lemma getStats_run startTime E w :
  getStats startTime E w =
  (Return (mkPoolStats
             (Z.of_nat (List.length (browsers (pool w))))
             (activeSessionCount w)
             (availableCount (pool w))
             ((clock w - startTime) / 1000)
             (map session_getStats (JsMap.values (sessions w)))),
   w).
Proof. reflexivity. Qed.

(** X8.  What the statistics say, in any state of the pool.
    [activeSessions] is the size of the session table and
    [availableSlots] is [max(0, maxBrowsers - activeSessions)]: the two
    add up to [maxBrowsers] whenever the session count is within the
    maximum, and [availableSlots] is 0 when it is beyond.  There is one
    entry of [sessionStats] per session, reading the statistics changes
    nothing, and [createSession] raises the capacity error exactly when
    [availableSlots] is 0. *)
Theorem X8_stats_add_up (startTime : Z) (E : Engine) (w : World) :
  exists stats,
    getStats startTime E w = (Return stats, w) /\
    stat_activeSessions stats = activeSessionCount w /\
    availableSlots stats =
      Z.max 0 (maxBrowsers (pool w) - activeSessionCount w) /\
    (activeSessionCount w <= maxBrowsers (pool w) <->
     stat_activeSessions stats + availableSlots stats = maxBrowsers (pool w)) /\
    (maxBrowsers (pool w) <= activeSessionCount w <->
     availableSlots stats = 0) /\
    Z.of_nat (List.length (sessionStats stats)) = stat_activeSessions stats /\
    (forall userId md E1,
       fst (createSession userId md E1 w) = Throw PoolAtCapacity <->
       availableSlots stats = 0).
Proof.
  rewrite getStats_run. eexists. split; [reflexivity|].
  cbn [stat_activeSessions availableSlots sessionStats].
  unfold availableCount. fold (sessions w). fold (activeSessionCount w).
  split; [reflexivity|]. split; [reflexivity|].
  split; [lia|]. split; [lia|]. split.
  - unfold activeSessionCount, JsMap.size, JsMap.values.
    now rewrite !length_map.
  - intros userId md E1. split.
    + intros Hthrow.
      destruct (Z_le_gt_dec (maxBrowsers (pool w)) (activeSessionCount w))
        as [Hfull|Hroom]; [lia|].
      assert (Hlt : activeSessionCount w < maxBrowsers (pool w)) by lia.
      pose proof (createSession_below_capacity userId md E1 w Hlt) as Hout.
      destruct (createSession userId md E1 w) as [r w']. cbn [fst] in Hthrow.
      subst r. inversion Hout.
    + intros Hzero. rewrite createSession_at_capacity; [reflexivity|lia].
Qed.

Lemma getHealthStatus_run startTime E w :
  getHealthStatus startTime E w =
  (Return (mkHealthStatus (isReady (pool w))
             (if isReady (pool w) then "healthy" else "degraded")
             (mkPoolStats
                (Z.of_nat (List.length (browsers (pool w))))
                (activeSessionCount w)
                (availableCount (pool w))
                ((clock w - startTime) / 1000)
                (map session_getStats (JsMap.values (sessions w))))),
   w).
Proof. reflexivity. Qed.

(** X9.  What the health status tells a caller.  [status] is "healthy"
    exactly when [ready] holds.  A ready pool takes the next
    [createSession] without the capacity error and without launching a
    browser.  The converse fails: a pool that has lost all its browsers
    reports "degraded", yet with room left [createSession] still works,
    on a browser it launches. *)
Theorem X9_health_status (startTime : Z) (E : Engine) (w : World) :
  exists h,
    getHealthStatus startTime E w = (Return h, w) /\
    (status h = "healthy" <-> ready h = true) /\
    (ready h = true ->
     forall userId md E1,
       fst (createSession userId md E1 w) <> Throw PoolAtCapacity /\
       launches (engineCalls (snd (createSession userId md E1 w))) =
       launches (engineCalls w)) /\
    (browsers (pool w) = [] ->
     ready h = false /\
     (activeSessionCount w < maxBrowsers (pool w) ->
      forall userId md E1 b ctx,
        launch E1 = Ok b -> newContext E1 b = Ok ctx ->
        fst (createSession userId md E1 w) = Return (uuid E1) /\
        browsers (pool (snd (createSession userId md E1 w))) = [b])).
Proof.
  rewrite getHealthStatus_run. eexists. split; [reflexivity|].
  cbn [status ready]. split; [|split].
  - destruct (isReady (pool w)); split; auto; discriminate.
  - intros Hready userId md E1. unfold isReady in Hready.
    apply andb_prop in Hready. destruct Hready as [Hbs Hroom].
    apply Z.ltb_lt in Hbs, Hroom.
    pose proof (createSession_below_capacity userId md E1 w Hroom) as Hout.
    destruct (createSession userId md E1 w) as [r w']. cbn [fst snd].
    assert (Hfilter : forall calls b,
              launches (calls ++ [NewContext b]) = launches calls).
    { intros calls b. unfold launches. rewrite filter_app, length_app.
      simpl. lia. }
    inversion Hout as [e Hb Hl|b e Hb Hl Hc|b ctx Hb Hl Hc|b bs e Hb Hc
                      |b bs ctx Hb Hc]; subst;
      try (rewrite Hb in Hbs; simpl in Hbs; lia);
      (split; [discriminate|]); unfold created, refused; cbn;
      apply Hfilter.
  - intros Hempty. split.
    + unfold isReady. now rewrite Hempty.
    + intros Hroom userId md E1 b ctx Hl Hc.
      pose proof (createSession_below_capacity userId md E1 w Hroom) as Hout.
      destruct (createSession userId md E1 w) as [r w']. cbn [fst snd].
      inversion Hout; subst; try congruence.
      assert (b0 = b) by congruence. subst b0. auto.
Qed.

(** ** The synchronous plane, handler by handler *)

(** X10.  Asking for a session is activity.  For a session that is
    present the [getSession] handler answers with [last_activity] equal
    to the current time, whatever it was before, and leaves the session
    refreshed; for an absent one it answers NOT_FOUND and changes
    nothing.  The [getStats] handler reads every session and refreshes
    none: the world is as it was. *)
Theorem X10_session_info_refreshes (sid : SessionId) (startTime : Z)
  (E : Engine) (w : World) :
  (forall s, JsMap.get sid (sessions w) = Some s ->
     fst (grpc_getSession sid E w) =
       Return (SessionInfo (sessionId s) (createdAt s) (clock w)
                 (JsMap.keys (pages s)) (metadata s)) /\
     refreshed sid w (snd (grpc_getSession sid E w))) /\
  (JsMap.get sid (sessions w) = None ->
     grpc_getSession sid E w =
     (Return (InfoError NOT_FOUND "Session not found"), w)) /\
  snd (grpc_getStats startTime E w) = w.
Proof.
  split; [|split].
  - intros s Hget. unfold grpc_getSession.
    rewrite try_catch_run, bind_run, (getSession_present sid s E w Hget).
    cbn [fst snd]. split; [reflexivity|].
    now apply refreshed_with_session.
  - intros Hget. unfold grpc_getSession.
    now rewrite try_catch_run, bind_run, (getSession_absent sid E w Hget).
  - reflexivity.
Qed.

Lemma release_run sid E w :
  release wired sid E w =
  match JsMap.get sid (sessions w) with
  | Some s =>
      (Return (GrpcOk (ReleaseAck true "Session released")),
       announced "session.closed" (SessionClosed sid)
         (without_session sid (close_calls s) w))
  | None => (Return (GrpcOk (ReleaseAck false "Session not found")), w)
  end.
Proof.
  unfold release. rewrite try_catch_run, bind_run, wired_closeSession_run.
  now destruct (JsMap.get sid (sessions w)).
Qed.

(** X11.  [release] never answers with an error status.  It answers
    [success = true] exactly when the session was in the table, and then
    the session is gone and one ['session.closed'] envelope is
    published; releasing again, or releasing an unknown id, answers
    [success = false] with "Session not found" and changes nothing. *)
Theorem X11_release (sid : SessionId) (E : Engine) (w : World) :
  let r := release wired sid E w in
  exists ok,
    fst r = Return (GrpcOk (ReleaseAck ok
                      (if ok then "Session released" else "Session not found")))
    /\
    (ok = true <-> JsMap.get sid (sessions w) <> None) /\
    JsMap.get sid (sessions (snd r)) = None /\
    published (snd r) =
      published w ++ (if ok then [closed_event (clock w) sid] else []) /\
    (forall E1,
       release wired sid E1 (snd r) =
       (Return (GrpcOk (ReleaseAck false "Session not found")), snd r)).
Proof.
  cbv zeta. rewrite release_run.
  destruct (JsMap.get sid (sessions w)) as [s|] eqn:Hget; cbn [fst snd].
  - exists true. split; [reflexivity|]. split; [split; congruence|].
    assert (Hgone : JsMap.get sid
              (sessions (announced "session.closed" (SessionClosed sid)
                           (without_session sid (close_calls s) w))) = None).
    { unfold sessions. cbn. apply JsMapFacts.get_delete_same. }
    split; [exact Hgone|]. split; [reflexivity|].
    intros E1. now rewrite release_run, Hgone.
  - exists false. split; [reflexivity|]. split; [split; congruence|].
    split; [exact Hget|]. split; [now rewrite app_nil_r|].
    intros E1. now rewrite release_run, Hget.
Qed.

(** X12.  The [createPage] handler maps every failure to INTERNAL, an
    unknown session included: it answers INTERNAL with "Session <id> not
    found" and never NOT_FOUND.  On success it answers the page id
    [BrowserPool.createPage] returned. *)
Theorem X12_grpc_createPage (sid url : string) (E : Engine) (w : World) :
  fst (grpc_createPage wired sid url E w) =
    match fst (createPage sid (Some url) E w) with
    | Return pid => Return (GrpcOk (PageHandle sid pid))
    | Throw e => Return (GrpcError INTERNAL (message e))
    end /\
  (JsMap.get sid (sessions w) = None ->
   grpc_createPage wired sid url E w =
   (Return (GrpcError INTERNAL
              (String.append "Session " (String.append sid " not found"))),
    w)) /\
  (forall msg,
     fst (grpc_createPage wired sid url E w) <>
     Return (GrpcError NOT_FOUND msg)).
Proof.
  assert (Hrun : fst (grpc_createPage wired sid url E w) =
            match fst (createPage sid (Some url) E w) with
            | Return pid => Return (GrpcOk (PageHandle sid pid))
            | Throw e => Return (GrpcError INTERNAL (message e))
            end).
  { unfold grpc_createPage.
    rewrite try_catch_run, bind_run, wired_createPage_run.
    now destruct (createPage sid (Some url) E w) as [[pid|e] w']. }
  split; [exact Hrun|]. split.
  - intros Hget. unfold grpc_createPage.
    rewrite try_catch_run, bind_run, wired_createPage_run.
    now rewrite (createPage_absent sid (Some url) E w Hget).
  - intros msg. rewrite Hrun.
    destruct (fst (createPage sid (Some url) E w)); discriminate.
Qed.

Lemma getPage_run sid pid E w :
  fst (getPage sid pid E w) = Return (page_of w sid pid) /\
  engineCalls (snd (getPage sid pid E w)) = engineCalls w /\
  config (snd (getPage sid pid E w)) = config w /\
  (forall s, JsMap.get sid (sessions w) = Some s ->
     snd (getPage sid pid E w) = with_session sid (touched w s) [] w).
Proof.
  unfold page_of.
  destruct (JsMap.get sid (sessions w)) as [s|] eqn:Hget.
  - rewrite (getPage_present sid s pid E w Hget). cbn.
    rewrite app_nil_r. repeat split. now intros s0 [= <-].
  - rewrite (getPage_absent sid pid E w Hget). cbn. repeat split.
    discriminate.
Qed.

(** X13.  [navigatePage] never answers INTERNAL and never raises.  When
    the session or the page is unknown it answers NOT_FOUND and calls
    the engine not at all.  Otherwise it calls [goto] once, with the
    request's [timeout_ms] or, when that is 0, with
    [MAX_PAGE_LOAD_TIME * 1000]; a navigation that fails is answered
    with [success = false] and the engine's message, under an OK status.
    Whenever the session exists, its [lastActivity] is refreshed. *)
Theorem X13_navigatePage (sid : SessionId) (pid : PageId) (url : string)
  (timeout_ms : Z) (E : Engine) (w : World) :
  let r := navigatePage sid pid url timeout_ms E w in
  let timeout :=
    Some (if timeout_ms =? 0 then MAX_PAGE_LOAD_TIME (config w) * 1000
          else timeout_ms) in
  (forall s, JsMap.get sid (sessions w) = Some s -> refreshed sid w (snd r)) /\
  match page_of w sid pid with
  | None =>
      fst r = Return (GrpcError NOT_FOUND "Page not found") /\
      engineCalls (snd r) = engineCalls w
  | Some page =>
      match goto E page (Some url) timeout with
      | Fails e =>
          fst r =
            Return (GrpcOk (NavigateResponse false "" "" (message (Playwright e))))
          /\
          engineCalls (snd r) =
            engineCalls w ++ [Goto page (Some url) timeout]
      | Ok final_url =>
          fst r =
            match title E page with
            | Ok t => Return (GrpcOk (NavigateResponse true final_url t ""))
            | Fails e =>
                Return (GrpcOk (NavigateResponse false "" ""
                                  (message (Playwright e))))
            end /\
          engineCalls (snd r) =
            engineCalls w ++ [Goto page (Some url) timeout; PageTitle page]
      end
  end.
Proof.
  cbv zeta. unfold navigatePage. rewrite try_catch_run, bind_run.
  destruct (getPage_run sid pid E w) as [Hfst [Hcalls [Hcfg Hsnd]]].
  destruct (getPage sid pid E w) as [r1 w1]. cbn [fst snd] in *. subst r1.
  unfold or_default.
  split.
  - intros s Hget. specialize (Hsnd s Hget). subst w1.
    destruct (page_of w sid pid) as [page|]; cbn.
    + destruct (goto E page (Some url) _); cbn;
        [destruct (title E page); cbn|];
        (eexists; split;
         [ unfold sessions; cbn; apply JsMapFacts.get_set_same
         | reflexivity ]).
    + eexists; split;
        [ unfold sessions; cbn; apply JsMapFacts.get_set_same | reflexivity ].
  - destruct (page_of w sid pid) as [page|]; cbn.
    + rewrite Hcfg.
      destruct (goto E page (Some url) _); cbn.
      * rewrite Hcalls, <- app_assoc.
        destruct (title E page); cbn; auto.
      * now rewrite Hcalls.
    + auto.
Qed.

(** X14.  [click] and [type] on the synchronous plane: for an unknown
    session or page the answer is NOT_FOUND and the engine is not
    called; otherwise the engine is called once, with the request's
    [timeout_ms] or 30000 when that is 0, and the answer is an
    acknowledgement whose [success] says whether the engine call
    succeeded. *)
Theorem X14_click_and_type (sid : SessionId) (pid : PageId)
  (selector text : string) (timeout_ms : Z) (E : Engine) (w : World) :
  let timeout := Some (if timeout_ms =? 0 then 30000 else timeout_ms) in
  let rc := grpc_click sid pid selector timeout_ms E w in
  let rt := grpc_type sid pid selector text timeout_ms E w in
  match page_of w sid pid with
  | None =>
      fst rc = Return (GrpcError NOT_FOUND "Page not found") /\
      engineCalls (snd rc) = engineCalls w /\
      fst rt = Return (GrpcError NOT_FOUND "Page not found") /\
      engineCalls (snd rt) = engineCalls w
  | Some page =>
      fst rc =
        Return (GrpcOk
                  match click E page (Some selector) timeout with
                  | Ok _ => OperationAck true "Click executed"
                  | Fails e => OperationAck false (message (Playwright e))
                  end) /\
      engineCalls (snd rc) =
        engineCalls w ++ [Click page (Some selector) timeout] /\
      fst rt =
        Return (GrpcOk
                  match fill E page (Some selector) (Some text) timeout with
                  | Ok _ => OperationAck true "Text typed"
                  | Fails e => OperationAck false (message (Playwright e))
                  end) /\
      engineCalls (snd rt) =
        engineCalls w ++ [Fill page (Some selector) (Some text) timeout]
  end.
Proof.
  cbv zeta. unfold grpc_click, grpc_type.
  rewrite !try_catch_run, !bind_run.
  destruct (getPage_run sid pid E w) as [Hfst [Hcalls _]].
  destruct (getPage sid pid E w) as [r1 w1]. cbn [fst snd] in *. subst r1.
  unfold or_default.
  destruct (page_of w sid pid) as [page|]; cbn.
  - rewrite Hcalls.
    destruct (click E page (Some selector) _),
      (fill E page (Some selector) (Some text) _); cbn; auto.
  - auto.
Qed.

(** ** The event plane: replies to actions *)

Lemma sent_createSession userId md E w :
  sent (snd (createSession userId md E w)) = sent w.
Proof.
  destruct (Z_le_gt_dec (maxBrowsers (pool w)) (activeSessionCount w))
    as [Hfull|Hroom].
  - now rewrite createSession_at_capacity.
  - assert (Hlt : activeSessionCount w < maxBrowsers (pool w)) by lia.
    pose proof (createSession_below_capacity userId md E w Hlt) as Hout.
    destruct (createSession userId md E w) as [r w'].
    inversion Hout; subst; reflexivity.
Qed.

Lemma sent_createPage sid url E w :
  sent (snd (createPage sid url E w)) = sent w.
Proof.
  destruct (JsMap.get sid (sessions w)) as [s|] eqn:Hget.
  - destruct (newPage E (context s)) as [page|e] eqn:Hnew.
    + rewrite (createPage_with_page sid s url page E w Hget Hnew).
      now destruct (truthy url).
    + now rewrite (createPage_no_page sid s url e E w Hget Hnew).
  - now rewrite (createPage_absent sid url E w Hget).
Qed.

Lemma sent_getSession sid E w : sent (snd (getSession sid E w)) = sent w.
Proof.
  destruct (JsMap.get sid (sessions w)) as [s|] eqn:Hget.
  - now rewrite (getSession_present sid s E w Hget).
  - now rewrite (getSession_absent sid E w Hget).
Qed.

Lemma sent_js_getPage sid pid E w : sent (snd (js_getPage sid pid E w)) = sent w.
Proof.
  destruct sid as [sid|], pid as [pid|]; cbn [js_getPage]; try reflexivity.
  - unfold getPage. rewrite bind_run.
    pose proof (sent_getSession sid E w) as Hs.
    now destruct (getSession sid E w) as [[s|e] w1].
  - rewrite bind_run. pose proof (sent_getSession sid E w) as Hs.
    now destruct (getSession sid E w) as [[s|e] w1].
Qed.

(** The switch of [handleBrowserAction] sends nothing itself. *)
Lemma sent_browser_action_switch pl E w :
  sent (snd (browser_action_switch wired pl E w)) = sent w.
Proof.
  unfold browser_action_switch.
  destruct (String.eqb (action pl) "create-session").
  { rewrite bind_run. simpl call_createSession. rewrite bind_run.
    pose proof (sent_createSession (p_userId pl) (p_metadata pl) E w) as Hs.
    now destruct (createSession (p_userId pl) (p_metadata pl) E w)
      as [[id|e] w1]. }
  destruct (String.eqb (action pl) "create-page").
  { rewrite bind_run. unfold js_createPage.
    destruct (p_sessionId pl) as [sid|]; [|reflexivity].
    rewrite wired_createPage_run.
    pose proof (sent_createPage sid (p_url pl) E w) as Hs.
    now destruct (createPage sid (p_url pl) E w) as [[id|e] w1]. }
  destruct (String.eqb (action pl) "navigate").
  { rewrite bind_run.
    pose proof (sent_js_getPage (p_sessionId pl) (p_pageId pl) E w) as Hs.
    destruct (js_getPage (p_sessionId pl) (p_pageId pl) E w)
      as [[[page|]|e] w1]; cbn in *; auto.
    now destruct (goto E page (p_url pl) None). }
  destruct (String.eqb (action pl) "click").
  { rewrite bind_run.
    pose proof (sent_js_getPage (p_sessionId pl) (p_pageId pl) E w) as Hs.
    destruct (js_getPage (p_sessionId pl) (p_pageId pl) E w)
      as [[[page|]|e] w1]; cbn in *; auto.
    now destruct (click E page (p_selector pl) None). }
  destruct (String.eqb (action pl) "type").
  { rewrite bind_run.
    pose proof (sent_js_getPage (p_sessionId pl) (p_pageId pl) E w) as Hs.
    destruct (js_getPage (p_sessionId pl) (p_pageId pl) E w)
      as [[[page|]|e] w1]; cbn in *; auto.
    now destruct (fill E page (p_selector pl) (p_text pl) None). }
  reflexivity.
Qed.

(** X15.  [handleBrowserAction] with a payload never raises, and it
    sends the requesting client exactly one reply: the result when the
    action succeeded, the error message when it did not.  An action verb
    it does not know is answered "Unknown browser action: <verb>" with
    the pool untouched and nothing published. *)
Theorem X15_handleBrowserAction_replies (client : ClientId)
  (pl : ActionPayload) (E : Engine) (w : World) :
  let r := handleBrowserAction wired client pl E w in
  fst r = Return tt /\
  sent (snd r) =
    sent w ++
    [(client,
      match fst (browser_action_switch wired pl E w) with
      | Return v => ActionResult (action pl) (p_sessionId pl) (p_pageId pl) v
      | Throw e => ActionFailure (action pl) (message e)
      end)] /\
  (known_action (action pl) = false ->
   sent (snd r) =
     sent w ++
     [(client,
       ActionFailure (action pl)
         (String.append "Unknown browser action: " (action pl)))] /\
   pool (snd r) = pool w /\ published (snd r) = published w).
Proof.
  cbv zeta. rewrite handleBrowserAction_run.
  pose proof (sent_browser_action_switch pl E w) as Hsent.
  split; [|split].
  - now destruct (browser_action_switch wired pl E w) as [[v|e] w1].
  - destruct (browser_action_switch wired pl E w) as [[v|e] w1];
      cbn [fst snd sent] in *; now rewrite Hsent.
  - intros Hunknown. unfold known_action in Hunknown.
    repeat (apply Bool.orb_false_iff in Hunknown;
            destruct Hunknown as [Hunknown ?]).
    assert (Hsw : browser_action_switch wired pl E w =
                  (Throw (UnknownBrowserAction (action pl)), w)).
    { unfold browser_action_switch.
      repeat match goal with
             | H : String.eqb _ _ = false |- _ => rewrite H; clear H
             end.
      reflexivity. }
    rewrite Hsw. cbn. auto.
Qed.

(** * The client table of the event plane *)

Lemma ws_get_update_client k k' f srv :
  JsMap.get k' (Ws.clients (Ws.update_client k f srv)) =
  if String.eqb k k'
  then option_map f (JsMap.get k (Ws.clients srv))
  else JsMap.get k' (Ws.clients srv).
Proof.
  unfold Ws.update_client.
  destruct (String.eqb_spec k k') as [<-|Hne].
  - destruct (JsMap.get k (Ws.clients srv)) eqn:Hg; simpl.
    + apply JsMapFacts.get_set_same.
    + exact Hg.
  - destruct (JsMap.get k (Ws.clients srv)) eqn:Hg; simpl; auto.
    now apply JsMapFacts.get_set_other.
Qed.

Lemma ws_heartbeats_update_client k f srv :
  Ws.heartbeats (Ws.update_client k f srv) = Ws.heartbeats srv.
Proof.
  unfold Ws.update_client.
  now destruct (JsMap.get k (Ws.clients srv)).
Qed.

Lemma ws_keys_update_client k f srv :
  JsMap.keys (Ws.clients (Ws.update_client k f srv)) =
  JsMap.keys (Ws.clients srv).
Proof.
  unfold Ws.update_client.
  destruct (JsMap.get k (Ws.clients srv)) eqn:Hg; simpl; auto.
  now apply JsMapFacts.keys_set_present with (v' := c).
Qed.

Lemma ws_get_sendMessage k k' m srv :
  JsMap.get k' (Ws.clients (Ws.sendMessage k m srv)) =
  if String.eqb k k'
  then option_map (messaged m) (JsMap.get k (Ws.clients srv))
  else JsMap.get k' (Ws.clients srv).
Proof.
  unfold Ws.sendMessage, messaged.
  destruct (JsMap.get k (Ws.clients srv)) as [c|] eqn:Hg.
  - destruct (Ws.is_open (Ws.readyState (Ws.ws c))) eqn:Hopen.
    + rewrite ws_get_update_client, Hg.
      destruct (String.eqb k k'); auto. simpl. now rewrite Hopen.
    + destruct (String.eqb_spec k k') as [<-|Hne]; auto.
      rewrite Hg. simpl. now rewrite Hopen.
  - destruct (String.eqb_spec k k') as [<-|Hne]; auto.
Qed.

Lemma ws_heartbeats_sendMessage k m srv :
  Ws.heartbeats (Ws.sendMessage k m srv) = Ws.heartbeats srv.
Proof.
  unfold Ws.sendMessage.
  destruct (JsMap.get k (Ws.clients srv)) as [c|]; auto.
  destruct (Ws.is_open (Ws.readyState (Ws.ws c))); auto.
  apply ws_heartbeats_update_client.
Qed.

Lemma ws_keys_sendMessage k m srv :
  JsMap.keys (Ws.clients (Ws.sendMessage k m srv)) =
  JsMap.keys (Ws.clients srv).
Proof.
  unfold Ws.sendMessage.
  destruct (JsMap.get k (Ws.clients srv)) as [c|]; auto.
  destruct (Ws.is_open (Ws.readyState (Ws.ws c))); auto.
  apply ws_keys_update_client.
Qed.

(** The loop of [broadcast] over entries that are the live clients. *)
Lemma broadcast_loop b (l : list (string * Ws.Client)) :
  forall srv,
    NoDup (map fst l) ->
    (forall k c, In (k, c) l -> JsMap.get k (Ws.clients srv) = Some c) ->
    let srv' :=
      fold_left
        (fun srv' entry =>
           if Ws.subscribed (topic b) (snd entry)
           then Ws.sendMessage (fst entry) (Ws.BroadcastMessage b) srv'
           else srv') l srv in
    Ws.heartbeats srv' = Ws.heartbeats srv /\
    forall k,
      JsMap.get k (Ws.clients srv') =
      if existsb (String.eqb k) (map fst l)
      then option_map (delivered b) (JsMap.get k (Ws.clients srv))
      else JsMap.get k (Ws.clients srv).
Proof.
  induction l as [|[k0 c0] l IH]; intros srv Hnd Hlive; cbv zeta; simpl.
  - auto.
  - inversion Hnd as [|? ? Hnotin Hnd']; subst.
    assert (Hc0 : JsMap.get k0 (Ws.clients srv) = Some c0)
      by (apply Hlive; now left).
    set (srv1 := if Ws.subscribed (topic b) c0
                 then Ws.sendMessage k0 (Ws.BroadcastMessage b) srv
                 else srv).
    assert (Hget1 : forall k,
              JsMap.get k (Ws.clients srv1) =
              if String.eqb k k0
              then Some (delivered b c0)
              else JsMap.get k (Ws.clients srv)).
    { intros k. unfold srv1, delivered.
      destruct (Ws.subscribed (topic b) c0) eqn:Hsub.
      - rewrite ws_get_sendMessage, (String.eqb_sym k k0).
        destruct (String.eqb_spec k0 k) as [<-|Hne]; auto.
        rewrite Hc0. reflexivity.
      - simpl. destruct (String.eqb_spec k k0) as [->|Hne]; auto. }
    assert (Hhb1 : Ws.heartbeats srv1 = Ws.heartbeats srv).
    { unfold srv1. destruct (Ws.subscribed (topic b) c0); auto.
      apply ws_heartbeats_sendMessage. }
    destruct (IH srv1 Hnd') as [Hhb Hget].
    { intros k c Hin. rewrite Hget1.
      destruct (String.eqb_spec k k0) as [->|Hne].
      - exfalso. apply Hnotin. change k0 with (fst (k0, c)).
        now apply in_map.
      - apply Hlive. now right. }
    split; [congruence|].
    intros k. rewrite Hget, !Hget1.
    destruct (String.eqb_spec k k0) as [->|Hne]; simpl.
    + rewrite Hc0.
      destruct (existsb (String.eqb k0) (map fst l)) eqn:Hex; auto.
      exfalso. apply Hnotin. apply existsb_exists in Hex.
      destruct Hex as [k [Hin Heq]]. apply String.eqb_eq in Heq. now subst.
    + reflexivity.
Qed.

(** X16.  Who receives a broadcast.  On a well-formed client table
    [broadcast] hands the envelope to a client exactly when the client's
    socket is OPEN and its subscriptions hold the topic itself or the
    wildcard "*"; it does so once, and changes nothing else: every other
    client, every subscription and every [lastPing] stays as it was.
    Topics are compared as whole strings, so a subscription to a
    pattern such as "session.*" matches no event. *)
Theorem X16_broadcast_delivery (b : Broadcast) (srv : Ws.Server) :
  JsMap.wf (Ws.clients srv) ->
  Ws.heartbeats (Ws.broadcast b srv) = Ws.heartbeats srv /\
  forall k,
    JsMap.get k (Ws.clients (Ws.broadcast b srv)) =
    match JsMap.get k (Ws.clients srv) with
    | None => None
    | Some c =>
        Some (if (JsSet.has (topic b) (Ws.subscriptions c) ||
                  JsSet.has "*" (Ws.subscriptions c)) &&
                 Ws.is_open (Ws.readyState (Ws.ws c))
              then Ws.mkClient
                     (Ws.mkSocket (Ws.readyState (Ws.ws c))
                        (Ws.sends (Ws.ws c) ++ [Ws.BroadcastMessage b])
                        (Ws.closes (Ws.ws c)))
                     (Ws.subscriptions c) (Ws.lastPing c)
              else c)
    end.
Proof.
  intros Hwf. unfold Ws.broadcast.
  destruct (broadcast_loop b (Ws.clients srv) srv Hwf) as [Hhb Hget].
  { intros k c Hin. now apply JsMapFacts.in_get. }
  split; [exact Hhb|].
  intros k. rewrite Hget.
  destruct (JsMap.get k (Ws.clients srv)) as [c|] eqn:Hc.
  - assert (Hex : existsb (String.eqb k) (map fst (Ws.clients srv)) = true).
    { apply existsb_exists. exists k. split; [|apply String.eqb_refl].
      apply JsMapFacts.get_some_in in Hc.
      change k with (fst (k, c)). now apply in_map. }
    rewrite Hex. reflexivity.
  - now destruct (existsb (String.eqb k) (map fst (Ws.clients srv))).
Qed.

Lemma X16_broadcast_delivery_witness :
  let b := closed_event 5 "A" in
  let srv' := Ws.broadcast b three_listeners in
  JsMap.get "c1" (Ws.clients srv') =
    Some (Ws.mkClient (Ws.mkSocket Ws.OPEN [Ws.BroadcastMessage b] [])
            ["session.closed"] 0) /\
  JsMap.get "c2" (Ws.clients srv') =
    Some (Ws.mkClient (Ws.mkSocket Ws.OPEN [Ws.BroadcastMessage b] [])
            ["*"] 0) /\
  JsMap.get "c3" (Ws.clients srv') = Some (listener ["session.*"]).
Proof.
  assert (Hwf : JsMap.wf (Ws.clients three_listeners)).
  { repeat constructor; simpl; intuition discriminate. }
  destruct (X16_broadcast_delivery (closed_event 5 "A") three_listeners Hwf)
    as [_ Hget].
  cbv zeta. split; [|split].
  - exact (Hget "c1").
  - exact (Hget "c2").
  - exact (Hget "c3").
Defined.

(** ** Subscriptions *)

Lemma has_add t k s :
  JsSet.has t (JsSet.add k s) = JsSet.has t s || String.eqb t k.
Proof.
  unfold JsSet.add. destruct (JsSet.has k s) eqn:Hk.
  - destruct (String.eqb_spec t k) as [->|Hne].
    + rewrite Hk. reflexivity.
    + now rewrite Bool.orb_false_r.
  - unfold JsSet.has. rewrite existsb_app. simpl.
    now rewrite Bool.orb_false_r.
Qed.

Lemma has_fold_add t ts : forall s,
  JsSet.has t (fold_left (fun s' k => JsSet.add k s') ts s) =
  JsSet.has t s || existsb (String.eqb t) ts.
Proof.
  induction ts as [|k ts IH]; intros s; simpl.
  - now rewrite Bool.orb_false_r.
  - rewrite IH, has_add. now rewrite Bool.orb_assoc.
Qed.

Lemma has_delete t k s :
  JsSet.has t (JsSet.delete k s) = JsSet.has t s && negb (String.eqb t k).
Proof.
  unfold JsSet.has, JsSet.delete.
  induction s as [|x s IH]; simpl; auto.
  destruct (String.eqb_spec k x) as [->|Hne]; simpl.
  - rewrite IH. destruct (String.eqb t x); simpl; auto.
    now rewrite Bool.andb_false_r.
  - rewrite IH. destruct (String.eqb_spec t x) as [->|Hne']; simpl; auto.
    destruct (String.eqb_spec x k); [congruence|]. reflexivity.
Qed.

Lemma has_fold_delete t ts : forall s,
  JsSet.has t (fold_left (fun s' k => JsSet.delete k s') ts s) =
  JsSet.has t s && negb (existsb (String.eqb t) ts).
Proof.
  induction ts as [|k ts IH]; intros s; simpl.
  - now rewrite Bool.andb_true_r.
  - rewrite IH, has_delete, Bool.negb_orb. now rewrite Bool.andb_assoc.
Qed.

Lemma nodup_add k s : NoDup s -> NoDup (JsSet.add k s).
Proof.
  intros Hnd. unfold JsSet.add. destruct (JsSet.has k s) eqn:Hk; auto.
  apply NoDup_rev in Hnd. rewrite <- (rev_involutive (s ++ [k])).
  apply NoDup_rev. rewrite rev_app_distr. simpl. constructor; auto.
  rewrite <- in_rev. intros Hin.
  assert (JsSet.has k s = true); [|congruence].
  apply existsb_exists. exists k. split; auto. apply String.eqb_refl.
Qed.

Lemma nodup_fold_add ts : forall s,
  NoDup s -> NoDup (fold_left (fun s' k => JsSet.add k s') ts s).
Proof.
  induction ts as [|k ts IH]; intros s Hnd; simpl; auto using nodup_add.
Qed.

Lemma fold_add_app ts : forall s,
  exists l, fold_left (fun s' k => JsSet.add k s') ts s = s ++ l /\
            forall x, In x l -> In x ts.
Proof.
  induction ts as [|k ts IH]; intros s; simpl.
  - exists []. split; [now rewrite app_nil_r | contradiction].
  - destruct (IH (JsSet.add k s)) as [l [Heq Hin]]. unfold JsSet.add in *.
    destruct (JsSet.has k s).
    + exists l. split; auto.
    + exists (k :: l). split.
      * rewrite Heq. now rewrite <- app_assoc.
      * intros x [<-|Hx]; auto.
Qed.

Lemma fold_delete_set ts : forall s,
  fold_left (fun s' k => JsSet.delete k s') ts s =
  filter (fun x => negb (existsb (String.eqb x) ts)) s.
Proof.
  induction ts as [|k ts IH]; intros s; simpl.
  - induction s as [|x s IHs]; simpl; congruence.
  - rewrite IH. unfold JsSet.delete.
    induction s as [|x s IHs]; simpl; auto.
    rewrite (String.eqb_sym k x).
    destruct (String.eqb x k); simpl; rewrite IHs; reflexivity.
Qed.

(** Subscribing to topics none of which was subscribed and then
    unsubscribing from them gives the set back. *)
Lemma subscribe_unsubscribe_set ts s :
  (forall t, In t ts -> JsSet.has t s = false) ->
  fold_left (fun s' k => JsSet.delete k s') ts
    (fold_left (fun s' k => JsSet.add k s') ts s) = s.
Proof.
  intros Hnew. destruct (fold_add_app ts s) as [l [-> Hin]].
  rewrite fold_delete_set, filter_app.
  assert (Hl : filter (fun x => negb (existsb (String.eqb x) ts)) l = []).
  { induction l as [|x l IH]; simpl; auto.
    assert (Hx : existsb (String.eqb x) ts = true).
    { apply existsb_exists. exists x. split; [|apply String.eqb_refl].
      apply Hin. now left. }
    rewrite Hx. simpl. apply IH. intros y Hy. apply Hin. now right. }
  rewrite Hl, app_nil_r.
  assert (Hs : forall s0 : list string,
            (forall x, In x s0 -> existsb (String.eqb x) ts = false) ->
            filter (fun x => negb (existsb (String.eqb x) ts)) s0 = s0).
  { induction s0 as [|x s0 IH]; intros H0; simpl; auto.
    rewrite (H0 x) by now left. simpl. rewrite IH; auto.
    intros y Hy. apply H0. now right. }
  apply Hs. intros x Hx.
  apply Bool.not_true_is_false. intros Hex.
  apply existsb_exists in Hex. destruct Hex as [t [Ht Heq]].
  apply String.eqb_eq in Heq. subst t.
  specialize (Hnew x Ht). unfold JsSet.has in Hnew.
  assert (existsb (String.eqb x) s = true); [|congruence].
  apply existsb_exists. exists x. split; auto. apply String.eqb_refl.
Qed.

Lemma handleSubscribe_run k c ts srv :
  JsMap.get k (Ws.clients srv) = Some c ->
  let subs := fold_left (fun s t => JsSet.add t s) ts (Ws.subscriptions c) in
  JsMap.get k (Ws.clients (Ws.handleSubscribe k (Some ts) srv)) =
  Some (messaged (Ws.Subscribed ts (JsSet.size subs))
          (Ws.mkClient (Ws.ws c) subs (Ws.lastPing c))).
Proof.
  intros Hc. cbv zeta. unfold Ws.handleSubscribe. rewrite Hc.
  rewrite ws_get_update_client, String.eqb_refl, Hc. cbn [option_map].
  rewrite ws_get_sendMessage, String.eqb_refl.
  rewrite ws_get_update_client, String.eqb_refl, Hc. reflexivity.
Qed.

Lemma handleUnsubscribe_run k c ts srv :
  JsMap.get k (Ws.clients srv) = Some c ->
  let subs := fold_left (fun s t => JsSet.delete t s) ts (Ws.subscriptions c) in
  JsMap.get k (Ws.clients (Ws.handleUnsubscribe k (Some ts) srv)) =
  Some (messaged (Ws.Unsubscribed ts (JsSet.size subs))
          (Ws.mkClient (Ws.ws c) subs (Ws.lastPing c))).
Proof.
  intros Hc. cbv zeta. unfold Ws.handleUnsubscribe. rewrite Hc.
  rewrite ws_get_update_client, String.eqb_refl, Hc. cbn [option_map].
  rewrite ws_get_sendMessage, String.eqb_refl.
  rewrite ws_get_update_client, String.eqb_refl, Hc. reflexivity.
Qed.

Lemma subscriptions_messaged m c :
  Ws.subscriptions (messaged m c) = Ws.subscriptions c /\
  Ws.lastPing (messaged m c) = Ws.lastPing c /\
  Ws.readyState (Ws.ws (messaged m c)) = Ws.readyState (Ws.ws c) /\
  Ws.sends (Ws.ws (messaged m c)) =
    Ws.sends (Ws.ws c) ++
    (if Ws.is_open (Ws.readyState (Ws.ws c)) then [m] else []).
Proof.
  unfold messaged. destruct (Ws.is_open (Ws.readyState (Ws.ws c))); simpl;
    rewrite ?app_nil_r; auto.
Qed.

(** X17.  Subscriptions behave as a set.  After [handleSubscribe] with
    an array of topics the client is subscribed to exactly what it was
    before plus those topics, each counted once, and the reply reports
    the size of the set.  [handleUnsubscribe] removes exactly the
    topics named.  Subscribing to topics that are all new and then
    unsubscribing from them gives back the subscriptions of before.
    When [topics] is not an array the client is told so and its
    subscriptions stay as they were.  Subscribing leaves [lastPing] as
    it was. *)
Theorem X17_subscriptions (k : ClientId) (c : Ws.Client) (ts : list string)
  (srv : Ws.Server) :
  JsMap.get k (Ws.clients srv) = Some c ->
  let srv1 := Ws.handleSubscribe k (Some ts) srv in
  let srv2 := Ws.handleUnsubscribe k (Some ts) srv1 in
  (exists c1,
     JsMap.get k (Ws.clients srv1) = Some c1 /\
     (forall t, JsSet.has t (Ws.subscriptions c1) =
                JsSet.has t (Ws.subscriptions c) || existsb (String.eqb t) ts) /\
     (NoDup (Ws.subscriptions c) -> NoDup (Ws.subscriptions c1)) /\
     Ws.lastPing c1 = Ws.lastPing c /\
     Ws.sends (Ws.ws c1) =
       Ws.sends (Ws.ws c) ++
       (if Ws.is_open (Ws.readyState (Ws.ws c))
        then [Ws.Subscribed ts (JsSet.size (Ws.subscriptions c1))] else [])) /\
  (exists c2,
     JsMap.get k (Ws.clients srv2) = Some c2 /\
     (forall t, JsSet.has t (Ws.subscriptions c2) =
                JsSet.has t (Ws.subscriptions c) &&
                negb (existsb (String.eqb t) ts)) /\
     ((forall t, In t ts -> JsSet.has t (Ws.subscriptions c) = false) ->
      Ws.subscriptions c2 = Ws.subscriptions c)) /\
  (exists c3,
     JsMap.get k (Ws.clients (Ws.handleSubscribe k None srv)) = Some c3 /\
     Ws.subscriptions c3 = Ws.subscriptions c /\
     Ws.sends (Ws.ws c3) =
       Ws.sends (Ws.ws c) ++
       (if Ws.is_open (Ws.readyState (Ws.ws c))
        then [Ws.ErrorMessage "Topics must be an array"] else [])).
Proof.
  intros Hc. cbv zeta.
  pose proof (handleSubscribe_run k c ts srv Hc) as H1. cbv zeta in H1.
  set (subs1 := fold_left (fun s t => JsSet.add t s) ts (Ws.subscriptions c))
    in *.
  set (c1 := messaged (Ws.Subscribed ts (JsSet.size subs1))
               (Ws.mkClient (Ws.ws c) subs1 (Ws.lastPing c))) in *.
  destruct (subscriptions_messaged (Ws.Subscribed ts (JsSet.size subs1))
              (Ws.mkClient (Ws.ws c) subs1 (Ws.lastPing c)))
    as [Hs1 [Hp1 [_ Hm1]]].
  fold c1 in Hs1, Hp1, Hm1. cbn in Hs1, Hp1, Hm1.
  split; [|split].
  - exists c1. split; [exact H1|]. rewrite Hs1. split; [|split; [|split]].
    + intros t. unfold subs1. apply has_fold_add.
    + intros Hnd. unfold subs1. now apply nodup_fold_add.
    + exact Hp1.
    + exact Hm1.
  - pose proof (handleUnsubscribe_run k c1 ts _ H1) as H2. cbv zeta in H2.
    eexists. split; [exact H2|].
    destruct (subscriptions_messaged
                (Ws.Unsubscribed ts
                   (JsSet.size (fold_left (fun s t => JsSet.delete t s) ts
                                  (Ws.subscriptions c1))))
                (Ws.mkClient (Ws.ws c1)
                   (fold_left (fun s t => JsSet.delete t s) ts
                      (Ws.subscriptions c1)) (Ws.lastPing c1)))
      as [Hs2 _].
    rewrite Hs2. cbn [Ws.subscriptions]. rewrite Hs1. split.
    + intros t. rewrite has_fold_delete. unfold subs1.
      rewrite has_fold_add.
      destruct (JsSet.has t (Ws.subscriptions c)),
        (existsb (String.eqb t) ts); reflexivity.
    + intros Hnew. unfold subs1. now apply subscribe_unsubscribe_set.
  - unfold Ws.handleSubscribe, Ws.sendError. rewrite Hc.
    rewrite ws_get_sendMessage, String.eqb_refl, Hc. cbn [option_map].
    eexists. split; [reflexivity|].
    destruct (subscriptions_messaged
                (Ws.ErrorMessage "Topics must be an array") c)
      as [Hs3 [_ [_ Hm3]]].
    split; [exact Hs3 | exact Hm3].
Qed.

Lemma X17_subscriptions_witness :
  exists c2,
    JsMap.get "c1"
      (Ws.clients
         (Ws.handleUnsubscribe "c1" (Some ["page.created"; "page.created"])
            (Ws.handleSubscribe "c1" (Some ["page.created"; "page.created"])
               three_listeners))) = Some c2 /\
    Ws.subscriptions c2 = ["session.closed"].
Proof.
  destruct (X17_subscriptions "c1" (listener ["session.closed"])
              ["page.created"; "page.created"] three_listeners eq_refl)
    as [_ [[c2 [Hget [_ Hback]]] _]].
  exists c2. split; [exact Hget|]. apply Hback.
  intros t [<-|[<-|[]]]; reflexivity.
Defined.

(** ** Liveness of a client *)

Lemma messaged_keeps m c :
  Ws.lastPing (messaged m c) = Ws.lastPing c /\
  Ws.closes (Ws.ws (messaged m c)) = Ws.closes (Ws.ws c) /\
  Ws.readyState (Ws.ws (messaged m c)) = Ws.readyState (Ws.ws c).
Proof.
  unfold messaged. destruct (Ws.is_open (Ws.readyState (Ws.ws c))); auto.
Qed.

Lemma ws_heartbeats_handleSubscribe k tp srv :
  Ws.heartbeats (Ws.handleSubscribe k tp srv) = Ws.heartbeats srv.
Proof.
  unfold Ws.handleSubscribe, Ws.sendError.
  destruct (JsMap.get k (Ws.clients srv)); auto.
  destruct tp as [ts|]; cbv zeta.
  - destruct (JsMap.get k (Ws.clients (Ws.update_client k _ srv)));
      now rewrite ?ws_heartbeats_sendMessage, ws_heartbeats_update_client.
  - apply ws_heartbeats_sendMessage.
Qed.

Lemma ws_heartbeats_handleUnsubscribe k tp srv :
  Ws.heartbeats (Ws.handleUnsubscribe k tp srv) = Ws.heartbeats srv.
Proof.
  unfold Ws.handleUnsubscribe, Ws.sendError.
  destruct (JsMap.get k (Ws.clients srv)); auto.
  destruct tp as [ts|]; cbv zeta.
  - destruct (JsMap.get k (Ws.clients (Ws.update_client k _ srv)));
      now rewrite ?ws_heartbeats_sendMessage, ws_heartbeats_update_client.
  - apply ws_heartbeats_sendMessage.
Qed.

Lemma sendError_run k c msg srv :
  JsMap.get k (Ws.clients srv) = Some c ->
  JsMap.get k (Ws.clients (Ws.sendError k msg srv)) =
  Some (messaged (Ws.ErrorMessage msg) c).
Proof.
  intros Hc. unfold Ws.sendError.
  now rewrite ws_get_sendMessage, String.eqb_refl, Hc.
Qed.

Lemma handlePing_run k c now srv :
  JsMap.get k (Ws.clients srv) = Some c ->
  JsMap.get k (Ws.clients (Ws.handlePing k now srv)) =
  Some (messaged (Ws.Pong now)
          (Ws.mkClient (Ws.ws c) (Ws.subscriptions c) now)).
Proof.
  intros Hc. unfold Ws.handlePing. rewrite Hc.
  rewrite ws_get_sendMessage, String.eqb_refl.
  now rewrite ws_get_update_client, String.eqb_refl, Hc.
Qed.

(** X18.  A subscription is no sign of life.  Of the messages
    [handleMessage] answers from the client table alone (a ping, a
    subscription, an unsubscription, a message of unknown type, a
    message that does not parse), only the ping refreshes [lastPing]:
    after any of the others the client's [lastPing] is what it was.
    None of these messages makes the server call [close] on the socket
    or stop the heartbeat timer.  Messages of type [browser-action] and
    [get-stats] are handed to other handlers and are not covered. *)
Theorem X18_only_ping_refreshes (k : ClientId) (c : Ws.Client)
  (msg : option Ws.ClientMessage) (now : Z) (srv : Ws.Server) :
  JsMap.get k (Ws.clients srv) = Some c ->
  table_message msg = true ->
  exists srv' c',
    Ws.handleMessage k msg now srv = Ws.Done srv' /\
    Ws.heartbeats srv' = Ws.heartbeats srv /\
    JsMap.get k (Ws.clients srv') = Some c' /\
    Ws.lastPing c' =
      match msg with Some Ws.Ping => now | _ => Ws.lastPing c end /\
    Ws.closes (Ws.ws c') = Ws.closes (Ws.ws c) /\
    Ws.readyState (Ws.ws c') = Ws.readyState (Ws.ws c).
Proof.
  intros Hc Hm. unfold Ws.handleMessage. rewrite Hc.
  destruct msg as [[ | [[ts|]|] | [[ts|]|] | pl | | ty]|];
    try discriminate; eexists; eexists; (split; [reflexivity|]).
  - split.
    + unfold Ws.handlePing. rewrite Hc.
      now rewrite ws_heartbeats_sendMessage, ws_heartbeats_update_client.
    + split; [exact (handlePing_run k c now srv Hc)|].
      exact (messaged_keeps _ _).
  - split; [apply ws_heartbeats_handleSubscribe|].
    split; [exact (handleSubscribe_run k c ts srv Hc)|].
    exact (messaged_keeps _ _).
  - split; [apply ws_heartbeats_handleSubscribe|].
    unfold Ws.handleSubscribe. rewrite Hc.
    split; [exact (sendError_run k c _ srv Hc)|]. exact (messaged_keeps _ _).
  - split; [apply ws_heartbeats_sendMessage|].
    split; [exact (sendError_run k c _ srv Hc)|]. exact (messaged_keeps _ _).
  - split; [apply ws_heartbeats_handleUnsubscribe|].
    split; [exact (handleUnsubscribe_run k c ts srv Hc)|].
    exact (messaged_keeps _ _).
  - split; [apply ws_heartbeats_handleUnsubscribe|].
    unfold Ws.handleUnsubscribe. rewrite Hc.
    split; [exact (sendError_run k c _ srv Hc)|]. exact (messaged_keeps _ _).
  - split; [apply ws_heartbeats_sendMessage|].
    split; [exact (sendError_run k c _ srv Hc)|]. exact (messaged_keeps _ _).
  - split; [apply ws_heartbeats_sendMessage|].
    split; [exact (sendError_run k c _ srv Hc)|]. exact (messaged_keeps _ _).
  - split; [apply ws_heartbeats_sendMessage|].
    split; [exact (sendError_run k c _ srv Hc)|]. exact (messaged_keeps _ _).
Qed.

Lemma X18_only_ping_refreshes_witness :
  exists c',
    JsMap.get "c1"
      (Ws.clients
         (Ws.handleSubscribe "c1" (Some ["page.created"]) three_listeners)) =
      Some c' /\
    Ws.lastPing c' = 0.
Proof.
  destruct (X18_only_ping_refreshes "c1" (listener ["session.closed"])
              (Some (Ws.Subscribe (Some (Some ["page.created"])))) 90000
              three_listeners eq_refl eq_refl)
    as [srv' [c' [Hrun [_ [Hget [Hping _]]]]]].
  injection Hrun as <-.
  exists c'. split; [exact Hget | exact Hping].
Defined.

Lemma clear_heartbeat_gone k hs :
  NoDup hs -> ~ In k (Ws.clear_heartbeat k hs).
Proof.
  induction hs as [|h hs IH]; simpl; intros Hnd; auto.
  inversion Hnd as [|? ? Hh Hnd']; subst.
  destruct (String.eqb_spec k h) as [->|Hne]; auto.
  simpl. intros [Heq|Hin]; [congruence|]. now apply IH.
Qed.

Lemma clear_heartbeat_last k hs :
  ~ In k hs -> Ws.clear_heartbeat k (hs ++ [k]) = hs.
Proof.
  induction hs as [|h hs IH]; simpl; intros Hnot.
  - now rewrite String.eqb_refl.
  - destruct (String.eqb_spec k h) as [->|Hne]; [tauto|].
    rewrite IH; tauto.
Qed.

Lemma heartbeat_running k hs :
  existsb (String.eqb k) hs = true <-> In k hs.
Proof.
  rewrite existsb_exists. split.
  - intros [x [Hin Heq]]. apply String.eqb_eq in Heq. now subst.
  - intros Hin. exists k. split; auto. apply String.eqb_refl.
Qed.

(** X19.  One firing of a client's heartbeat timer.  When more than
    60000 ms have passed since the client's [lastPing], the socket gets
    [close(1001, "No heartbeat response")], nothing is sent, the timer
    is cleared for good, and the client stays in the table with its
    subscriptions: removing it is left to the socket's [close] event.
    Otherwise the socket is not closed, a [heartbeat] message stamped
    with the current time is sent if the socket is open, and the timer
    keeps running. *)
Theorem X19_heartbeat (k : ClientId) (c : Ws.Client) (now : Z)
  (srv : Ws.Server) :
  JsMap.get k (Ws.clients srv) = Some c ->
  NoDup (Ws.heartbeats srv) ->
  In k (Ws.heartbeats srv) ->
  let srv' := Ws.heartbeat k now srv in
  JsMap.keys (Ws.clients srv') = JsMap.keys (Ws.clients srv) /\
  exists c',
    JsMap.get k (Ws.clients srv') = Some c' /\
    Ws.subscriptions c' = Ws.subscriptions c /\
    Ws.lastPing c' = Ws.lastPing c /\
    if 60000 <? now - Ws.lastPing c
    then Ws.closes (Ws.ws c') =
           Ws.closes (Ws.ws c) ++ [(1001, "No heartbeat response")] /\
         Ws.sends (Ws.ws c') = Ws.sends (Ws.ws c) /\
         ~ In k (Ws.heartbeats srv') /\
         forall now', Ws.heartbeat k now' srv' = srv'
    else Ws.closes (Ws.ws c') = Ws.closes (Ws.ws c) /\
         Ws.sends (Ws.ws c') =
           Ws.sends (Ws.ws c) ++
           (if Ws.is_open (Ws.readyState (Ws.ws c))
            then [Ws.Heartbeat now] else []) /\
         Ws.heartbeats srv' = Ws.heartbeats srv.
Proof.
  intros Hc Hnd Hin. cbv zeta. apply heartbeat_running in Hin.
  assert (Hrun :
    Ws.heartbeat k now srv =
    if 60000 <? now - Ws.lastPing c
    then Ws.mkServer
           (Ws.clients
              (Ws.update_client k
                 (fun c' =>
                    Ws.mkClient
                      (Ws.socket_close 1001 "No heartbeat response" (Ws.ws c'))
                      (Ws.subscriptions c') (Ws.lastPing c')) srv))
           (Ws.clear_heartbeat k (Ws.heartbeats srv))
    else Ws.sendMessage k (Ws.Heartbeat now) srv).
  { unfold Ws.heartbeat. now rewrite Hin, Hc. }
  rewrite Hrun. clear Hrun.
  destruct (60000 <? now - Ws.lastPing c) eqn:Hlate.
  - cbn [Ws.clients Ws.heartbeats]. split; [apply ws_keys_update_client|].
    rewrite ws_get_update_client, String.eqb_refl, Hc. cbn [option_map].
    eexists. split; [reflexivity|].
    cbn. repeat split; auto.
    + now apply clear_heartbeat_gone.
    + intros now'. unfold Ws.heartbeat. cbn [Ws.heartbeats].
      destruct (existsb (String.eqb k)
                  (Ws.clear_heartbeat k (Ws.heartbeats srv))) eqn:Hrun; auto.
      apply heartbeat_running in Hrun.
      now apply clear_heartbeat_gone in Hrun.
  - split; [apply ws_keys_sendMessage|].
    rewrite ws_get_sendMessage, String.eqb_refl, Hc. cbn [option_map].
    eexists. split; [reflexivity|].
    destruct (subscriptions_messaged (Ws.Heartbeat now) c)
      as [Hs [Hp [_ Hm]]].
    destruct (messaged_keeps (Ws.Heartbeat now) c) as [_ [Hcl _]].
    repeat split; auto. apply ws_heartbeats_sendMessage.
Qed.

Lemma X19_heartbeat_witness :
  exists c',
    JsMap.get "c2" (Ws.clients (Ws.heartbeat "c2" 60001 three_listeners)) =
      Some c' /\
    Ws.closes (Ws.ws c') = [(1001, "No heartbeat response")] /\
    Ws.sends (Ws.ws c') = [].
Proof.
  assert (Hnd : NoDup (Ws.heartbeats three_listeners)).
  { repeat constructor; simpl; intuition discriminate. }
  destruct (X19_heartbeat "c2" (listener ["*"]) 60001 three_listeners
              eq_refl Hnd (or_intror (or_introl eq_refl)))
    as [_ [c' [Hget [_ [_ [Hcl [Hs _]]]]]]].
  exists c'. split; [exact Hget|]. split; [exact Hcl | exact Hs].
Defined.

(** ** Connections *)

Lemma ws_delete_sendMessage k m srv :
  JsMap.delete k (Ws.clients (Ws.sendMessage k m srv)) =
  JsMap.delete k (Ws.clients srv).
Proof.
  unfold Ws.sendMessage.
  destruct (JsMap.get k (Ws.clients srv)) as [c|] eqn:Hg; auto.
  destruct (Ws.is_open (Ws.readyState (Ws.ws c))); auto.
  unfold Ws.update_client. rewrite Hg. cbn [Ws.set_clients Ws.clients].
  apply delete_set_same.
Qed.

Lemma ws_length_sendMessage k m srv :
  List.length (Ws.clients (Ws.sendMessage k m srv)) =
  List.length (Ws.clients srv).
Proof.
  rewrite <- (length_map fst (Ws.clients (Ws.sendMessage k m srv))).
  rewrite <- (length_map fst (Ws.clients srv)).
  exact (f_equal (@List.length _) (ws_keys_sendMessage k m srv)).
Qed.

(** X20.  A connection and its end.  [handleConnection] under an id
    that is not in use enters the client with no subscription and
    [lastPing] now, greets it, and leaves every other client as it was;
    the count of connected clients grows by one.  When the socket then
    closes, [handleDisconnection] gives back the client table of before
    the connection, but the heartbeat timer of the client is still
    running: it is the next firing of that timer that clears it, and
    the server is then exactly what it was before the client came. *)
Theorem X20_connection_round_trip (k : ClientId) (socket : Ws.Socket)
  (now : Z) (srv : Ws.Server) :
  JsMap.get k (Ws.clients srv) = None ->
  ~ In k (Ws.heartbeats srv) ->
  let srv1 := Ws.handleConnection k socket now srv in
  let srv2 := Ws.handleDisconnection k srv1 in
  JsMap.get k (Ws.clients srv1) =
    Some (messaged (Ws.Connection k now)
            (Ws.mkClient socket JsSet.empty now)) /\
  (forall k', k' <> k ->
     JsMap.get k' (Ws.clients srv1) = JsMap.get k' (Ws.clients srv)) /\
  fst (Ws.getConnectedClients srv1) = fst (Ws.getConnectedClients srv) + 1 /\
  Ws.clients srv2 = Ws.clients srv /\
  Ws.heartbeats srv2 = Ws.heartbeats srv ++ [k] /\
  forall now', Ws.heartbeat k now' srv2 = srv.
Proof.
  intros Hnew Hidle. cbv zeta.
  set (c0 := Ws.mkClient socket JsSet.empty now).
  assert (Hget1 : JsMap.get k (Ws.clients (Ws.handleConnection k socket now srv))
                  = Some (messaged (Ws.Connection k now) c0)).
  { unfold Ws.handleConnection. cbv zeta. cbn [Ws.clients].
    rewrite ws_get_sendMessage, String.eqb_refl. cbn [Ws.set_clients Ws.clients].
    now rewrite JsMapFacts.get_set_same. }
  assert (Hclients :
    Ws.clients (Ws.handleDisconnection k (Ws.handleConnection k socket now srv))
    = Ws.clients srv).
  { unfold Ws.handleDisconnection. rewrite Hget1.
    unfold Ws.handleConnection. cbv zeta. cbn [Ws.set_clients Ws.clients].
    rewrite ws_delete_sendMessage. cbn [Ws.set_clients Ws.clients].
    rewrite delete_set_same. now apply JsMapFacts.delete_absent. }
  assert (Hbeats :
    Ws.heartbeats
      (Ws.handleDisconnection k (Ws.handleConnection k socket now srv))
    = Ws.heartbeats srv ++ [k]).
  { unfold Ws.handleDisconnection. rewrite Hget1.
    unfold Ws.handleConnection. cbv zeta. cbn [Ws.set_clients Ws.heartbeats].
    now rewrite ws_heartbeats_sendMessage. }
  split; [exact Hget1|]. split; [|split; [|split; [exact Hclients|split]]].
  - intros k' Hne. unfold Ws.handleConnection. cbv zeta. cbn [Ws.clients].
    rewrite ws_get_sendMessage.
    destruct (String.eqb_spec k k') as [->|_]; [congruence|].
    cbn [Ws.set_clients Ws.clients].
    apply JsMapFacts.get_set_other. congruence.
  - unfold Ws.getConnectedClients. cbn [fst].
    unfold Ws.handleConnection. cbv zeta. cbn [Ws.clients].
    unfold JsMap.size at 1. rewrite ws_length_sendMessage.
    cbn [Ws.set_clients Ws.clients].
    exact (JsMapFacts.size_set_absent k c0 (Ws.clients srv) Hnew).
  - exact Hbeats.
  - intros now'. unfold Ws.heartbeat. rewrite Hbeats, Hclients, Hnew.
    assert (Hrun : existsb (String.eqb k) (Ws.heartbeats srv ++ [k]) = true).
    { apply heartbeat_running, in_or_app. right. now left. }
    rewrite Hrun, clear_heartbeat_last by exact Hidle.
    now destruct srv.
Qed.

Lemma X20_connection_round_trip_witness :
  Ws.heartbeat "c4" 25000
    (Ws.handleDisconnection "c4"
       (Ws.handleConnection "c4" (Ws.mkSocket Ws.OPEN [] []) 0
          three_listeners)) = three_listeners.
Proof.
  assert (Hidle : ~ In "c4" (Ws.heartbeats three_listeners)).
  { simpl. intuition discriminate. }
  destruct (X20_connection_round_trip "c4" (Ws.mkSocket Ws.OPEN [] []) 0
              three_listeners eq_refl Hidle)
    as [_ [_ [_ [_ [_ Hback]]]]].
  exact (Hback 25000).
Defined.

(** X21.  The end of the event plane.  [stop()] calls
    [close(1012, "Server shutting down")] once on the socket of every
    client of the table, sends nothing, and empties the table, so that
    a broadcast or a message after it reaches nobody.  It clears no
    heartbeat timer: each one that was running finds its client gone at
    its next firing and clears itself then. *)
Theorem X21_ws_stop (srv : Ws.Server) :
  let closed := fst (Ws.stop srv) in
  let srv' := snd (Ws.stop srv) in
  Ws.clients srv' = JsMap.empty /\
  map fst closed = JsMap.keys (Ws.clients srv) /\
  (forall k c, JsMap.get k (Ws.clients srv) = Some c ->
     exists s, In (k, s) closed /\
       Ws.closes s = Ws.closes (Ws.ws c) ++ [(1012, "Server shutting down")] /\
       Ws.sends s = Ws.sends (Ws.ws c)) /\
  (forall b, Ws.broadcast b srv' = srv') /\
  (forall k m, Ws.sendMessage k m srv' = srv') /\
  Ws.heartbeats srv' = Ws.heartbeats srv /\
  (forall k now, In k (Ws.heartbeats srv) ->
     Ws.heartbeat k now srv' =
     Ws.mkServer JsMap.empty (Ws.clear_heartbeat k (Ws.heartbeats srv))).
Proof.
  cbv zeta. unfold Ws.stop. cbn [fst snd Ws.set_clients Ws.clients Ws.heartbeats].
  split; [reflexivity|]. split; [|split; [|split; [|split; [|split]]]];
    try reflexivity.
  - unfold JsMap.keys. rewrite map_map. reflexivity.
  - intros k c Hget.
    exists (Ws.socket_close 1012 "Server shutting down" (Ws.ws c)).
    split; [|split; reflexivity].
    apply JsMapFacts.get_some_in in Hget.
    apply (in_map (fun entry =>
                     (fst entry,
                      Ws.socket_close 1012 "Server shutting down"
                        (Ws.ws (snd entry)))) _ _ Hget).
  - intros k now Hin. unfold Ws.heartbeat.
    cbn [Ws.set_clients Ws.heartbeats Ws.clients].
    apply heartbeat_running in Hin. now rewrite Hin.
Qed.

(** ** Shutdown of the pool *)

Lemma made_calls_refl w : made_calls [] w w.
Proof. unfold made_calls. now rewrite app_nil_r. Qed.

Lemma made_calls_trans c1 c2 w w1 w2 :
  made_calls c1 w w1 -> made_calls c2 w1 w2 -> made_calls (c1 ++ c2) w w2.
Proof.
  unfold made_calls.
  intros [A1 [A2 [A3 [A4 [A5 [A6 [A7 A8]]]]]]]
         [B1 [B2 [B3 [B4 [B5 [B6 [B7 B8]]]]]]].
  repeat split; try congruence.
  rewrite B8, A8. now rewrite app_assoc.
Qed.

(** One stretch of a close makes the first of its remaining calls,
    whatever the engine answers. *)
Lemma close_next_run t E w :
  exists w' c,
    close_next t E w = (Return (closing_rest t), w') /\
    made_calls [c] w w' /\
    remaining_calls t =
      c :: match closing_rest t with
           | Some t' => remaining_calls t'
           | None => []
           end.
Proof.
  destruct t as [sid ps ctx].
  unfold close_next, closing_rest, remaining_calls.
  cbn [closing_pages closing_session closing_context].
  destruct ps as [|page rest].
  - rewrite bind_run, update_session_run. rewrite bind_run, try_catch_run.
    unfold engine. cbn [fst snd].
    destruct (contextClose E ctx) as [[]|e];
      (eexists; exists (ContextClose ctx);
       split; [reflexivity|]; split; [|reflexivity];
       unfold made_calls; cbn;
       destruct (JsMap.get sid (sessions w)); cbn; tauto).
  - rewrite bind_run, try_catch_run. unfold engine.
    destruct (pageClose E page) as [[]|e];
      (eexists; exists (PageClose page);
       split; [reflexivity|]; split; [|reflexivity];
       unfold made_calls; cbn; tauto).
Qed.

Lemma start_closing_run E entries :
  forall w,
  exists ts w' calls,
    start_closing entries E w = (Return ts, w') /\
    made_calls calls w w' /\
    Permutation (calls ++ flat_map remaining_calls ts)
      (flat_map (fun entry => close_calls (snd entry)) entries).
Proof.
  induction entries as [|[sid s] entries IH]; intros w;
    cbn [start_closing flat_map fst snd].
  - exists [], w, []. split; [reflexivity|].
    split; [apply made_calls_refl | constructor].
  - destruct (close_next_run
                (mkClosing sid (JsMap.values (pages s)) (context s)) E w)
      as [w1 [c [Hrun [Hmade Hrem]]]].
    destruct (IH w1) as [ts [w2 [calls [Hrest [Hmade' Hperm]]]]].
    rewrite bind_run, Hrun, bind_run, Hrest.
    eexists. exists w2, (c :: calls). split; [reflexivity|].
    split; [exact (made_calls_trans [c] calls w w1 w2 Hmade Hmade')|].
    assert (Hclose : close_calls s =
              remaining_calls
                (mkClosing sid (JsMap.values (pages s)) (context s))).
    { unfold close_calls, remaining_calls, JsMap.values. cbn.
      now rewrite map_map. }
    rewrite Hclose, Hrem. cbn [app]. apply perm_skip.
    destruct (closing_rest _) as [t'|]; cbn [flat_map].
    + eapply perm_trans; [apply Permutation_app_swap_app|].
      now apply Permutation_app_head.
    + exact Hperm.
Qed.

Lemma resume_closing_run E sid ts :
  forall w,
  exists ts' w' calls,
    resume_closing sid ts E w = (Return ts', w') /\
    made_calls calls w w' /\
    Permutation (calls ++ flat_map remaining_calls ts')
      (flat_map remaining_calls ts).
Proof.
  induction ts as [|t rest IH]; intros w; cbn [resume_closing flat_map].
  - exists [], w, []. split; [reflexivity|].
    split; [apply made_calls_refl | constructor].
  - destruct (String.eqb sid (closing_session t)).
    + destruct (close_next_run t E w) as [w1 [c [Hrun [Hmade Hrem]]]].
      rewrite bind_run, Hrun. eexists. exists w1, [c].
      split; [reflexivity|]. split; [exact Hmade|].
      rewrite Hrem.
      destruct (closing_rest t) as [t'|]; cbn [flat_map app]; reflexivity.
    + destruct (IH w) as [ts' [w1 [calls [Hrun [Hmade Hperm]]]]].
      rewrite bind_run, Hrun. eexists. exists w1, calls.
      split; [reflexivity|]. split; [exact Hmade|].
      cbn [flat_map].
      eapply perm_trans; [apply Permutation_app_swap_app|].
      now apply Permutation_app_head.
Qed.

Lemma resume_all_run E settled :
  forall ts w,
  exists ts' w' calls,
    resume_all settled ts E w = (Return ts', w') /\
    made_calls calls w w' /\
    Permutation (calls ++ flat_map remaining_calls ts')
      (flat_map remaining_calls ts).
Proof.
  induction settled as [|sid settled IH]; intros ts w; cbn [resume_all].
  - exists ts, w, []. split; [reflexivity|].
    split; [apply made_calls_refl | reflexivity].
  - destruct (resume_closing_run E sid ts w)
      as [ts1 [w1 [c1 [Hrun1 [Hmade1 Hperm1]]]]].
    destruct (IH ts1 w1) as [ts2 [w2 [c2 [Hrun2 [Hmade2 Hperm2]]]]].
    rewrite bind_run, Hrun1. exists ts2, w2, (c1 ++ c2).
    split; [exact Hrun2|].
    split; [exact (made_calls_trans c1 c2 w w1 w2 Hmade1 Hmade2)|].
    rewrite <- app_assoc.
    eapply perm_trans; [|exact Hperm1].
    now apply Permutation_app_head.
Qed.

Lemma finish_closing_run E sid ctx ps :
  forall w,
  exists w',
    finish_closing sid ps ctx E w = (Return tt, w') /\
    made_calls (remaining_calls (mkClosing sid ps ctx)) w w'.
Proof.
  induction ps as [|page rest IH]; intros w; cbn [finish_closing];
    match goal with
    | |- context [close_next ?t] =>
        destruct (close_next_run t E w) as [w1 [c [Hrun [Hmade Hrem]]]]
    end;
    rewrite bind_run, Hrun.
  - exists w1. split; [reflexivity|]. now rewrite Hrem.
  - destruct (IH w1) as [w2 [Hrun2 Hmade2]].
    exists w2. split; [exact Hrun2|]. rewrite Hrem.
    exact (made_calls_trans [c] _ w w1 w2 Hmade Hmade2).
Qed.

Lemma finish_all_run E ts :
  forall w,
  exists w',
    for_of ts (fun t =>
      finish_closing (closing_session t) (closing_pages t)
        (closing_context t)) E w = (Return tt, w') /\
    made_calls (flat_map remaining_calls ts) w w'.
Proof.
  induction ts as [|[sid ps ctx] ts IH]; intros w; cbn [for_of flat_map].
  - exists w. split; [reflexivity | apply made_calls_refl].
  - cbn [closing_session closing_pages closing_context].
    destruct (finish_closing_run E sid ctx ps w) as [w1 [Hrun1 Hmade1]].
    destruct (IH w1) as [w2 [Hrun2 Hmade2]].
    rewrite bind_run, Hrun1. exists w2. split; [exact Hrun2|].
    exact (made_calls_trans _ _ w w1 w2 Hmade1 Hmade2).
Qed.

(** X22.  Shutdown of the pool.  Whatever the engine answers and in
    whatever order it settles the awaited calls, [stop()] completes
    without raising.  Its engine calls are the [close] of every page
    and of the context of every session, each made once, in an order
    that depends on the engine.  It leaves a pool with no session and
    no browser, which is not ready.  It goes around [closeSession]: no
    [session.closed] event is published for the sessions it ends, and
    no client is sent anything. *)
Theorem X22_pool_stop (settled : list SessionId) (E : Engine) (w : World) :
  exists w' calls,
    stop settled E w = (Return (browsers (pool w)), w') /\
    sessions w' = JsMap.empty /\
    browsers (pool w') = [] /\
    isReady (pool w') = false /\
    engineCalls w' = engineCalls w ++ calls /\
    Permutation calls
      (flat_map (fun entry => close_calls (snd entry)) (sessions w)) /\
    published w' = published w /\
    sent w' = sent w /\
    clock w' = clock w.
Proof.
  destruct (start_closing_run E (sessions w) w)
    as [ts0 [w0 [c0 [Hrun0 [Hmade0 Hperm0]]]]].
  destruct (resume_all_run E settled ts0 w0)
    as [ts1 [w1 [c1 [Hrun1 [Hmade1 Hperm1]]]]].
  destruct (finish_all_run E ts1 w1) as [w2 [Hrun2 Hmade2]].
  pose proof (made_calls_trans _ _ _ _ _
                (made_calls_trans _ _ _ _ _ Hmade0 Hmade1) Hmade2)
    as [Hcfg [Hclk [Hpub [Hsent [Hbs [_ [_ Hcalls]]]]]]].
  eexists. exists ((c0 ++ c1) ++ flat_map remaining_calls ts1). split.
  - unfold stop. rewrite bind_run. unfold get_pool at 1. cbv beta iota.
    change (activeSessions (pool w)) with (sessions w).
    rewrite bind_run, Hrun0, bind_run, Hrun1, bind_run, Hrun2.
    cbv beta iota. unfold modify_pool, get_pool, ret, bind. cbn.
    rewrite Hbs. reflexivity.
  - cbn. repeat split; auto.
    rewrite <- app_assoc.
    eapply perm_trans; [|exact Hperm0].
    now apply Permutation_app_head.
Qed.

(** Two closes interleaved: the engine settles "A", then "B", then "A"
    again.  The page of "B" is closed between the two pages of "A", and
    the context of "B" before that of "A". *)
Example stop_interleaved :
  engineCalls
    (snd (stop ["A"; "B"; "A"] (stuck_close "u") two_busy_sessions)) =
  [PageClose 7%nat; PageClose 9%nat; PageClose 8%nat;
   ContextClose 102%nat; ContextClose 101%nat].
Proof. reflexivity. Qed.
